(** * Project and session resolution engine

    A shallow embedding of the projects module of the server (the code that
    follows the type declarations in [server/types/api.ts]), which turns the
    per-project JSONL logs under [~/.claude/projects] into a catalog of
    projects and sessions: [extractProjectDirectory], [parseJsonlSessions],
    [getSessions], [getProjects], [renameProject], [deleteSession] and
    [addProjectManually], with the properties the specification states about
    them.

    Conventions of the embedding.
    - JavaScript strings are [string]s of code units below 256; [length],
      [substring], [startsWith] and the like count code units.
    - The file system the functions read and write is an explicit [World]
      value; a function that writes returns the new world.
    - An [async] function that may reject returns [Res]; [try]/[catch] is
      [try_catch].
    - [Map]s and objects that the code iterates are insertion-ordered
      association lists ([JsMap]); the directory cache, which is only looked
      up, set and cleared, is a [gmap].
    - [JSON.parse], [Date] parsing, the wall clock and [path.resolve] belong
      to the platform and are parameters of the development. *)

From Stdlib Require Import ZArith QArith String Ascii List Permutation Sorted Lia.
From stdpp Require Import base tactics option list strings gmap.

Open Scope string_scope.
Open Scope Z_scope.

(** ** Exceptions *)

(** A thrown [Error]: its message and, for file-system errors, its [code]. *)
Record Error := mkError { err_message : string; err_code : option string }.

Inductive Res (A : Type) : Type :=
| Ok (a : A)
| Throw (e : Error).
Arguments Ok {A} a.
Arguments Throw {A} e.

#[global] Instance Res_ret : MRet Res := fun _ a => Ok a.
#[global] Instance Res_bind : MBind Res := fun _ _ f m =>
  match m with
  | Ok a => f a
  | Throw e => Throw e
  end.

(** [try { body } catch (error) { handler }] *)
Definition try_catch {A} (body : Res A) (handler : Error -> Res A) : Res A :=
  match body with
  | Ok a => Ok a
  | Throw e => handler e
  end.

(** [await Promise.all(xs.map(f))], sequentially: the first rejection wins. *)
Fixpoint mapM {A B} (f : A -> Res B) (xs : list A) : Res (list B) :=
  match xs with
  | [] => Ok []
  | x :: xs' => y ← f x; ys ← mapM f xs'; mret (y :: ys)
  end.

Definition fsError (code msg : string) : Error := mkError msg (Some code).
Definition newError (msg : string) : Error := mkError msg None.

(** ** Strings *)

Module Js.

Definition LF : ascii := "010"%char.
Definition CR : ascii := "013"%char.
Definition newline : string := String LF "".

(** White space of [String.prototype.trim] among the code units below 256. *)
Definition isWhitespace (c : ascii) : bool :=
  match nat_of_ascii c with
  | 9%nat | 10%nat | 11%nat | 12%nat | 13%nat | 32%nat | 160%nat => true
  | _ => false
  end.

(** A string is truthy when it is not empty. *)
Definition truthy (s : string) : bool :=
  match s with "" => false | _ => true end.

(** [o || d] for an optional string. *)
Definition orElse (o : option string) (d : string) : string :=
  match o with
  | Some s => if truthy s then s else d
  | None => d
  end.

(** An optional string is truthy when present and not empty. *)
Definition truthyOpt (o : option string) : bool :=
  match o with Some s => truthy s | None => false end.

Fixpoint trimStart (s : string) : string :=
  match s with
  | "" => ""
  | String c s' => if isWhitespace c then trimStart s' else s
  end.

Fixpoint trimEnd (s : string) : string :=
  match s with
  | "" => ""
  | String c s' =>
      match trimEnd s' with
      | "" => if isWhitespace c then "" else String c ""
      | t => String c t
      end
  end.

Definition trim (s : string) : string := trimEnd (trimStart s).

(** [s.replace(/a/g, b)] for single characters [a] and [b]. *)
Fixpoint replaceAll (a b : ascii) (s : string) : string :=
  match s with
  | "" => ""
  | String c s' => String (if Ascii.eqb c a then b else c) (replaceAll a b s')
  end.

Definition startsWith (p s : string) : bool := String.prefix p s.

(** [s.includes(c)] for a single character [c]. *)
Fixpoint includes (c : ascii) (s : string) : bool :=
  match s with
  | "" => false
  | String c' s' => Ascii.eqb c' c || includes c s'
  end.

Definition endsWith (suffix s : string) : bool :=
  let n := String.length s in
  let k := String.length suffix in
  (k <=? n)%nat && String.eqb (String.substring (n - k) k s) suffix.

(** [s.split(sep)] for a single character [sep]. *)
Fixpoint split (sep : ascii) (s : string) : list string :=
  match s with
  | "" => [""]
  | String c s' =>
      if Ascii.eqb c sep then "" :: split sep s'
      else match split sep s' with
           | h :: t => String c h :: t
           | [] => [String c ""]
           end
  end.

(** [parts.join(sep)] *)
Definition join (sep : string) (parts : list string) : string :=
  String.concat sep parts.

(** The lines a [readline] interface with [crlfDelay: Infinity] emits: a
    line ends at LF, CR LF or a lone CR, and a last line without a
    terminator is emitted when it is not empty. *)
Fixpoint readlineGo (cur : string) (s : string) : list string :=
  match s with
  | "" => match cur with "" => [] | _ => [String.rev cur] end
  | String c s' =>
      if Ascii.eqb c LF then String.rev cur :: readlineGo "" s'
      else if Ascii.eqb c CR then
        match s' with
        | String c' s'' =>
            if Ascii.eqb c' LF then String.rev cur :: readlineGo "" s''
            else String.rev cur :: readlineGo "" s'
        | "" => [String.rev cur]
        end
      else readlineGo (String c cur) s'
  end.

Definition readline (content : string) : list string := readlineGo "" content.

(** [Array.prototype.slice]: a negative index counts from the end. *)
Definition clampIndex (len k : Z) : Z :=
  if k <? 0 then Z.max (len + k) 0 else Z.min k len.

Definition slice {A} (start end_ : Z) (l : list A) : list A :=
  let len := Z.of_nat (length l) in
  let k := clampIndex len start in
  let final := clampIndex len end_ in
  take (Z.to_nat (final - k)) (drop (Z.to_nat k) l).

(** [Array.prototype.sort(compare)]: stable; [a] stays before [b] unless
    [compare a b > 0].  The comparator returns a number; a NaN result is
    read as [+0].  The model is the stable insertion sort, which is the
    order every conforming implementation produces when the comparator is
    a consistent one. *)
Fixpoint insertBy {A} (compare : A -> A -> Z) (x : A) (l : list A) : list A :=
  match l with
  | [] => [x]
  | y :: l' => if compare x y <=? 0 then x :: l else y :: insertBy compare x l'
  end.

Fixpoint sort {A} (compare : A -> A -> Z) (l : list A) : list A :=
  match l with
  | [] => []
  | x :: l' => insertBy compare x (sort compare l')
  end.

End Js.

(** ** Insertion-ordered maps

    [Map<string, V>] and plain objects keyed by strings, iterated in insertion
    order: [set] on a present key keeps the key's position. *)

Module JsMap.

Definition t (V : Type) : Type := list (string * V).

Definition empty {V} : t V := [].

Fixpoint get {V} (k : string) (m : t V) : option V :=
  match m with
  | [] => None
  | (k', v) :: m' => if String.eqb k' k then Some v else get k m'
  end.

Definition has {V} (k : string) (m : t V) : bool :=
  match get k m with Some _ => true | None => false end.

Fixpoint set {V} (k : string) (v : V) (m : t V) : t V :=
  match m with
  | [] => [(k, v)]
  | (k', v') :: m' =>
      if String.eqb k' k then (k, v) :: m' else (k', v') :: set k v m'
  end.

Fixpoint delete {V} (k : string) (m : t V) : t V :=
  match m with
  | [] => []
  | (k', v') :: m' =>
      if String.eqb k' k then delete k m' else (k', v') :: delete k m'
  end.

Definition keys {V} (m : t V) : list string := fst <$> m.
Definition values {V} (m : t V) : list V := snd <$> m.
Definition entries {V} (m : t V) : list (string * V) := m.
Definition size {V} (m : t V) : nat := length m.

End JsMap.

(** ** Data model *)

(** A [Date] is its time value in milliseconds since the epoch; [None] is the
    Invalid Date, whose [getTime()] is NaN. *)
Definition Date : Type := option Z.

(** [message.content]: the code tests [typeof content === 'string']. *)
Inductive Content : Type :=
| Text (s : string)
| Structured.

Module Message.
Record t := mk { role : string; content : Content }.
End Message.

(** interface SessionEntry: one parsed line of a log file. *)
Module SessionEntry.
Record t := mk {
  sessionId : option string;
  type : option string;
  timestamp : option string;
  cwd : option string;
  summary : option string;
  message : option Message.t
}.
End SessionEntry.

(** interface SessionData *)
Module SessionData.
Record t := mk {
  id : string;
  summary : string;
  messageCount : Z;
  lastActivity : Date;
  cwd : string
}.
End SessionData.

(** interface Session.  [created_at] and [updated_at] are ISO-8601 strings
    made by [toISOString]; such a string is represented by the time value it
    denotes, which [new Date(s).getTime()] gives back. *)
Module Session.
Record t := mk {
  id : string;
  title : string;
  created_at : Z;
  updated_at : Z;
  message_count : Z
}.
End Session.

(** interface SessionsResult *)
Module SessionsResult.
Record t := mk {
  sessions : list Session.t;
  hasMore : bool;
  total : Z;
  offset : option Z;
  limit : option Z
}.
End SessionsResult.

(** interface SessionMeta *)
Module SessionMeta.
Record t := mk { total : Z; hasMore : bool }.
End SessionMeta.

(** interface Project *)
Module Project.
Record t := mk {
  name : string;
  displayName : string;
  fullPath : string;
  sessionMeta : SessionMeta.t;
  sessions : list Session.t
}.
End Project.

(** interface ProjectReturn *)
Module ProjectReturn.
Record t := mk {
  name : string;
  path : string;
  fullPath : string;
  displayName : string;
  isManuallyAdded : bool;
  sessions : list Session.t
}.
End ProjectReturn.

(** One value of interface ProjectConfig. *)
Module ConfigEntry.
Record t := mk {
  displayName : option string;
  manuallyAdded : option bool;
  originalPath : option string
}.
Definition empty : t := mk None None None.
End ConfigEntry.

(** interface ProjectConfig: an object keyed by project identifiers, listed
    by [Object.entries] in insertion order (identifiers are not array
    indices, which would be listed first). *)
Definition ProjectConfig : Type := JsMap.t ConfigEntry.t.

(** ** The file system *)

(** A log file: its text, [None] when it cannot be opened for reading; its
    modification time, [None] when [fs.stat] fails on it; whether
    [fs.writeFile] succeeds on it. *)
Record File := mkFile {
  content : option string;
  mtime : option Z;
  writable : bool
}.

(** An entry of [~/.claude/projects]: a regular file, or a directory with
    its listing in [readdir] order ([None] when it cannot be listed). *)
Inductive Node : Type :=
| RegularFile
| Directory (listing : option (list (string * File))).

Record World := mkWorld {
  (** [~/.claude/projects] in [readdir] order; [None] when it cannot be read *)
  projectsDir : option (list (string * Node));
  (** the document in [~/.claude/project-config.json]; [None] when the file
      is missing or does not parse *)
  configFile : option ProjectConfig;
  (** whether [fs.writeFile] succeeds on the configuration file *)
  configWritable : bool;
  (** directories holding a readable [package.json], with its [name] *)
  packageNames : list (string * string);
  (** the paths on which [fs.access] succeeds, other than project folders *)
  existingPaths : list string
}.


(** The entry of [~/.claude/projects] under a name, as the directory lists
    it. *)
Definition lookupProject (w : World) (projectName : string) : option Node :=
  match projectsDir w with
  | Some entries => JsMap.get projectName entries
  | None => None
  end.

(** [fs.readdir(projectDir)] with the files behind the names. *)
Definition readdirFiles (w : World) (projectName : string)
  : Res (list (string * File)) :=
  match lookupProject w projectName with
  | Some (Directory (Some files)) => Ok files
  | Some (Directory None) => Throw (fsError "EACCES" "permission denied, scandir")
  | Some RegularFile => Throw (fsError "ENOTDIR" "not a directory, scandir")
  | None => Throw (fsError "ENOENT" "no such file or directory, scandir")
  end.

(** [fs.readdir(projectDir)] *)
Definition readdir (w : World) (projectName : string) : Res (list string) :=
  files ← readdirFiles w projectName; mret (JsMap.keys files).

Definition lookupFile (w : World) (projectName file : string) : option File :=
  match readdirFiles w projectName with
  | Ok files => JsMap.get file files
  | Throw _ => None
  end.

(** [fs.stat(filePath)], of which the code uses [mtime]. *)
Definition stat (w : World) (projectName file : string) : Res Z :=
  match lookupFile w projectName file with
  | Some f =>
      match mtime f with
      | Some t => Ok t
      | None => Throw (fsError "ENOENT" "no such file or directory, stat")
      end
  | None => Throw (fsError "ENOENT" "no such file or directory, stat")
  end.

(** [fs.readFile(jsonlFile, 'utf8')], and the text behind
    [createReadStream(jsonlFile)]. *)
Definition readFile (w : World) (projectName file : string) : Res string :=
  match lookupFile w projectName file with
  | Some f =>
      match content f with
      | Some text => Ok text
      | None => Throw (fsError "EACCES" "permission denied, open")
      end
  | None => Throw (fsError "ENOENT" "no such file or directory, open")
  end.

Definition setListing (projectName : string) (files : list (string * File))
    (w : World) : World :=
  mkWorld
    (match projectsDir w with
     | Some entries =>
         Some (JsMap.set projectName (Directory (Some files)) entries)
     | None => None
     end)
    (configFile w) (configWritable w) (packageNames w) (existingPaths w).

(** [fs.writeFile(jsonlFile, text)] on a file of the project; [now] is the
    time of the write, which becomes the modification time of the file. *)
Definition writeFile (w : World) (projectName file text : string) (now : Z)
  : Res unit * World :=
  match readdirFiles w projectName with
  | Ok files =>
      match JsMap.get file files with
      | Some f =>
          if writable f then
            (Ok tt,
             setListing projectName
               (JsMap.set file (mkFile (Some text) (Some now) true) files) w)
          else (Throw (fsError "EACCES" "permission denied, open"), w)
      | None => (Throw (fsError "ENOENT" "no such file or directory, open"), w)
      end
  | Throw e => (Throw e, w)
  end.

(** [loadProjectConfig]: the parsed document, or [{}] when reading or parsing
    throws. *)
Definition loadProjectConfig (w : World) : ProjectConfig :=
  match configFile w with
  | Some config => config
  | None => JsMap.empty
  end.

(** [saveProjectConfig] *)
Definition saveProjectConfig (w : World) (config : ProjectConfig)
  : Res unit * World :=
  if configWritable w then
    (Ok tt,
     mkWorld (projectsDir w) (Some config) true (packageNames w)
       (existingPaths w))
  else (Throw (fsError "EACCES" "permission denied, open"), w).

(** [Math.max(...xs)] on a list of counts; the code calls it on two or more
    values (the [-Infinity] of the empty list is not represented). *)
Definition Math_max (xs : list Z) : Z :=
  match xs with
  | [] => 0
  | x :: xs' => fold_left Z.max xs' x
  end.

(** [b.getTime() - a.getTime()] as a sort key: a NaN difference is read as
    [+0] by [Array.prototype.sort]. *)
Definition timeDiff (b a : Date) : Z :=
  match b, a with
  | Some tb, Some ta => tb - ta
  | _, _ => 0
  end.

(** The file-system reads [extractProjectDirectory] performs, in order. *)
Inductive FsOp : Type :=
| OpReaddir (projectName : string)
| OpReadStream (projectName file : string).

(** The variables of the scan loop of [extractProjectDirectory]. *)
Record ScanState := mkScan {
  cwdCounts : JsMap.t Z;
  latestTimestamp : Z;
  latestCwd : option string
}.

Definition initialScan : ScanState := mkScan JsMap.empty 0 None.

Definition emptyResult : SessionsResult.t :=
  SessionsResult.mk [] false 0 None None.

Section Engine.

(** [JSON.parse(line)] read at type [SessionEntry]; [None] when it throws
    (and for [null], on which the field access that follows throws inside
    the same [try]). *)
Variable JSON_parse : string -> option SessionEntry.t.
(** [new Date(text)] *)
Variable Date_parse : string -> Date.
(** [new Date()] read while the given non-blank line (counted from 1) of
    the given file of the given project is processed. *)
Variable Date_now : string -> string -> nat -> Z.
(** [path.resolve(p)] *)
Variable path_resolve : string -> string.
(** The time at which [fs.writeFile] writes the given file of the given
    project. *)
Variable fs_now : string -> string -> Z.

(** *** generateDisplayName *)

(** [JSON.parse(await fs.readFile(path.join(projectPath, 'package.json')))]
    with a truthy [name]. *)
Definition readPackageName (w : World) (projectPath : string) : option string :=
  match JsMap.get projectPath (packageNames w) with
  | Some name => if Js.truthy name then Some name else None
  | None => None
  end.

Definition generateDisplayName (w : World) (projectName : string)
    (actualProjectDir : option string) : string :=
  let projectPath :=
    Js.orElse actualProjectDir (Js.replaceAll "-" "/" projectName) in
  match readPackageName w projectPath with
  | Some name => name
  | None =>
      if Js.startsWith "/" projectPath then
        let parts := List.filter Js.truthy (Js.split "/" projectPath) in
        if (3 <? length parts)%nat then
          ".../" ++ Js.join "/" (Js.slice (-2) (Z.of_nat (length parts)) parts)
        else projectPath
      else projectPath
  end.

(** *** extractProjectDirectory *)

(** [new Date(entry.timestamp || 0).getTime()]; [None] is NaN. *)
Definition entryTime (entry : SessionEntry.t) : option Z :=
  match SessionEntry.timestamp entry with
  | Some ts => if Js.truthy ts then Date_parse ts else Some 0
  | None => Some 0
  end.

(** The body of [for await (const line of rl)]. *)
Definition scanLine (st : ScanState) (line : string) : ScanState :=
  if Js.truthy (Js.trim line) then
    match JSON_parse line with
    | Some entry =>
        match SessionEntry.cwd entry with
        | Some cwd =>
            if Js.truthy cwd then
              let counts :=
                JsMap.set cwd (default 0 (JsMap.get cwd (cwdCounts st)) + 1)
                  (cwdCounts st) in
              match entryTime entry with
              | Some timestamp =>
                  if latestTimestamp st <? timestamp
                  then mkScan counts timestamp (Some cwd)
                  else mkScan counts (latestTimestamp st) (latestCwd st)
              | None => mkScan counts (latestTimestamp st) (latestCwd st)
              end
            else st
        | None => st
        end
    | None => st
    end
  else st.

Definition scanText (st : ScanState) (text : string) : ScanState :=
  fold_left scanLine (Js.readline text) st.

(** [for (const file of jsonlFiles)]: a file that cannot be opened makes
    the loop throw. *)
Fixpoint scanFiles (w : World) (projectName : string) (files : list string)
    (st : ScanState) : Res ScanState * list FsOp :=
  match files with
  | [] => (Ok st, [])
  | file :: rest =>
      match readFile w projectName file with
      | Ok text =>
          let '(r, ops) := scanFiles w projectName rest (scanText st text) in
          (r, OpReadStream projectName file :: ops)
      | Throw e => (Throw e, [OpReadStream projectName file])
      end
  end.

(** [mostRecentCount >= maxCount * 0.25] *)
Definition reasonableUsage (mostRecentCount maxCount : Z) : bool :=
  Qle_bool (inject_Z maxCount * (25 # 100)) (inject_Z mostRecentCount).

(** "Determine the best cwd to use" *)
Definition chooseDirectory (projectName : string) (st : ScanState) : string :=
  let counts := cwdCounts st in
  if (JsMap.size counts =? 0)%nat then Js.replaceAll "-" "/" projectName
  else if (JsMap.size counts =? 1)%nat then
    match JsMap.keys counts with
    | k :: _ => k
    | [] => ""
    end
  else
    let mostRecentCount :=
      default 0 (cwd ← latestCwd st; JsMap.get cwd counts) in
    let maxCount := Math_max (JsMap.values counts) in
    let extractedPath :=
      if reasonableUsage mostRecentCount maxCount then latestCwd st
      else fst <$> List.find (fun e => snd e =? maxCount) (JsMap.entries counts) in
    match extractedPath with
    | Some p => if Js.truthy p then p
                else Js.orElse (latestCwd st) (Js.replaceAll "-" "/" projectName)
    | None => Js.orElse (latestCwd st) (Js.replaceAll "-" "/" projectName)
    end.

(** Returns the path, the cache after the call and the file-system reads
    the call made. *)
Definition extractProjectDirectory (w : World) (cache : gmap string string)
    (projectName : string) : string * gmap string string * list FsOp :=
  match cache !! projectName with
  | Some path => (path, cache, [])
  | None =>
      let fallback := Js.replaceAll "-" "/" projectName in
      let '(body, ops) :=
        match readdir w projectName with
        | Throw e => (Throw e, [OpReaddir projectName])
        | Ok files =>
            let jsonlFiles := List.filter (Js.endsWith ".jsonl") files in
            if (length jsonlFiles =? 0)%nat
            then (Ok fallback, [OpReaddir projectName])
            else
              let '(r, ops) := scanFiles w projectName jsonlFiles initialScan in
              (st ← r; mret (chooseDirectory projectName st),
               OpReaddir projectName :: ops)
        end in
      (* both the [try] block and the [catch] block cache what they return *)
      let extractedPath :=
        match body with
        | Ok path => path
        | Throw _ => fallback
        end in
      (extractedPath, <[projectName := extractedPath]> cache, ops)
  end.

(** [clearProjectDirectoryCache] *)
Definition clearProjectDirectoryCache (cache : gmap string string)
  : gmap string string := ∅.

(** *** parseJsonlSessions *)

(** The record [sessions.set(entry.sessionId, {...})] creates. *)
Definition newSession (now : Z) (entry : SessionEntry.t) (sessionId : string)
  : SessionData.t :=
  SessionData.mk sessionId "New Session" 0 (Some now)
    (Js.orElse (SessionEntry.cwd entry) "").

(** The summary after the [if (entry.type === 'summary' ...) else if ...]. *)
Definition nextSummary (entry : SessionEntry.t) (session : SessionData.t)
  : string :=
  let isSummary :=
    match SessionEntry.type entry with
    | Some ty => String.eqb ty "summary"
    | None => false
    end in
  if isSummary && Js.truthyOpt (SessionEntry.summary entry) then
    Js.orElse (SessionEntry.summary entry) ""
  else
    match SessionEntry.message entry with
    | Some msg =>
        let contentTruthy :=
          match Message.content msg with
          | Text c => Js.truthy c
          | Structured => true
          end in
        if String.eqb (Message.role msg) "user" && contentTruthy
           && String.eqb (SessionData.summary session) "New Session"
        then
          match Message.content msg with
          | Text c =>
              if (0 <? String.length c)%nat
                 && negb (Js.startsWith "<command-name>" c)
              then
                if (50 <? String.length c)%nat
                then String.substring 0 50 c ++ "..."
                else c
              else SessionData.summary session
          | Structured => SessionData.summary session
          end
        else SessionData.summary session
    | None => SessionData.summary session
    end.

(** The mutations of [session] one entry makes. *)
Definition applyEntry (entry : SessionEntry.t) (session : SessionData.t)
  : SessionData.t :=
  SessionData.mk
    (SessionData.id session)
    (nextSummary entry session)
    (SessionData.messageCount session + 1)
    (match SessionEntry.timestamp entry with
     | Some ts =>
         if Js.truthy ts then Date_parse ts
         else SessionData.lastActivity session
     | None => SessionData.lastActivity session
     end)
    (SessionData.cwd session).

(** The body of [for await (const line of rl)]; the state is the [sessions]
    map and [lineCount]. *)
Definition processLine (projectName file : string)
    (st : JsMap.t SessionData.t * nat) (line : string)
  : JsMap.t SessionData.t * nat :=
  let '(sessions, lineCount) := st in
  if Js.truthy (Js.trim line) then
    let lineCount := S lineCount in
    match JSON_parse line with
    | Some entry =>
        match SessionEntry.sessionId entry with
        | Some sessionId =>
            if Js.truthy sessionId then
              let session :=
                match JsMap.get sessionId sessions with
                | Some session => session
                | None =>
                    newSession (Date_now projectName file lineCount) entry
                      sessionId
                end in
              (JsMap.set sessionId (applyEntry entry session) sessions,
               lineCount)
            else (sessions, lineCount)
        | None => (sessions, lineCount)
        end
    | None => (sessions, lineCount)
    end
  else (sessions, lineCount).

(** The [sessions] map when the stream is exhausted; a file that cannot be
    opened leaves it empty (the error is caught and logged). *)
Definition fileSessions (w : World) (projectName file : string)
  : JsMap.t SessionData.t :=
  match readFile w projectName file with
  | Ok text =>
      fst (fold_left (processLine projectName file) (Js.readline text)
             (JsMap.empty, 0%nat))
  | Throw _ => JsMap.empty
  end.

Definition parseJsonlSessions (w : World) (projectName file : string)
  : list SessionData.t :=
  Js.sort
    (fun a b => timeDiff (SessionData.lastActivity b) (SessionData.lastActivity a))
    (JsMap.values (fileSessions w projectName file)).

(** *** getSessions *)

(** [sessions.forEach(session => { if (!allSessions.has(session.id)) ... })] *)
Definition mergeSessions (sessions : list SessionData.t)
    (allSessions : JsMap.t SessionData.t) : JsMap.t SessionData.t :=
  fold_left
    (fun all session =>
       if JsMap.has (SessionData.id session) all then all
       else JsMap.set (SessionData.id session) session all)
    sessions allSessions.

(** [for (const { file } of filesWithStats)] with its early [break]. *)
Fixpoint collectSessions (w : World) (projectName : string) (limit offset : Z)
    (fileCount : Z) (files : list (string * Z))
    (allSessions : JsMap.t SessionData.t) (processedCount : Z)
  : JsMap.t SessionData.t :=
  match files with
  | [] => allSessions
  | (file, _) :: rest =>
      let sessions := parseJsonlSessions w projectName file in
      let allSessions := mergeSessions sessions allSessions in
      let processedCount := processedCount + 1 in
      if ((limit + offset) * 2 <=? Z.of_nat (JsMap.size allSessions))
         && (Z.min 3 fileCount <=? processedCount)
      then allSessions
      else collectSessions w projectName limit offset fileCount rest
             allSessions processedCount
  end.

(** [session.lastActivity.toISOString()] throws a RangeError on the
    Invalid Date. *)
Definition toISOString (d : Date) : Res Z :=
  match d with
  | Some t => Ok t
  | None => Throw (newError "Invalid time value")
  end.

(** The callback of [.map((session): Session => ...)]. *)
Definition toSession (session : SessionData.t) : Res Session.t :=
  created ← toISOString (SessionData.lastActivity session);
  updated ← toISOString (SessionData.lastActivity session);
  mret (Session.mk (SessionData.id session) (SessionData.summary session)
          created updated (SessionData.messageCount session)).

(** [filesWithStats], sorted newest first. *)
Definition sortedFilesWithStats (w : World) (projectName : string)
    (jsonlFiles : list string) : Res (list (string * Z)) :=
  filesWithStats ←
    mapM (fun file => mtime ← stat w projectName file; mret (file, mtime))
      jsonlFiles;
  mret (Js.sort (fun a b => snd b - snd a) filesWithStats).

(** [allSessions] when the loop over the files ends. *)
Definition collectedSessions (w : World) (projectName : string)
    (limit offset : Z) (jsonlFiles : list string)
  : Res (JsMap.t SessionData.t) :=
  filesWithStats ← sortedFilesWithStats w projectName jsonlFiles;
  mret (collectSessions w projectName limit offset
          (Z.of_nat (length filesWithStats)) filesWithStats JsMap.empty 0).

(** [sortedSessions]: [Array.from(allSessions.values()).map(...).sort(...)] *)
Definition sortedSessions (w : World) (projectName : string) (limit offset : Z)
    (jsonlFiles : list string) : Res (list Session.t) :=
  allSessions ← collectedSessions w projectName limit offset jsonlFiles;
  converted ← mapM toSession (JsMap.values allSessions);
  mret (Js.sort (fun a b => Session.updated_at b - Session.updated_at a)
          converted).

Definition getSessions (w : World) (projectName : string) (limit offset : Z)
  : Res SessionsResult.t :=
  try_catch
    (files ← readdir w projectName;
     let jsonlFiles := List.filter (Js.endsWith ".jsonl") files in
     if (length jsonlFiles =? 0)%nat then mret emptyResult
     else
       sortedSessions ← sortedSessions w projectName limit offset jsonlFiles;
       let total := Z.of_nat (length sortedSessions) in
       let paginatedSessions :=
         Js.slice offset (offset + limit) sortedSessions in
       let hasMore := offset + limit <? total in
       mret (SessionsResult.mk paginatedSessions hasMore total
               (Some offset) (Some limit)))
    (fun _ => mret emptyResult).

(** *** getProjects *)

(** The body of [for (const entry of entries)]; the state is [projects],
    [existingProjects] and the directory cache. *)
Definition discoverProject (w : World) (config : ProjectConfig)
    (st : list Project.t * gset string * gmap string string)
    (entry : string * Node)
  : list Project.t * gset string * gmap string string :=
  let '(projects, existingProjects, cache) := st in
  let '(name, node) := entry in
  match node with
  | Directory _ =>
      let existingProjects := {[ name ]} ∪ existingProjects in
      let '(actualProjectDir, cache, _) :=
        extractProjectDirectory w cache name in
      let customName : option string :=
        entry ← JsMap.get name config; ConfigEntry.displayName entry in
      let autoDisplayName :=
        generateDisplayName w name (Some actualProjectDir) in
      let project :=
        match getSessions w name 5 0 with
        | Ok sessionResult =>
            Project.mk name (Js.orElse customName autoDisplayName)
              actualProjectDir
              (SessionMeta.mk (SessionsResult.total sessionResult)
                 (SessionsResult.hasMore sessionResult))
              (SessionsResult.sessions sessionResult)
        | Throw _ =>
            Project.mk name (Js.orElse customName autoDisplayName)
              actualProjectDir (SessionMeta.mk 0 false) []
        end in
      ((projects ++ [project])%list, existingProjects, cache)
  | RegularFile => (projects, existingProjects, cache)
  end.

(** The body of [for (const [projectName, projectConfig] of
    Object.entries(config))]. *)
Definition addConfigured (w : World) (existingProjects : gset string)
    (st : list Project.t * gmap string string)
    (entry : string * ConfigEntry.t)
  : list Project.t * gmap string string :=
  let '(projects, cache) := st in
  let '(projectName, projectConfig) := entry in
  if negb (bool_decide (projectName ∈ existingProjects))
     && default false (ConfigEntry.manuallyAdded projectConfig)
  then
    let '(actualProjectDir, cache) :=
      if Js.truthyOpt (ConfigEntry.originalPath projectConfig)
      then (Js.orElse (ConfigEntry.originalPath projectConfig) "", cache)
      else
        let '(dir, cache, _) := extractProjectDirectory w cache projectName in
        (dir, cache) in
    let project :=
      Project.mk projectName
        (Js.orElse (ConfigEntry.displayName projectConfig)
           (generateDisplayName w projectName (Some actualProjectDir)))
        actualProjectDir (SessionMeta.mk 0 false) [] in
    ((projects ++ [project])%list, cache)
  else (projects, cache).

Definition getProjects (w : World) (cache : gmap string string)
  : list Project.t * gmap string string :=
  let config := loadProjectConfig w in
  let '(projects, existingProjects, cache) :=
    match projectsDir w with
    | Some entries =>
        fold_left (discoverProject w config) entries ([], ∅, cache)
    | None => ([], ∅, cache)
    end in
  fold_left (addConfigured w existingProjects) (JsMap.entries config)
    (projects, cache).

(** *** renameProject *)

Definition renameProject (w : World) (projectName newDisplayName : string)
  : Res bool * World :=
  let config := loadProjectConfig w in
  let config :=
    if negb (Js.truthy newDisplayName)
       || String.eqb (Js.trim newDisplayName) ""
    then JsMap.delete projectName config
    else
      let old := default ConfigEntry.empty (JsMap.get projectName config) in
      JsMap.set projectName
        (ConfigEntry.mk (Some (Js.trim newDisplayName))
           (ConfigEntry.manuallyAdded old) (ConfigEntry.originalPath old))
        config in
  let '(saved, w) := saveProjectConfig w config in
  (_ ← saved; mret true, w).

(** *** deleteSession *)

(** [content.split('\n').filter(line => line.trim())] *)
Definition fileLines (content : string) : list string :=
  List.filter (fun line => Js.truthy (Js.trim line)) (Js.split Js.LF content).

(** The callback of [lines.some]: [data.sessionId === sessionId], and
    [false] when [JSON.parse] throws. *)
Definition lineHasSession (sessionId line : string) : bool :=
  match JSON_parse line with
  | Some data =>
      match SessionEntry.sessionId data with
      | Some s => String.eqb s sessionId
      | None => false
      end
  | None => false
  end.

(** The callback of [lines.filter]: [data.sessionId !== sessionId], and
    [true] when [JSON.parse] throws ("Keep malformed lines"). *)
Definition keepLine (sessionId line : string) : bool :=
  match JSON_parse line with
  | Some data =>
      match SessionEntry.sessionId data with
      | Some s => negb (String.eqb s sessionId)
      | None => true
      end
  | None => true
  end.

(** [filteredLines.join('\n') + (filteredLines.length > 0 ? '\n' : '')] *)
Definition writtenText (filteredLines : list string) : string :=
  Js.join Js.newline filteredLines
  ++ (if (0 <? length filteredLines)%nat then Js.newline else "").

(** [for (const file of jsonlFiles)] and the [throw] after it. *)
Fixpoint deleteFromFiles (w : World) (projectName sessionId : string)
    (jsonlFiles : list string) : Res bool * World :=
  match jsonlFiles with
  | [] =>
      (Throw (newError ("Session " ++ sessionId ++ " not found in any files")),
       w)
  | file :: rest =>
      match readFile w projectName file with
      | Throw e => (Throw e, w)
      | Ok content =>
          let lines := fileLines content in
          let hasSession := existsb (lineHasSession sessionId) lines in
          if hasSession then
            let filteredLines := List.filter (keepLine sessionId) lines in
            let '(written, w) :=
              writeFile w projectName file (writtenText filteredLines)
                (fs_now projectName file) in
            (_ ← written; mret true, w)
          else deleteFromFiles w projectName sessionId rest
      end
  end.

(** The [catch] block logs and rethrows. *)
Definition deleteSession (w : World) (projectName sessionId : string)
  : Res bool * World :=
  match readdir w projectName with
  | Throw e => (Throw e, w)
  | Ok files =>
      let jsonlFiles := List.filter (Js.endsWith ".jsonl") files in
      if (length jsonlFiles =? 0)%nat then
        (Throw (newError "No session files found for this project"), w)
      else deleteFromFiles w projectName sessionId jsonlFiles
  end.

(** *** addProjectManually *)

(** [fs.access(p)] on a path outside [~/.claude/projects]. *)
Definition access (w : World) (p : string) : Res unit :=
  if existsb (String.eqb p) (existingPaths w) then Ok tt
  else Throw (fsError "ENOENT" "no such file or directory, access").

(** [fs.access(projectDir)] *)
Definition accessProjectDir (w : World) (projectName : string) : Res unit :=
  match lookupProject w projectName with
  | Some _ => Ok tt
  | None => Throw (fsError "ENOENT" "no such file or directory, access")
  end.

Definition addProjectManually (w : World) (projectPath : string)
    (displayName : option string) : Res ProjectReturn.t * World :=
  let absolutePath := path_resolve projectPath in
  match
    try_catch (access w absolutePath)
      (fun _ => Throw (newError ("Path does not exist: " ++ absolutePath)))
  with
  | Throw e => (Throw e, w)
  | Ok _ =>
      let projectName := Js.replaceAll "/" "-" absolutePath in
      let config := loadProjectConfig w in
      match
        try_catch
          (_ ← accessProjectDir w projectName;
           Throw (newError ("Project already exists for path: " ++ absolutePath)))
          (fun error =>
             if negb (bool_decide (err_code error = Some "ENOENT"))
             then Throw error else Ok tt)
      with
      | Throw e => (Throw e, w)
      | Ok _ =>
          if JsMap.has projectName config then
            (Throw (newError ("Project already configured for path: "
                              ++ absolutePath)), w)
          else
            let entry :=
              ConfigEntry.mk
                (if Js.truthyOpt displayName then displayName else None)
                (Some true) (Some absolutePath) in
            let config := JsMap.set projectName entry config in
            let '(saved, w') := saveProjectConfig w config in
            (_ ← saved;
             mret (ProjectReturn.mk projectName absolutePath absolutePath
                     (Js.orElse displayName
                        (generateDisplayName w' projectName (Some absolutePath)))
                     true []),
             w')
      end
  end.

(** *** getSessionMessages *)

(** The body of [for await (const line of rl)]: [messages.push(entry)] when
    [entry.sessionId === sessionId]. *)
Definition collectMessage (sessionId : string)
    (messages : list SessionEntry.t) (line : string) : list SessionEntry.t :=
  if Js.truthy (Js.trim line) then
    match JSON_parse line with
    | Some entry =>
        match SessionEntry.sessionId entry with
        | Some s =>
            if String.eqb s sessionId then (messages ++ [entry])%list
            else messages
        | None => messages
        end
    | None => messages
    end
  else messages.

(** [for (const file of jsonlFiles)]: a file that cannot be opened makes the
    loop throw. *)
Fixpoint collectMessages (w : World) (projectName sessionId : string)
    (jsonlFiles : list string) (messages : list SessionEntry.t)
  : Res (list SessionEntry.t) :=
  match jsonlFiles with
  | [] => Ok messages
  | file :: rest =>
      text ← readFile w projectName file;
      collectMessages w projectName sessionId rest
        (fold_left (collectMessage sessionId) (Js.readline text) messages)
  end.

Definition getSessionMessages (w : World) (projectName sessionId : string)
  : Res (list SessionEntry.t) :=
  try_catch
    (files ← readdir w projectName;
     let jsonlFiles := List.filter (Js.endsWith ".jsonl") files in
     if (length jsonlFiles =? 0)%nat then mret []
     else
       messages ← collectMessages w projectName sessionId jsonlFiles [];
       mret (Js.sort (fun a b => timeDiff (entryTime a) (entryTime b)) messages))
    (fun _ => mret []).

(** *** isProjectEmpty and deleteProject *)

Definition isProjectEmpty (w : World) (projectName : string) : bool :=
  match getSessions w projectName 1 0 with
  | Ok sessionsResult => SessionsResult.total sessionsResult =? 0
  | Throw _ => false
  end.

(** [fs.rm(projectDir, { recursive: true, force: true })] for a project
    name that is one path component ([plainName]), where [projectDir] is the
    entry of that name: with [force] a missing entry is not an error, and
    the removal of an entry that is there is taken to succeed.  For a name
    that [path.join] normalizes to another path the call removes what is at
    that path, which this function does not describe. *)
Definition rmProjectDir (w : World) (projectName : string) : World :=
  mkWorld
    (match projectsDir w with
     | Some entries => Some (JsMap.delete projectName entries)
     | None => None
     end)
    (configFile w) (configWritable w) (packageNames w) (existingPaths w).

(** The [catch] block logs and rethrows. *)
Definition deleteProject (w : World) (projectName : string)
  : Res bool * World :=
  if negb (isProjectEmpty w projectName) then
    (Throw (newError "Cannot delete project with existing sessions"), w)
  else
    let w := rmProjectDir w projectName in
    let config := JsMap.delete projectName (loadProjectConfig w) in
    let '(saved, w) := saveProjectConfig w config in
    (_ ← saved; mret true, w).

End Engine.

(** ** Invariants of the loops *)

(** A map of sessions is well keyed when each key occurs once and is the
    [id] of its record. *)
Definition wellKeyed (m : JsMap.t SessionData.t) : Prop :=
  NoDup (JsMap.keys m) /\ forall k s, (k, s) ∈ m -> SessionData.id s = k.

(** What the scan loop maintains: each path is counted once in the map,
    paths are truthy, counts are positive, and [latestCwd] was counted. *)
Definition scanInv (st : ScanState) : Prop :=
  NoDup (JsMap.keys (cwdCounts st))
  /\ (forall k v, (k, v) ∈ cwdCounts st -> Js.truthy k = true /\ 1 <= v)
  /\ (forall c, latestCwd st = Some c -> is_Some (JsMap.get c (cwdCounts st))).

(** ** The decision rule, in the words of the specification

    No distinct path observed: the fallback decoded from the project name.
    Exactly one: that path.  Several: with [maxCount] the highest count and
    [recentCount] the count of [latestCwd], the result is [latestCwd] when
    [recentCount >= 0.25 * maxCount], and otherwise the first path in
    iteration order whose count is [maxCount]. *)
Definition decisionRule (projectName : string) (counts : JsMap.t Z)
    (latestCwd : option string) (path : string) : Prop :=
  let maxCount := Math_max (JsMap.values counts) in
  let recentCount := default 0 (c ← latestCwd; JsMap.get c counts) in
  match JsMap.keys counts with
  | [] => path = Js.replaceAll "-" "/" projectName
  | [only] => path = only
  | _ =>
      (forall k v, (k, v) ∈ counts -> v <= maxCount)
      /\ (exists k, (k, maxCount) ∈ counts)
      /\ ((inject_Z maxCount * (25 # 100) <= inject_Z recentCount)%Q ->
          latestCwd = Some path)
      /\ (~ (inject_Z maxCount * (25 # 100) <= inject_Z recentCount)%Q ->
          exists before after,
            counts = (before ++ (path, maxCount) :: after)%list
            /\ Forall (fun e => e.2 < maxCount) before)
  end.

(** ** The entries of a log file, as the loops see them *)

Section Entries.

Variable JSON_parse : string -> option SessionEntry.t.

(** The entry a line yields: blank lines are skipped and a line on which
    [JSON.parse] throws yields nothing. *)
Definition lineEntry (line : string) : option SessionEntry.t :=
  if Js.truthy (Js.trim line) then JSON_parse line else None.

(** [entry.sessionId] is truthy and is [sessionId]. *)
Definition contributes (sessionId : string) (entry : SessionEntry.t) : bool :=
  match SessionEntry.sessionId entry with
  | Some s => String.eqb s sessionId && Js.truthy s
  | None => false
  end.

(** The entries of a text that bear [sessionId], in file order. *)
Definition contributing (sessionId text : string) : list SessionEntry.t :=
  List.filter (contributes sessionId) (omap lineEntry (Js.readline text)).

(** The truthy [timestamp]s of some entries, in order. *)
Definition stamps (entries : list SessionEntry.t) : list string :=
  omap (fun entry =>
          match SessionEntry.timestamp entry with
          | Some ts => if Js.truthy ts then Some ts else None
          | None => None
          end) entries.

Variable Date_parse : string -> Date.

(** The vote a line casts in [extractProjectDirectory]: the truthy [cwd]
    of its entry, with the time of the entry ([None] is NaN). *)
Definition vote (line : string) : option (string * option Z) :=
  entry ← lineEntry line;
  cwd ← SessionEntry.cwd entry;
  if Js.truthy cwd then Some (cwd, entryTime Date_parse entry) else None.

(** The votes of the log files, in scan order. *)
Definition votes (texts : list string) : list (string * option Z) :=
  omap vote (List.concat (List.map Js.readline texts)).

End Entries.

(** What one vote does to the variables of the scan loop. *)
Definition castVote (st : ScanState) (v : string * option Z) : ScanState :=
  let counts :=
    JsMap.set v.1 (default 0 (JsMap.get v.1 (cwdCounts st)) + 1) (cwdCounts st) in
  match v.2 with
  | Some timestamp =>
      if latestTimestamp st <? timestamp
      then mkScan counts timestamp (Some v.1)
      else mkScan counts (latestTimestamp st) (latestCwd st)
  | None => mkScan counts (latestTimestamp st) (latestCwd st)
  end.

(** The number of votes for a path. *)
Definition occurrences (cwd : string) (vs : list (string * option Z)) : Z :=
  Z.of_nat (length (List.filter (fun v => String.eqb v.1 cwd) vs)).

(** The distinct paths in the order in which they are first met. *)
Definition firstSeenOrder (paths : list string) : list string :=
  fold_left
    (fun seen cwd => if bool_decide (cwd ∈ seen) then seen else (seen ++ [cwd])%list)
    paths [].

(** In the words of the specification: [lastActivity] is the maximum of the
    timestamps of the contributing entries ([None] when there is none, or
    when one of them is not a date). *)
Definition maxTimestamp (Date_parse : string -> Date)
    (entries : list SessionEntry.t) : Date :=
  match stamps entries with
  | [] => None
  | ts :: rest =>
      fold_left
        (fun acc ts' => a ← acc; b ← Date_parse ts'; Some (Z.max a b))
        rest (Date_parse ts)
  end.

(** In the words of the specification: the lines of a file are the pieces
    between line feeds, the piece after a final line feed not counting. *)
Definition textLines (content : string) : list string :=
  match reverse (Js.split Js.LF content) with
  | "" :: pieces => reverse pieces
  | _ => Js.split Js.LF content
  end.

(** In the words of the specification: the returned slice is the window
    [[offset, offset + limit)] of the complete collected session set sorted
    by [lastActivity] descending, and [total] is the size of that set. *)
Definition windowOfCollected (allSessions : JsMap.t SessionData.t)
    (limit offset : Z) (r : SessionsResult.t) : Prop :=
  SessionsResult.total r = Z.of_nat (JsMap.size allSessions)
  /\ exists sorted : list SessionData.t,
       sorted ≡ₚ JsMap.values allSessions
       /\ StronglySorted
            (fun a b =>
               forall ta tb,
                 SessionData.lastActivity a = Some ta ->
                 SessionData.lastActivity b = Some tb -> tb <= ta)
            sorted
       /\ Session.id <$> SessionsResult.sessions r
          = SessionData.id
            <$> take (Z.to_nat limit) (drop (Z.to_nat offset) sorted).

(** ** A concrete platform and concrete log lines

    The platform functions at the inputs the examples below use: the log
    lines are rendered as JSON text, and [JSON_parse] and [Date_parse] are
    the tables of what [JSON.parse] and [new Date] return on them. *)

Module Sample.

Definition dq : string := String "034"%char "".
Definition jsonString (s : string) : string := dq ++ s ++ dq.
Definition jsonField (k v : string) : string :=
  jsonString k ++ ":" ++ jsonString v.
Definition jsonObject (fields : list string) : string :=
  "{" ++ Js.join "," fields ++ "}".

Definition day1 : string := "2024-01-01T00:00:00.000Z".
Definition day2 : string := "2024-01-02T00:00:00.000Z".
Definition day3 : string := "2024-01-03T00:00:00.000Z".

Definition Date_parse (text : string) : Date :=
  if String.eqb text day1 then Some 1704067200000
  else if String.eqb text day2 then Some 1704153600000
  else if String.eqb text day3 then Some 1704240000000
  else None.

(** [{"sessionId":sid,"cwd":cwd,"timestamp":ts}] and its parse. *)
Definition line (sid cwd ts : string) : string :=
  jsonObject
    [jsonField "sessionId" sid; jsonField "cwd" cwd; jsonField "timestamp" ts].

Definition entry (sid cwd ts : string) : SessionEntry.t :=
  SessionEntry.mk (Some sid) None (Some ts) (Some cwd) None None.

Definition known : list (string * string * string) :=
  [ ("s1", "/home/u/a", day1); ("s1", "/home/u/a", day3);
    ("s2", "/home/u/b", day2);
    ("s1", "/home/u/app", day2); ("s1", "/home/u/app", day1);
    ("s1", "/home/u/app-old", day1); ("s2", "/home/u/app", day1) ].

Definition JSON_parse (text : string) : option SessionEntry.t :=
  JsMap.get text
    (map (fun '(sid, cwd, ts) => (line sid cwd ts, entry sid cwd ts)) known).

Definition Date_now (projectName file : string) (lineCount : nat) : Z :=
  1704326400000 + Z.of_nat lineCount.

Definition path_resolve (p : string) : string := p.

(** Files are written on the fifth of January. *)
Definition fs_now (projectName file : string) : Z := 1704412800000.

(** A log file holding the given lines, each ended by a line feed. *)
Definition logText (lines : list string) : string :=
  String.concat "" (map (fun l => l ++ Js.newline) lines).

Definition logFile (lines : list string) (mtime : Z) : File :=
  mkFile (Some (logText lines)) (Some mtime) true.

(** A world with one project folder and nothing else. *)
Definition oneProject (projectName : string) (files : list (string * File))
  : World :=
  mkWorld (Some [(projectName, Directory (Some files))]) None true [] [].

(** Entries voting for two directories, the second with the later date. *)
Definition lineA : string := line "s1" "/home/u/a" day1.
Definition lineB : string := line "s2" "/home/u/b" day2.

(** Counts [{A: 10, B: n}], an entry of [B] being the latest. *)
Definition votesWorld (n : nat) : World :=
  oneProject "my-app"
    [("a.jsonl", logFile (repeat lineA 10 ++ repeat lineB n) 100)].

(** Two files that both hold entries of session [s1]; the directory lists
    the older file first. *)
Definition dedupWorld : World :=
  oneProject "my-app"
    [("old.jsonl",
      logFile [line "s1" "/home/u/app-old" day1; line "s2" "/home/u/app" day1]
        100);
     ("new.jsonl", logFile [line "s1" "/home/u/app" day2] 200)].

(** One session whose entries are in chronological order, and not. *)
Definition orderedText : string :=
  logText [line "s1" "/home/u/app" day1; line "s1" "/home/u/app" day2].
Definition unorderedText : string :=
  logText [line "s1" "/home/u/app" day2; line "s1" "/home/u/app" day1].
Definition orderedWorld : World :=
  oneProject "my-app" [("a.jsonl", mkFile (Some orderedText) (Some 100) true)].
Definition unorderedWorld : World :=
  oneProject "my-app" [("a.jsonl", mkFile (Some unorderedText) (Some 100) true)].

(** A file with a blank line and a line that is not JSON between the
    entries of two sessions, and a second file with an entry of [s1]. *)
Definition mixedText : string :=
  logText [line "s1" "/home/u/app" day1; ""; "not json";
           line "s2" "/home/u/app" day1].
Definition deleteWorld : World :=
  oneProject "my-app"
    [("a.jsonl", mkFile (Some mixedText) (Some 100) true);
     ("b.jsonl", logFile [line "s1" "/home/u/app" day2] 50)].

(** A project added by hand for [/srv/demo], later given a display name;
    it has no folder under [~/.claude/projects]. *)
Definition manualWorld : World :=
  mkWorld (Some [])
    (Some [("-srv-demo",
            ConfigEntry.mk (Some "Demo") (Some true) (Some "/srv/demo"))])
    true [] ["/srv/demo"].

(** [/srv/demo] is gone, while both a project folder and a configuration
    entry exist for it. *)
Definition takenWorld : World :=
  mkWorld (Some [("-srv-demo", Directory (Some []))])
    (Some [("-srv-demo",
            ConfigEntry.mk None (Some true) (Some "/srv/demo"))])
    true [] [].

End Sample.

(** ** The catalog, as getProjects builds it *)

(** The names of the folders of [~/.claude/projects], in [readdir] order. *)
Definition directoryNames (entries : list (string * Node)) : list string :=
  omap (fun e => match e.2 with
                 | Directory _ => Some e.1
                 | RegularFile => None
                 end) entries.

Definition projectFolders (w : World) : list string :=
  match projectsDir w with
  | Some entries => directoryNames entries
  | None => []
  end.

(** The configuration entries flagged [manuallyAdded] whose name is not the
    name of a folder, in the order of the configuration. *)
Definition manualEntries (folders : list string) (config : ProjectConfig)
  : list (string * ConfigEntry.t) :=
  List.filter
    (fun e => negb (bool_decide (e.1 ∈ folders))
              && default false (ConfigEntry.manuallyAdded e.2))
    config.

(** A project is shown under the [displayName] the configuration holds for
    its name, when there is a truthy one, and otherwise under the name
    generated from its [fullPath]. *)
Definition shownAs (w : World) (config : ProjectConfig) (project : Project.t)
  : Prop :=
  Project.displayName project
  = Js.orElse
      (entry ← JsMap.get (Project.name project) config;
       ConfigEntry.displayName entry)
      (generateDisplayName w (Project.name project)
         (Some (Project.fullPath project))).

(** The project [getProjects] makes of a configuration entry: named by the
    key, with the path of a truthy [originalPath], shown under the entry's
    [displayName] or a generated name, and without sessions. *)
Definition madeOf (w : World) (project : Project.t)
    (e : string * ConfigEntry.t) : Prop :=
  Project.name project = e.1
  /\ Project.displayName project
     = Js.orElse (ConfigEntry.displayName e.2)
         (generateDisplayName w e.1 (Some (Project.fullPath project)))
  /\ (Js.truthyOpt (ConfigEntry.originalPath e.2) = true ->
      Some (Project.fullPath project) = ConfigEntry.originalPath e.2)
  /\ Project.sessions project = []
  /\ Project.sessionMeta project = SessionMeta.mk 0 false.

(** The sessions a project carries in the list are the first page of five
    of [getSessions], with its [total] and [hasMore]. *)
Definition previews (JSON_parse : string -> option SessionEntry.t)
    (Date_parse : string -> Date) (Date_now : string -> string -> nat -> Z)
    (w : World) (project : Project.t) : Prop :=
  exists r,
    getSessions JSON_parse Date_parse Date_now w (Project.name project) 5 0
    = Ok r
    /\ Project.sessions project = SessionsResult.sessions r
    /\ Project.sessionMeta project
       = SessionMeta.mk (SessionsResult.total r) (SessionsResult.hasMore r).

(** ** The sessions of a log file, as parseJsonlSessions aggregates them *)

(** The record after the mutations of some entries, in order. *)
Definition aggregate (Date_parse : string -> Date) (session : SessionData.t)
    (entries : list SessionEntry.t) : SessionData.t :=
  fold_left (fun session entry => applyEntry Date_parse entry session)
    entries session.

(** An entry of type [summary] with a truthy [summary] text. *)
Definition summaryMarker (entry : SessionEntry.t) : bool :=
  match SessionEntry.type entry with
  | Some ty => String.eqb ty "summary"
  | None => false
  end
  && Js.truthyOpt (SessionEntry.summary entry).

(** The text a user message offers as a title: its content when that is a
    non-empty string that does not start with [<command-name>]. *)
Definition titleSource (entry : SessionEntry.t) : option string :=
  msg ← SessionEntry.message entry;
  if String.eqb (Message.role msg) "user" then
    match Message.content msg with
    | Text c =>
        if (0 <? String.length c)%nat && negb (Js.startsWith "<command-name>" c)
        then Some c else None
    | Structured => None
    end
  else None.

(** [content.length > 50 ? content.substring(0, 50) + '...' : content] *)
Definition titleOf (c : string) : string :=
  if (50 <? String.length c)%nat then String.substring 0 50 c ++ "..." else c.

(** The titles the user messages of some entries offer, the placeholder
    apart, in order. *)
Definition offeredTitles (entries : list SessionEntry.t) : list string :=
  List.filter (fun title => negb (String.eqb title "New Session"))
    (titleOf <$> omap titleSource entries).

(** ** The entries getSessionMessages collects *)

(** [entry.sessionId === sessionId] *)
Definition bears (sessionId : string) (entry : SessionEntry.t) : bool :=
  match SessionEntry.sessionId entry with
  | Some s => String.eqb s sessionId
  | None => false
  end.

(** The entries of some texts that bear [sessionId], in reading order. *)
Definition bearing (JSON_parse : string -> option SessionEntry.t)
    (sessionId : string) (texts : list string) : list SessionEntry.t :=
  List.filter (bears sessionId)
    (omap (lineEntry JSON_parse) (List.concat (List.map Js.readline texts))).

(** The session ids of the log files of a project, each once. *)
Definition projectSessionIds (JSON_parse : string -> option SessionEntry.t)
    (Date_parse : string -> Date) (Date_now : string -> string -> nat -> Z)
    (w : World) (projectName : string) (jsonlFiles : list string)
  : list string :=
  remove_dups
    (file ← jsonlFiles;
     JsMap.keys (fileSessions JSON_parse Date_parse Date_now w projectName file)).

(** ** Further concrete worlds

    A catalog with folders, a regular file and configuration entries; and
    log files with user messages, a summary entry and an entry whose
    timestamp is not a date. *)

Module Example.

(** Folders [my-app] (one log file) and [-srv-taken] (empty), a regular
    file, and a configuration that names [my-app], registers [/srv/demo] by
    hand and holds a display name for a project that is not listed. *)
Definition listWorld : World :=
  mkWorld
    (Some [("my-app",
            Directory (Some [("a.jsonl", Sample.logFile [Sample.lineA] 100)]));
           ("notes.txt", RegularFile);
           ("-srv-taken", Directory (Some []))])
    (Some [("my-app", ConfigEntry.mk (Some "My App") None None);
           ("-srv-demo", ConfigEntry.mk None (Some true) (Some "/srv/demo"));
           ("-srv-old", ConfigEntry.mk (Some "Old") None None)])
    true [] ["/srv/demo"; "/srv/new"; "/srv/taken"].

(** [{"sessionId":sid,"type":"user","timestamp":ts,
      "message":{"role":"user","content":text}}] and its parse. *)
Definition userLine (sid ts text : string) : string :=
  Sample.jsonObject
    [Sample.jsonField "sessionId" sid; Sample.jsonField "type" "user";
     Sample.jsonField "timestamp" ts;
     Sample.jsonString "message" ++ ":"
     ++ Sample.jsonObject
          [Sample.jsonField "role" "user"; Sample.jsonField "content" text]].

Definition userEntry (sid ts text : string) : SessionEntry.t :=
  SessionEntry.mk (Some sid) (Some "user") (Some ts) None None
    (Some (Message.mk "user" (Text text))).

(** [{"sessionId":sid,"type":"summary","summary":text}] and its parse. *)
Definition summaryLine (sid text : string) : string :=
  Sample.jsonObject
    [Sample.jsonField "sessionId" sid; Sample.jsonField "type" "summary";
     Sample.jsonField "summary" text].

Definition summaryEntry (sid text : string) : SessionEntry.t :=
  SessionEntry.mk (Some sid) (Some "summary") None None (Some text) None.

Definition question : string := "please help me with the login page".
Definition thanks : string := "thanks, that works".
Definition command : string := "<command-name>/clear</command-name>".
Definition longQuestion : string :=
  "could you explain why the session list is empty after an upgrade".

Definition known : list (string * SessionEntry.t) :=
  [ (userLine "c1" Sample.day1 question, userEntry "c1" Sample.day1 question);
    (summaryLine "c1" "Fix the login bug", summaryEntry "c1" "Fix the login bug");
    (userLine "c1" Sample.day2 thanks, userEntry "c1" Sample.day2 thanks);
    (userLine "c2" Sample.day1 command, userEntry "c2" Sample.day1 command);
    (userLine "c2" Sample.day2 longQuestion,
     userEntry "c2" Sample.day2 longQuestion);
    (Sample.line "c3" "/home/u/app" "yesterday",
     Sample.entry "c3" "/home/u/app" "yesterday");
    (Sample.line "s1" "/home/u/app" Sample.day1,
     Sample.entry "s1" "/home/u/app" Sample.day1) ].

Definition JSON_parse (text : string) : option SessionEntry.t :=
  JsMap.get text known.

(** A session with a summary entry between two user messages. *)
Definition titledText : string :=
  Sample.logText
    [userLine "c1" Sample.day1 question; summaryLine "c1" "Fix the login bug";
     userLine "c1" Sample.day2 thanks].
Definition titledWorld : World :=
  Sample.oneProject "chat" [("a.jsonl", mkFile (Some titledText) (Some 100) true)].

(** A session that opens with a command and has no summary entry. *)
Definition untitledText : string :=
  Sample.logText
    [userLine "c2" Sample.day1 command; userLine "c2" Sample.day2 longQuestion].
Definition untitledWorld : World :=
  Sample.oneProject "chat" [("a.jsonl", mkFile (Some untitledText) (Some 100) true)].

(** The newest file holds an entry whose timestamp is not a date; an older
    file holds a session with a valid one. *)
Definition undatedText : string :=
  Sample.logText [Sample.line "c3" "/home/u/app" "yesterday"].
Definition undatedWorld : World :=
  Sample.oneProject "chat"
    [("old.jsonl", Sample.logFile [Sample.line "s1" "/home/u/app" Sample.day1] 100);
     ("new.jsonl", mkFile (Some undatedText) (Some 200) true)].

End Example.

(** * Properties *)

(** ** Insertion-ordered maps *)

Module JsMapFacts.

Lemma get_set_eq {V} (k : string) (v : V) (m : JsMap.t V) :
  JsMap.get k (JsMap.set k v m) = Some v.
Proof.
  induction m as [|[k' v'] m IH]; simpl.
  - by rewrite String.eqb_refl.
  - destruct (String.eqb k' k) eqn:E; simpl.
    + by rewrite String.eqb_refl.
    + by rewrite E.
Qed.

Lemma get_set_ne {V} (k k' : string) (v : V) (m : JsMap.t V) :
  k ≠ k' -> JsMap.get k' (JsMap.set k v m) = JsMap.get k' m.
Proof.
  intros Hne. induction m as [|[k0 v0] m IH]; simpl.
  - destruct (String.eqb k k') eqn:E; [|done].
    apply String.eqb_eq in E. contradiction.
  - destruct (String.eqb k0 k) eqn:E; simpl.
    + apply String.eqb_eq in E. subst k0.
      destruct (String.eqb k k') eqn:E'; [|done].
      apply String.eqb_eq in E'. contradiction.
    + by rewrite IH.
Qed.

Lemma get_set {V} (k k' : string) (v : V) (m : JsMap.t V) :
  JsMap.get k' (JsMap.set k v m)
  = if String.eqb k k' then Some v else JsMap.get k' m.
Proof.
  destruct (String.eqb k k') eqn:E.
  - apply String.eqb_eq in E. subst. apply get_set_eq.
  - apply String.eqb_neq in E. by apply get_set_ne.
Qed.

Lemma get_elem_of {V} (k : string) (v : V) (m : JsMap.t V) :
  JsMap.get k m = Some v -> (k, v) ∈ m.
Proof.
  induction m as [|[k' v'] m IH]; simpl; [done|].
  destruct (String.eqb k' k) eqn:E.
  - apply String.eqb_eq in E. intros [= ->]. subst. by left.
  - intros H. right. auto.
Qed.

Lemma get_None_keys {V} (k : string) (m : JsMap.t V) :
  JsMap.get k m = None <-> k ∉ JsMap.keys m.
Proof.
  unfold JsMap.keys.
  induction m as [|[k' v'] m IH]; simpl.
  - split; [|done]. intros _ H. by apply elem_of_nil in H.
  - rewrite not_elem_of_cons.
    destruct (String.eqb k' k) eqn:E.
    + apply String.eqb_eq in E. split; [done|]. intros [H _]. by destruct H.
    + apply String.eqb_neq in E. rewrite IH.
      split; [intros ?; split; [by intros ->|done]|by intros [_ ?]].
Qed.

Lemma elem_of_get {V} (k : string) (v : V) (m : JsMap.t V) :
  NoDup (JsMap.keys m) -> (k, v) ∈ m -> JsMap.get k m = Some v.
Proof.
  unfold JsMap.keys.
  induction m as [|[k' v'] m IH]; simpl.
  - intros _ H. by apply elem_of_nil in H.
  - rewrite NoDup_cons, elem_of_cons.
    intros [Hk Hnd] [Heq|Hin].
    + injection Heq as -> ->. by rewrite String.eqb_refl.
    + destruct (String.eqb k' k) eqn:E; [|by auto].
      apply String.eqb_eq in E. subst k'. destruct Hk.
      by apply (list_elem_of_fmap_2 fst) in Hin.
Qed.

Lemma keys_set_present {V} (k : string) (v : V) (m : JsMap.t V) :
  k ∈ JsMap.keys m -> JsMap.keys (JsMap.set k v m) = JsMap.keys m.
Proof.
  unfold JsMap.keys.
  induction m as [|[k' v'] m IH]; simpl.
  - intros H. by apply elem_of_nil in H.
  - rewrite elem_of_cons.
    destruct (String.eqb k' k) eqn:E; simpl.
    + apply String.eqb_eq in E. by subst.
    + apply String.eqb_neq in E. intros [?|Hin]; [done|].
      f_equal. by apply IH.
Qed.

Lemma keys_set_absent {V} (k : string) (v : V) (m : JsMap.t V) :
  k ∉ JsMap.keys m ->
  JsMap.keys (JsMap.set k v m) = (JsMap.keys m ++ [k])%list.
Proof.
  unfold JsMap.keys.
  induction m as [|[k' v'] m IH]; simpl; [done|].
  rewrite not_elem_of_cons.
  intros [Hne Hnin]. destruct (String.eqb k' k) eqn:E; simpl.
  - apply String.eqb_eq in E. by subst.
  - f_equal. by apply IH.
Qed.

Lemma NoDup_keys_set {V} (k : string) (v : V) (m : JsMap.t V) :
  NoDup (JsMap.keys m) -> NoDup (JsMap.keys (JsMap.set k v m)).
Proof.
  intros Hnd. destruct (decide (k ∈ JsMap.keys m)) as [Hin|Hnin].
  - by rewrite keys_set_present.
  - rewrite keys_set_absent by done.
    apply NoDup_app. split_and!; [done| |apply NoDup_singleton].
    intros x Hx Hx'. apply list_elem_of_singleton in Hx'. by subst.
Qed.

(** Every entry of [set k v m] is [(k, v)] or an entry [m] already held. *)
Lemma elem_of_set {V} (k k' : string) (v v' : V) (m : JsMap.t V) :
  (k', v') ∈ JsMap.set k v m -> (k' = k /\ v' = v) \/ (k', v') ∈ m.
Proof.
  induction m as [|[k0 v0] m IH]; simpl.
  - intros H. apply list_elem_of_singleton in H. left. by injection H.
  - destruct (String.eqb k0 k) eqn:E; simpl; rewrite !elem_of_cons.
    + intros [[= -> ->]|H]; [by left|]. right. by right.
    + intros [H|H]; [right; by left|]. destruct (IH H); [by left|].
      right. by right.
Qed.

End JsMapFacts.

(** ** Arrays: slice and sort *)

Module JsFacts.

(** With non-negative bounds [slice] is [take] after [drop]. *)
Lemma slice_window {A} (offset limit : Z) (l : list A) :
  0 <= offset -> 0 <= limit ->
  Js.slice offset (offset + limit) l
  = take (Z.to_nat limit) (drop (Z.to_nat offset) l).
Proof.
  intros Ho Hl. unfold Js.slice, Js.clampIndex.
  destruct (Z.ltb_spec offset 0); [lia|].
  destruct (Z.ltb_spec (offset + limit) 0); [lia|].
  destruct (Z_lt_le_dec offset (Z.of_nat (length l))) as [Hin|Hout].
  - rewrite (Z.min_l offset) by lia.
    destruct (Z_le_gt_dec (offset + limit) (Z.of_nat (length l))).
    + rewrite Z.min_l by lia. f_equal. lia.
    + rewrite Z.min_r by lia.
      rewrite !take_ge; [done| |]; rewrite length_drop; lia.
  - rewrite !drop_ge by lia. by rewrite !take_nil.
Qed.

Lemma insertBy_Permutation {A} (compare : A -> A -> Z) (x : A) (l : list A) :
  Js.insertBy compare x l ≡ₚ x :: l.
Proof.
  induction l as [|y l IH]; simpl; [done|].
  destruct (compare x y <=? 0); [done|].
  rewrite IH. apply perm_swap.
Qed.

Lemma sort_Permutation {A} (compare : A -> A -> Z) (l : list A) :
  Js.sort compare l ≡ₚ l.
Proof.
  induction l as [|x l IH]; simpl; [done|].
  by rewrite insertBy_Permutation, IH.
Qed.

Section Ordered.
Context {A : Type} (compare : A -> A -> Z).
(** A consistent comparator: its order is total and transitive. *)
Hypothesis total : forall a b, compare a b <= 0 \/ compare b a <= 0.
Hypothesis trans :
  forall a b c, compare a b <= 0 -> compare b c <= 0 -> compare a c <= 0.

Lemma insertBy_sorted (x : A) (l : list A) :
  StronglySorted (fun a b => compare a b <= 0) l ->
  StronglySorted (fun a b => compare a b <= 0) (Js.insertBy compare x l).
Proof.
  induction 1 as [|y l Hs IH Hy]; simpl.
  - repeat constructor.
  - destruct (Z.leb_spec (compare x y) 0) as [Hle|Hgt].
    + constructor; [by constructor|].
      constructor; [done|].
      eapply Forall_impl; [exact Hy|]. intros z Hz. by eapply trans.
    + constructor; [done|].
      rewrite insertBy_Permutation. constructor; [|done].
      destruct (total x y); [lia|done].
Qed.

Lemma sort_sorted (l : list A) :
  StronglySorted (fun a b => compare a b <= 0) (Js.sort compare l).
Proof.
  induction l as [|x l IH]; simpl; [constructor|].
  by apply insertBy_sorted.
Qed.
End Ordered.

Lemma StronglySorted_weaken {A} (R S : A -> A -> Prop) (l : list A) :
  (forall a b, R a b -> S a b) -> StronglySorted R l -> StronglySorted S l.
Proof.
  intros HRS. induction 1 as [|x l Hs IH Hx]; constructor; [done|].
  eapply Forall_impl; [exact Hx|]. intros y. apply HRS.
Qed.

(** Sorting by [key b - key a] puts the larger keys first. *)
Lemma sort_descending {A} (key : A -> Z) (l : list A) :
  StronglySorted (fun a b => key b <= key a)
    (Js.sort (fun a b => key b - key a) l).
Proof.
  apply (StronglySorted_weaken (fun a b => key b - key a <= 0));
    [intros a b; lia|].
  apply sort_sorted; intros; lia.
Qed.

End JsFacts.

(** ** The identifier encoding (addProjectManually, extractProjectDirectory) *)

Lemma replaceAll_decode_encode (path : string) :
  Js.replaceAll "-" "/" (Js.replaceAll "/" "-" path) = path
  <-> Js.includes "-" path = false.
Proof.
  induction path as [|c path IH]; simpl; [done|].
  destruct (Ascii.eqb c "/") eqn:Eslash.
  - apply Ascii.eqb_eq in Eslash. subst c. simpl.
    rewrite <- IH. split; [by intros [= ->]|by intros ->].
  - destruct (Ascii.eqb c "-") eqn:Ehyphen; simpl.
    + apply Ascii.eqb_eq in Ehyphen. subst c. split; [|done].
      intros H. by injection H.
    + rewrite <- IH. split; [by intros [= ->]|by intros ->].
Qed.

(** The fallback of a project whose folder cannot be read is the decoded
    name, whatever the platform. *)
Lemma extractProjectDirectory_fallback JSON_parse Date_parse w cache name e :
  cache !! name = None ->
  readdir w name = Throw e ->
  (extractProjectDirectory JSON_parse Date_parse w cache name).1.1
  = Js.replaceAll "-" "/" name.
Proof.
  intros Hcache Hdir. unfold extractProjectDirectory.
  by rewrite Hcache, Hdir.
Qed.

(** C10. The identifier [addProjectManually] derives from a path is decoded
    back to that path by the fallback of [extractProjectDirectory] and
    [generateDisplayName] exactly when the path holds no hyphen; for the path
    [/srv/my-app] the project is added under [-srv-my-app] and the fallback
    resolution of that identifier is [/srv/my/app]. *)
Theorem identifier_encoding_not_invertible :
  (forall path : string,
      Js.replaceAll "-" "/" (Js.replaceAll "/" "-" path) = path
      <-> Js.includes "-" path = false)
  /\ (let path := "/srv/my-app" in
      let w := mkWorld (Some []) None true [] [path] in
      Js.includes "-" path = true
      /\ exists r w',
          addProjectManually Sample.path_resolve w path None = (Ok r, w')
          /\ ProjectReturn.name r = "-srv-my-app"
          /\ (extractProjectDirectory Sample.JSON_parse Sample.Date_parse w' ∅
                (ProjectReturn.name r)).1.1 = "/srv/my/app"
          /\ generateDisplayName w' (ProjectReturn.name r) None = "/srv/my/app").
Proof.
  split; [apply replaceAll_decode_encode|].
  cbv zeta. split; [reflexivity|].
  eexists _, _. split; [reflexivity|]. split; [reflexivity|].
  split; reflexivity.
Qed.

(** ** The directory cache (extractProjectDirectory) *)

(** A call that misses the cache stores the path it returns. *)
Lemma extractProjectDirectory_uncached JSON_parse Date_parse w cache name :
  cache !! name = None ->
  exists path ops,
    extractProjectDirectory JSON_parse Date_parse w cache name
    = (path, <[name := path]> cache, ops).
Proof.
  intros Hcache. unfold extractProjectDirectory. rewrite Hcache.
  match goal with
  | |- context [let '(body, ops) := ?scan in _] => destruct scan as [body ops]
  end.
  by eexists _, _.
Qed.

(** C7. Whatever a first call of [extractProjectDirectory] did (cache hit,
    scan, or the memoized fallback of the [catch] block), a second call for
    the same name on the cache it left returns the same path, leaves the
    cache as it is and reads nothing from the file system, also when the
    log files have changed in between; only [clearProjectDirectoryCache]
    forgets the entry. *)
Theorem extractProjectDirectory_memoized JSON_parse Date_parse
    (w w' : World) (cache : gmap string string) (projectName : string) :
  let '(path, cache1, _) :=
    extractProjectDirectory JSON_parse Date_parse w cache projectName in
  extractProjectDirectory JSON_parse Date_parse w' cache1 projectName
  = (path, cache1, [])
  /\ cache1 !! projectName = Some path
  /\ clearProjectDirectoryCache cache1 !! projectName = None.
Proof.
  destruct (cache !! projectName) as [path|] eqn:Hcache.
  - unfold extractProjectDirectory. rewrite Hcache. cbv beta iota.
    by rewrite Hcache.
  - destruct (extractProjectDirectory_uncached JSON_parse Date_parse w cache
                projectName Hcache) as (path & ops & ->).
    unfold extractProjectDirectory. by rewrite lookup_insert_eq.
Qed.

(** ** getSessions never throws *)

(** C8. [getSessions] always resolves; when the project folder cannot be
    listed (unreadable, absent, or not a directory) it resolves to the empty
    result with [total = 0] and [hasMore = false]. *)
Theorem getSessions_never_throws JSON_parse Date_parse Date_now
    (w : World) (projectName : string) (limit offset : Z) :
  (exists r, getSessions JSON_parse Date_parse Date_now w projectName limit offset
             = Ok r)
  /\ (forall e, readdir w projectName = Throw e ->
        getSessions JSON_parse Date_parse Date_now w projectName limit offset
        = Ok (SessionsResult.mk [] false 0 None None)).
Proof.
  unfold getSessions. split.
  - destruct (readdir w projectName) as [files|e]; simpl; [|by eexists].
    destruct (_ =? _)%nat; simpl; [by eexists|].
    destruct (sortedSessions _ _ _ _ _ _ _ _); simpl; by eexists.
  - intros e ->. done.
Qed.

(** ** addProjectManually checks the path first *)

(** C9. When [fs.access] fails on the resolved path, [addProjectManually]
    throws "Path does not exist" and leaves the world, hence the persisted
    configuration, as it was, whatever the project folders and the
    configuration hold. *)
Theorem addProjectManually_missing_path path_resolve
    (w : World) (projectPath : string) (displayName : option string) :
  existsb (String.eqb (path_resolve projectPath)) (existingPaths w) = false ->
  addProjectManually path_resolve w projectPath displayName
  = (Throw (newError ("Path does not exist: " ++ path_resolve projectPath)), w).
Proof.
  intros Hmissing. unfold addProjectManually, access.
  by rewrite Hmissing.
Qed.

(** ** Pagination (getSessions) *)

Lemma mapM_Forall2 {A B} (f : A -> Res B) (xs : list A) (ys : list B) :
  mapM f xs = Ok ys -> Forall2 (fun x y => f x = Ok y) xs ys.
Proof.
  revert ys. induction xs as [|x xs IH]; simpl; intros ys.
  - intros [= <-]. constructor.
  - destruct (f x) as [y|] eqn:Hx; simpl; [|done].
    destruct (mapM f xs) as [ys'|]; simpl; [|done].
    intros [= <-]. constructor; auto.
Qed.

Lemma mapM_length {A B} (f : A -> Res B) (xs : list A) (ys : list B) :
  mapM f xs = Ok ys -> length ys = length xs.
Proof. intros H. symmetry. eapply Forall2_length, mapM_Forall2, H. Qed.

Lemma window_length {A} (offset limit : Z) (l : list A) :
  0 <= limit -> 0 <= offset ->
  Z.of_nat (length (take (Z.to_nat limit) (drop (Z.to_nat offset) l)))
  = if Z.of_nat (length l) <=? offset then 0
    else Z.min limit (Z.of_nat (length l) - offset).
Proof.
  intros Hl Ho. rewrite length_take, length_drop.
  destruct (Z.leb_spec (Z.of_nat (length l)) offset); lia.
Qed.

Lemma toSession_valid (s : SessionData.t) :
  match SessionData.lastActivity s with
  | Some _ => exists x, toSession s = Ok x
  | None => exists e, toSession s = Throw e
  end.
Proof.
  unfold toSession. destruct (SessionData.lastActivity s); simpl; by eexists.
Qed.

(** The conversion of the collected sessions succeeds exactly when each of
    them has a valid date. *)
Lemma mapM_toSession_valid (sessions : list SessionData.t) :
  (Forall (fun s => is_Some (SessionData.lastActivity s)) sessions ->
   exists converted, mapM toSession sessions = Ok converted)
  /\ (forall converted,
        mapM toSession sessions = Ok converted ->
        Forall (fun s => is_Some (SessionData.lastActivity s)) sessions).
Proof.
  induction sessions as [|s sessions [IHok IHvalid]]; cbn [mapM].
  - split; [by eexists|constructor].
  - pose proof (toSession_valid s) as Hs. split.
    + intros [[t Ht] Hall]%Forall_cons. rewrite Ht in Hs.
      destruct Hs as [x ->]. destruct (IHok Hall) as [converted ->].
      by eexists.
    + intros converted Hconv.
      destruct (SessionData.lastActivity s) as [t|] eqn:Ht;
        destruct Hs as [y Hy]; rewrite Hy in Hconv; simpl in Hconv; [|done].
      destruct (mapM toSession sessions) as [rest|]; simpl in Hconv; [|done].
      constructor; [by rewrite Ht|by eapply IHvalid].
Qed.

(** C3, as the code has it. For non-negative [limit] and [offset],
    [getSessions] returns a page of [min(limit, total - offset)] sessions
    (none when [offset >= total]) with [hasMore = (offset + limit < total)].
    When the folder is listed and its log files are collected into
    [allSessions], and every collected session has a valid date, the page
    is the window [[offset, offset + limit)] of the converted sessions
    sorted by [updated_at] (their [lastActivity]) descending, and [total] is
    the size of [allSessions]; when one collected session has no valid
    date, and when the folder cannot be listed or a file cannot be
    stat'ed, the result is the empty result with [total] 0. *)
Theorem getSessions_pagination JSON_parse Date_parse Date_now
    (w : World) (projectName : string) (limit offset : Z) :
  0 <= limit -> 0 <= offset ->
  exists r,
    getSessions JSON_parse Date_parse Date_now w projectName limit offset = Ok r
    /\ Z.of_nat (length (SessionsResult.sessions r))
       = (if SessionsResult.total r <=? offset then 0
          else Z.min limit (SessionsResult.total r - offset))
    /\ SessionsResult.hasMore r = (offset + limit <? SessionsResult.total r)
    /\ (forall files allSessions,
          readdir w projectName = Ok files ->
          collectedSessions JSON_parse Date_parse Date_now w projectName
            limit offset (List.filter (Js.endsWith ".jsonl") files)
          = Ok allSessions ->
          (Forall (fun s => is_Some (SessionData.lastActivity s))
             (JsMap.values allSessions) ->
           exists converted sorted,
             Forall2 (fun s x => toSession s = Ok x)
               (JsMap.values allSessions) converted
             /\ sorted ≡ₚ converted
             /\ StronglySorted
                  (fun a b => Session.updated_at b <= Session.updated_at a)
                  sorted
             /\ SessionsResult.total r = Z.of_nat (JsMap.size allSessions)
             /\ SessionsResult.sessions r
                = take (Z.to_nat limit) (drop (Z.to_nat offset) sorted))
          /\ (~ Forall (fun s => is_Some (SessionData.lastActivity s))
                 (JsMap.values allSessions) ->
              r = emptyResult))
    /\ (forall files e,
          readdir w projectName = Ok files ->
          collectedSessions JSON_parse Date_parse Date_now w projectName
            limit offset (List.filter (Js.endsWith ".jsonl") files)
          = Throw e ->
          r = emptyResult)
    /\ (forall e, readdir w projectName = Throw e -> r = emptyResult).
Proof.
  intros Hl Ho. unfold getSessions.
  assert (Hempty :
    Z.of_nat (length (SessionsResult.sessions emptyResult))
    = (if SessionsResult.total emptyResult <=? offset then 0
       else Z.min limit (SessionsResult.total emptyResult - offset))
    /\ SessionsResult.hasMore emptyResult
       = (offset + limit <? SessionsResult.total emptyResult)).
  { simpl. destruct (Z.leb_spec 0 offset); [|lia].
    destruct (Z.ltb_spec (offset + limit) 0); [lia|done]. }
  destruct Hempty as [Hlen Hmore].
  destruct (readdir w projectName) as [files|e] eqn:Hdir; simpl.
  2:{ exists emptyResult. split_and!; [done..| | |done].
      - intros ?? [=].
      - intros ?? [=]. }
  destruct (length _ =? 0)%nat eqn:Hnone; simpl.
  { exists emptyResult. split_and!; [done..| |done|intros ? [=]].
    intros files' allSessions [= <-].
    apply Nat.eqb_eq, nil_length_inv in Hnone. rewrite Hnone.
    intros [= <-]. split; [|done]. intros _.
    exists [], []. simpl.
    split_and!; [constructor|done|constructor|done|].
    by rewrite drop_nil, take_nil. }
  unfold sortedSessions.
  destruct (collectedSessions _ _ _ _ _ _ _ _) as [allSessions|e] eqn:Hcoll;
    simpl.
  2:{ exists emptyResult. split_and!; [done..| |done|intros ? [=]].
      intros ?? [= <-]. by rewrite Hcoll. }
  destruct (mapM toSession _) as [converted|e] eqn:Hconv; simpl.
  2:{ exists emptyResult. split_and!; [done..| | |intros ? [=]].
      - intros ?? [= <-]. rewrite Hcoll. intros [= <-]. split; [|done].
        intros Hvalid.
        destruct (proj1 (mapM_toSession_valid _) Hvalid) as [converted Hok].
        congruence.
      - intros ?? [= <-]. by rewrite Hcoll. }
  eexists. split; [done|]. simpl.
  rewrite JsFacts.slice_window by done.
  split; [by apply window_length|]. split; [done|].
  split; [|split; [|intros ? [=]]].
  - intros files' allSessions' [= <-]. rewrite Hcoll. intros [= <-]. split.
    + intros _. exists converted. eexists.
      split; [by apply mapM_Forall2|].
      split; [apply JsFacts.sort_Permutation|].
      split; [apply (JsFacts.sort_descending Session.updated_at)|].
      split; [|done].
      rewrite (Permutation_length (JsFacts.sort_Permutation _ _)).
      rewrite (mapM_length _ _ _ Hconv). unfold JsMap.size, JsMap.values.
      by rewrite length_fmap.
    + intros Hinvalid. destruct Hinvalid.
      by apply (proj2 (mapM_toSession_valid _) converted).
  - intros ?? [= <-]. by rewrite Hcoll.
Qed.

(** ** Deduplication across files (getSessions) *)

Lemma wellKeyed_empty : wellKeyed JsMap.empty.
Proof.
  split; [constructor|]. intros k s H. by apply elem_of_nil in H.
Qed.

Lemma wellKeyed_set (m : JsMap.t SessionData.t) (s : SessionData.t) :
  wellKeyed m -> wellKeyed (JsMap.set (SessionData.id s) s m).
Proof.
  intros [Hnd Hid]. split; [by apply JsMapFacts.NoDup_keys_set|].
  intros k s' Hin. apply JsMapFacts.elem_of_set in Hin as [[-> ->]|Hin]; auto.
Qed.

Lemma wellKeyed_get (m : JsMap.t SessionData.t) (k : string) (s : SessionData.t) :
  wellKeyed m -> JsMap.get k m = Some s -> SessionData.id s = k.
Proof. intros [_ Hid] Hget. by apply Hid, JsMapFacts.get_elem_of. Qed.

Lemma wellKeyed_value (m : JsMap.t SessionData.t) (s : SessionData.t) :
  wellKeyed m -> s ∈ JsMap.values m <-> JsMap.get (SessionData.id s) m = Some s.
Proof.
  intros Hwk. split.
  - intros Hin. apply list_elem_of_fmap in Hin as ([k s'] & -> & Hin).
    simpl. destruct Hwk as [Hnd Hid]. rewrite (Hid _ _ Hin).
    by apply JsMapFacts.elem_of_get.
  - intros Hget. apply JsMapFacts.get_elem_of in Hget.
    by apply (list_elem_of_fmap_2 snd) in Hget.
Qed.

Section Dedup.

Variable JSON_parse : string -> option SessionEntry.t.
Variable Date_parse : string -> Date.
Variable Date_now : string -> string -> nat -> Z.

Local Abbreviation fileSessions' :=
  (fileSessions JSON_parse Date_parse Date_now).
Local Abbreviation parseJsonlSessions' :=
  (parseJsonlSessions JSON_parse Date_parse Date_now).
Local Abbreviation collectSessions' :=
  (collectSessions JSON_parse Date_parse Date_now).

Lemma processLine_wellKeyed projectName file st line :
  wellKeyed st.1 ->
  wellKeyed (processLine JSON_parse Date_parse Date_now projectName file st line).1.
Proof.
  destruct st as [sessions lineCount]. simpl. intros Hwk.
  destruct (Js.truthy (Js.trim line)); [|done].
  destruct (JSON_parse line) as [entry|]; [|done].
  destruct (SessionEntry.sessionId entry) as [sessionId|]; [|done].
  destruct (Js.truthy sessionId); [|done]. simpl.
  destruct (JsMap.get sessionId sessions) as [session|] eqn:Hget.
  - rewrite <- (wellKeyed_get _ _ _ Hwk Hget) at 1.
    by apply (wellKeyed_set _ (applyEntry Date_parse entry session)).
  - by apply (wellKeyed_set _
                (applyEntry Date_parse entry (newSession _ entry sessionId))).
Qed.

Lemma processLines_wellKeyed projectName file lines st :
  wellKeyed st.1 ->
  wellKeyed
    (fold_left (processLine JSON_parse Date_parse Date_now projectName file)
       lines st).1.
Proof.
  revert st. induction lines as [|line lines IH]; simpl; [done|].
  intros st Hwk. by apply IH, processLine_wellKeyed.
Qed.

Lemma fileSessions_wellKeyed w projectName file :
  wellKeyed (fileSessions' w projectName file).
Proof.
  unfold fileSessions.
  destruct (readFile w projectName file); [|apply wellKeyed_empty].
  apply processLines_wellKeyed, wellKeyed_empty.
Qed.

(** What [parseJsonlSessions] returns is what the file's map holds. *)
Lemma parseJsonlSessions_elem w projectName file s :
  s ∈ parseJsonlSessions' w projectName file
  <-> JsMap.get (SessionData.id s) (fileSessions' w projectName file) = Some s.
Proof.
  unfold parseJsonlSessions.
  rewrite JsFacts.sort_Permutation.
  apply wellKeyed_value, fileSessions_wellKeyed.
Qed.

Lemma mergeSessions_wellKeyed sessions all :
  wellKeyed all -> wellKeyed (mergeSessions sessions all).
Proof.
  revert all. induction sessions as [|s sessions IH]; simpl; [done|].
  intros all Hwk. apply IH. destruct (JsMap.has _ all); [done|].
  by apply wellKeyed_set.
Qed.

Lemma mergeSessions_keeps sessions all i s :
  JsMap.get i all = Some s -> JsMap.get i (mergeSessions sessions all) = Some s.
Proof.
  revert all. induction sessions as [|s' sessions IH]; simpl; [done|].
  intros all Hget. apply IH. unfold JsMap.has.
  destruct (JsMap.get (SessionData.id s') all) eqn:Hs'; [done|].
  rewrite JsMapFacts.get_set_ne; [done|]. intros Heq. congruence.
Qed.

Lemma mergeSessions_has (sessions : list SessionData.t)
    (all : JsMap.t SessionData.t) (s : SessionData.t) :
  s ∈ sessions -> is_Some (JsMap.get (SessionData.id s) (mergeSessions sessions all)).
Proof.
  revert all. induction sessions as [|s' sessions IH]; intros all Hin.
  - by apply elem_of_nil in Hin.
  - simpl. apply elem_of_cons in Hin as [->|Hin]; [|by apply IH].
    unfold JsMap.has.
    destruct (JsMap.get (SessionData.id s') all) as [old|] eqn:Hold.
    + exists old. by apply mergeSessions_keeps.
    + exists s'. apply mergeSessions_keeps, JsMapFacts.get_set_eq.
Qed.

(** A record of the merged map was there before, or it is the first record
    of the merged list with its id. *)
Lemma mergeSessions_origin sessions all i s :
  JsMap.get i (mergeSessions sessions all) = Some s ->
  JsMap.get i all = Some s
  \/ (JsMap.get i all = None /\ s ∈ sessions /\ SessionData.id s = i).
Proof.
  revert all. induction sessions as [|s' sessions IH]; simpl; [by left|].
  intros all Hget. apply IH in Hget as [Hget|(Hnone & Hin & Hid)].
  - unfold JsMap.has in Hget.
    destruct (JsMap.get (SessionData.id s') all) eqn:Hs'; [by left|].
    rewrite JsMapFacts.get_set in Hget.
    destruct (String.eqb_spec (SessionData.id s') i) as [<-|Hne];
      [|by left].
    injection Hget as <-. right. split_and!; [done|by left|done].
  - unfold JsMap.has in Hnone.
    destruct (JsMap.get (SessionData.id s') all) eqn:Hs'.
    + right. split_and!; [done|by right|done].
    + rewrite JsMapFacts.get_set in Hnone.
      destruct (String.eqb_spec (SessionData.id s') i); [done|].
      right. split_and!; [done|by right|done].
Qed.

Lemma mergeSessions_absent sessions all i :
  JsMap.get i (mergeSessions sessions all) = None ->
  JsMap.get i all = None /\ forall s, s ∈ sessions -> SessionData.id s <> i.
Proof.
  revert all. induction sessions as [|s' sessions IH]; simpl.
  - intros all Hnone. split; [done|]. intros s H. by apply elem_of_nil in H.
  - intros all Hnone. apply IH in Hnone as [Hnone Hrest].
    unfold JsMap.has in Hnone.
    destruct (JsMap.get (SessionData.id s') all) eqn:Hs'.
    + split; [done|]. intros s [->|Hin]%elem_of_cons; [congruence|auto].
    + rewrite JsMapFacts.get_set in Hnone.
      destruct (String.eqb_spec (SessionData.id s') i); [done|].
      split; [done|]. intros s [->|Hin]%elem_of_cons; auto.
Qed.

Lemma collectSessions_wellKeyed w projectName limit offset n files all count :
  wellKeyed all ->
  wellKeyed (collectSessions' w projectName limit offset n files all count).
Proof.
  revert all count. induction files as [|[file mtime] files IH]; simpl;
    [done|].
  intros all count Hwk.
  destruct (_ && _); [|apply IH]; by apply mergeSessions_wellKeyed.
Qed.

Lemma collectSessions_keeps w projectName limit offset n files all count i s :
  JsMap.get i all = Some s ->
  JsMap.get i (collectSessions' w projectName limit offset n files all count)
  = Some s.
Proof.
  revert all count. induction files as [|[file mtime] files IH]; simpl;
    [done|].
  intros all count Hget.
  destruct (_ && _); [|apply IH]; by apply mergeSessions_keeps.
Qed.

Lemma fileSessions_absent w projectName file i :
  (forall s, s ∈ parseJsonlSessions' w projectName file ->
             SessionData.id s <> i) ->
  JsMap.get i (fileSessions' w projectName file) = None.
Proof.
  intros Hnone.
  destruct (JsMap.get i (fileSessions' w projectName file)) as [s|] eqn:Hget;
    [|done].
  pose proof (wellKeyed_get _ _ _ (fileSessions_wellKeyed _ _ _) Hget) as Hid.
  destruct (Hnone s); [|done].
  apply parseJsonlSessions_elem. by rewrite Hid.
Qed.

(** A record that the loop over the files collected comes from the first
    file, in processing order, whose sessions include its id. *)
Lemma collectSessions_origin w projectName limit offset n files all count i s :
  JsMap.get i (collectSessions' w projectName limit offset n files all count)
  = Some s ->
  JsMap.get i all = Some s
  \/ (JsMap.get i all = None
      /\ exists pre file mtime post,
          files = (pre ++ (file, mtime) :: post)%list
          /\ (forall f t, (f, t) ∈ pre ->
                JsMap.get i (fileSessions' w projectName f) = None)
          /\ JsMap.get i (fileSessions' w projectName file) = Some s).
Proof.
  revert all count. induction files as [|[file mtime] files IH]; simpl;
    [by left|].
  intros all count Hget.
  assert (Hhere : forall s,
    JsMap.get i (mergeSessions (parseJsonlSessions' w projectName file) all)
    = Some s ->
    JsMap.get i all = Some s
    \/ (JsMap.get i all = None
        /\ JsMap.get i (fileSessions' w projectName file) = Some s)).
  { intros s' Hs'.
    apply mergeSessions_origin in Hs' as [?|(Hnone & Hin & Hid)]; [by left|].
    right. split; [done|]. apply parseJsonlSessions_elem in Hin.
    by rewrite Hid in Hin. }
  destruct (_ && _).
  - apply Hhere in Hget as [?|[Hnone Hfile]]; [by left|].
    right. split; [done|]. exists [], file, mtime, files.
    split_and!; [done| |done]. intros f t H. by apply elem_of_nil in H.
  - apply IH in Hget as [Hget|(Hnone & pre & f & t & post & -> & Hpre & Hf)].
    + apply Hhere in Hget as [?|[Hnone Hfile]]; [by left|].
      right. split; [done|]. exists [], file, mtime, files.
      split_and!; [done| |done]. intros f t H. by apply elem_of_nil in H.
    + apply mergeSessions_absent in Hnone as [Hnone Hfile].
      right. split; [done|]. exists ((file, mtime) :: pre), f, t, post.
      split_and!; [done| |done].
      intros f' t' [[= -> ->]|Hin]%elem_of_cons; [|by eapply Hpre].
      by apply fileSessions_absent.
Qed.




End Dedup.

Lemma mapM_elem {A B} (f : A -> Res B) (xs : list A) (ys : list B) (y : B) :
  mapM f xs = Ok ys -> y ∈ ys -> exists x, x ∈ xs /\ f x = Ok y.
Proof.
  intros Hmap%mapM_Forall2. induction Hmap as [|x y' xs ys Hxy _ IH].
  - intros H. by apply elem_of_nil in H.
  - intros [->|Hin]%elem_of_cons.
    + exists x. split; [by left|done].
    + destruct (IH Hin) as (x' & Hx' & Hf). exists x'. split; [by right|done].
Qed.

Lemma toSession_id (s : SessionData.t) (x : Session.t) :
  toSession s = Ok x -> Session.id x = SessionData.id s.
Proof.
  unfold toSession. destruct (SessionData.lastActivity s); simpl; [|done].
  by intros [= <-].
Qed.

Lemma slice_elem {A} (start end_ : Z) (l : list A) (x : A) :
  x ∈ Js.slice start end_ l -> x ∈ l.
Proof.
  unfold Js.slice. intros H. by apply subseteq_take, subseteq_drop in H.
Qed.

(** The files are processed newest first, each with its own [mtime]. *)
Lemma sortedFilesWithStats_order (w : World) (projectName : string)
    (jsonlFiles : list string) (filesWithStats : list (string * Z)) :
  sortedFilesWithStats w projectName jsonlFiles = Ok filesWithStats ->
  StronglySorted (fun a b => b.2 <= a.2) filesWithStats
  /\ Forall (fun a => a.1 ∈ jsonlFiles /\ stat w projectName a.1 = Ok a.2)
       filesWithStats.
Proof.
  unfold sortedFilesWithStats.
  destruct (mapM _ jsonlFiles) as [stats|] eqn:Hstats; simpl; [|done].
  intros [= <-]. split; [apply (JsFacts.sort_descending snd)|].
  apply Forall_forall. intros [file mtime] Hin.
  rewrite JsFacts.sort_Permutation in Hin.
  destruct (mapM_elem _ _ _ _ Hstats Hin) as (file' & Hfile' & Hstat).
  destruct (stat w projectName file') as [t|] eqn:Ht; simpl in Hstat; [|done].
  injection Hstat as <- <-. done.
Qed.


(** What [getSessions] answers: the empty result, or the window of the
    sorted sessions that the files gave. *)
Lemma getSessions_cases JSON_parse Date_parse Date_now
    (w : World) (projectName : string) (limit offset : Z)
    (r : SessionsResult.t) :
  getSessions JSON_parse Date_parse Date_now w projectName limit offset = Ok r ->
  r = emptyResult
  \/ exists files filesWithStats converted,
       readdir w projectName = Ok files
       /\ sortedFilesWithStats w projectName
            (List.filter (Js.endsWith ".jsonl") files) = Ok filesWithStats
       /\ mapM toSession
            (JsMap.values
               (collectSessions JSON_parse Date_parse Date_now w projectName
                  limit offset (Z.of_nat (length filesWithStats))
                  filesWithStats JsMap.empty 0))
          = Ok converted
       /\ SessionsResult.sessions r
          = Js.slice offset (offset + limit)
              (Js.sort (fun a b => Session.updated_at b - Session.updated_at a)
                 converted)
       /\ SessionsResult.total r = Z.of_nat (length converted).
Proof.
  unfold getSessions. intros Hget.
  destruct (readdir w projectName) as [files|e] eqn:Hdir; simpl in Hget;
    [|left; by injection Hget as <-].
  destruct (length _ =? 0)%nat; simpl in Hget; [left; by injection Hget as <-|].
  unfold sortedSessions, collectedSessions in Hget.
  destruct (sortedFilesWithStats _ _ _) as [filesWithStats|] eqn:Hstats;
    simpl in Hget; [|left; by injection Hget as <-].
  destruct (mapM toSession _) as [converted|] eqn:Hconv; simpl in Hget;
    [|left; by injection Hget as <-].
  injection Hget as <-. right. exists files, filesWithStats, converted.
  split_and!; [done..|]. simpl.
  by rewrite (Permutation_length (JsFacts.sort_Permutation _ _)).
Qed.



(** ** The decision rule of extractProjectDirectory *)

Lemma find_first {A} (f : A -> bool) (l : list A) (x : A) :
  List.find f l = Some x ->
  exists before after,
    l = (before ++ x :: after)%list /\ f x = true
    /\ Forall (fun y => f y = false) before.
Proof.
  induction l as [|y l IH]; simpl; [done|].
  destruct (f y) eqn:Hy.
  - intros [= ->]. by exists [], l.
  - intros (before & after & -> & Hx & Hbefore)%IH.
    exists (y :: before), after. split_and!; [done|done|by constructor].
Qed.

Lemma find_some_elem {A} (f : A -> bool) (l : list A) (x : A) :
  x ∈ l -> f x = true -> exists y, List.find f l = Some y.
Proof.
  induction l as [|y l IH]; simpl.
  - intros H. by apply elem_of_nil in H.
  - intros [->|Hin]%elem_of_cons Hx.
    + rewrite Hx. by eexists.
    + destruct (f y); [by eexists|auto].
Qed.

Lemma fold_max_ge (xs : list Z) (x : Z) :
  x <= fold_left Z.max xs x /\ Forall (fun y => y <= fold_left Z.max xs x) xs.
Proof.
  revert x. induction xs as [|y xs IH]; simpl; intros x; [by split|].
  destruct (IH (Z.max x y)) as [Hx Hxs]. split; [lia|].
  constructor; [lia|done].
Qed.

Lemma fold_max_elem (xs : list Z) (x : Z) :
  fold_left Z.max xs x = x \/ fold_left Z.max xs x ∈ xs.
Proof.
  revert x. induction xs as [|y xs IH]; simpl; intros x; [by left|].
  destruct (IH (Z.max x y)) as [->|Hin].
  - destruct (Z.max_spec x y) as [[_ ->]|[_ ->]]; [right; by left|by left].
  - right. by right.
Qed.

(** On a non-empty list [Math_max] is the greatest element. *)
Lemma Math_max_spec (xs : list Z) :
  xs <> [] ->
  Math_max xs ∈ xs /\ Forall (fun y => y <= Math_max xs) xs.
Proof.
  destruct xs as [|x xs]; [done|]. intros _. simpl.
  destruct (fold_max_ge xs x) as [Hx Hxs]. split; [|by constructor].
  destruct (fold_max_elem xs x) as [->|Hin]; [by left|by right].
Qed.

Lemma scanInv_initial : scanInv initialScan.
Proof.
  split_and!; [constructor| |done]. intros k v H. by apply elem_of_nil in H.
Qed.

Section Scan.

Variable JSON_parse : string -> option SessionEntry.t.
Variable Date_parse : string -> Date.

Lemma scanLine_inv (st : ScanState) (line : string) :
  scanInv st -> scanInv (scanLine JSON_parse Date_parse st line).
Proof.
  intros (Hnd & Hpos & Hlatest). unfold scanLine.
  destruct (Js.truthy (Js.trim line)); [|done].
  destruct (JSON_parse line) as [entry|]; [|done].
  destruct (SessionEntry.cwd entry) as [cwd|]; [|done].
  destruct (Js.truthy cwd) eqn:Hcwd; [|done].
  set (count := default 0 (JsMap.get cwd (cwdCounts st)) + 1).
  assert (Hcount : 1 <= count).
  { subst count. destruct (JsMap.get cwd (cwdCounts st)) as [v|] eqn:Hget;
      simpl; [|lia].
    apply JsMapFacts.get_elem_of, Hpos in Hget. lia. }
  assert (Hinv : forall t c,
    (c = Some cwd \/ c = latestCwd st) ->
    scanInv (mkScan (JsMap.set cwd count (cwdCounts st)) t c)).
  { intros t c Hc. split_and!; simpl.
    - by apply JsMapFacts.NoDup_keys_set.
    - intros k v [[-> ->]|Hin]%JsMapFacts.elem_of_set; [done|by apply Hpos].
    - intros c' ->. rewrite JsMapFacts.get_set.
      destruct (String.eqb cwd c') eqn:E; [done|].
      destruct Hc as [[= ->]|Hc]; [by rewrite String.eqb_refl in E|].
      by apply Hlatest. }
  destruct (entryTime Date_parse entry) as [timestamp|]; [|by apply Hinv; right].
  destruct (latestTimestamp st <? timestamp); apply Hinv; [by left|by right].
Qed.

Lemma scanText_inv (st : ScanState) (text : string) :
  scanInv st -> scanInv (scanText JSON_parse Date_parse st text).
Proof.
  unfold scanText. generalize (Js.readline text). intros lines. revert st.
  induction lines as [|line lines IH]; simpl; [done|].
  intros st Hinv. by apply IH, scanLine_inv.
Qed.

Lemma scanTexts_inv (texts : list string) (st : ScanState) :
  scanInv st -> scanInv (fold_left (scanText JSON_parse Date_parse) texts st).
Proof.
  revert st. induction texts as [|text texts IH]; simpl; [done|].
  intros st Hinv. by apply IH, scanText_inv.
Qed.

(** When every file opens, the loop folds [scanText] over their texts. *)
Lemma scanFiles_ok w projectName files texts st :
  mapM (readFile w projectName) files = Ok texts ->
  (scanFiles JSON_parse Date_parse w projectName files st).1
  = Ok (fold_left (scanText JSON_parse Date_parse) texts st).
Proof.
  revert texts st. induction files as [|file files IH]; simpl;
    intros texts st.
  - by intros [= <-].
  - destruct (readFile w projectName file) as [text|]; simpl; [|done].
    destruct (mapM _ files) as [texts'|] eqn:Hrest; simpl; [|done].
    intros [= <-]. simpl. specialize (IH texts' (scanText JSON_parse Date_parse st text) eq_refl).
    destruct (scanFiles _ _ _ _ _ _) as [r ops]. exact IH.
Qed.

End Scan.

(** *** The scan loop counts votes *)

Section Votes.

Variable JSON_parse : string -> option SessionEntry.t.
Variable Date_parse : string -> Date.

Lemma scanLine_vote (st : ScanState) (line : string) :
  scanLine JSON_parse Date_parse st line
  = match vote JSON_parse Date_parse line with
    | Some v => castVote st v
    | None => st
    end.
Proof.
  unfold scanLine, vote, lineEntry, castVote.
  destruct (Js.truthy (Js.trim line)); [|done]. simpl.
  destruct (JSON_parse line) as [entry|]; [|done]. simpl.
  destruct (SessionEntry.cwd entry) as [cwd|]; [|done]. simpl.
  by destruct (Js.truthy cwd).
Qed.

Lemma scanLines_votes (lines : list string) (st : ScanState) :
  fold_left (scanLine JSON_parse Date_parse) lines st
  = fold_left castVote (omap (vote JSON_parse Date_parse) lines) st.
Proof.
  revert st. induction lines as [|line lines IH]; intros st; [done|].
  cbn [fold_left omap list_omap]. rewrite scanLine_vote, IH.
  by destruct (vote JSON_parse Date_parse line).
Qed.

Lemma scanTexts_lines (texts : list string) (st : ScanState) :
  fold_left (scanText JSON_parse Date_parse) texts st
  = fold_left (scanLine JSON_parse Date_parse)
      (List.concat (List.map Js.readline texts)) st.
Proof.
  revert st. induction texts as [|text texts IH]; intros st; [done|].
  simpl. by rewrite fold_left_app, IH.
Qed.

(** The scan is the fold of [castVote] over the votes of the files. *)
Lemma scanTexts_votes (texts : list string) :
  fold_left (scanText JSON_parse Date_parse) texts initialScan
  = fold_left castVote (votes JSON_parse Date_parse texts) initialScan.
Proof. by rewrite scanTexts_lines, scanLines_votes. Qed.

End Votes.

Lemma castVote_counts (st : ScanState) (v : string * option Z) :
  cwdCounts (castVote st v)
  = JsMap.set v.1 (default 0 (JsMap.get v.1 (cwdCounts st)) + 1) (cwdCounts st).
Proof.
  unfold castVote. destruct v.2 as [t|]; [|done].
  by destruct (latestTimestamp st <? t).
Qed.

(** Each count is the number of votes for its path. *)
Lemma castVotes_counts (vs : list (string * option Z)) (st : ScanState)
    (cwd : string) :
  default 0 (JsMap.get cwd (cwdCounts (fold_left castVote vs st)))
  = default 0 (JsMap.get cwd (cwdCounts st)) + occurrences cwd vs.
Proof.
  revert st. induction vs as [|v vs IH]; intros st.
  - unfold occurrences. simpl. lia.
  - cbn [fold_left]. rewrite IH, castVote_counts, JsMapFacts.get_set.
    unfold occurrences. simpl.
    destruct (String.eqb_spec v.1 cwd) as [->|]; simpl; lia.
Qed.

(** The map lists the paths in the order of their first vote. *)
Lemma castVotes_keys (vs : list (string * option Z)) (st : ScanState) :
  JsMap.keys (cwdCounts (fold_left castVote vs st))
  = fold_left
      (fun seen cwd =>
         if bool_decide (cwd ∈ seen) then seen else (seen ++ [cwd])%list)
      vs.*1 (JsMap.keys (cwdCounts st)).
Proof.
  revert st. induction vs as [|v vs IH]; intros st; [done|].
  cbn [fold_left fmap list_fmap]. rewrite IH, castVote_counts. f_equal.
  case_bool_decide.
  - by apply JsMapFacts.keys_set_present.
  - by apply JsMapFacts.keys_set_absent.
Qed.

(** [latestCwd] is the path of the first vote with the greatest time, when
    that time exceeds the one the loop started from. *)
Lemma castVotes_latest (vs : list (string * option Z)) (st : ScanState) :
  let st' := fold_left castVote vs st in
  (latestCwd st' = latestCwd st
   /\ latestTimestamp st' = latestTimestamp st
   /\ forall c t, (c, Some t) ∈ vs -> t <= latestTimestamp st)
  \/ (exists c t,
        latestCwd st' = Some c
        /\ latestTimestamp st' = t
        /\ (c, Some t) ∈ vs
        /\ latestTimestamp st < t
        /\ forall c' t', (c', Some t') ∈ vs -> t' <= t).
Proof.
  revert st. induction vs as [|[cwd time] vs IH]; intros st; cbv zeta.
  - left. split_and!; [done|done|]. intros c t H. by apply elem_of_nil in H.
  - cbn [fold_left].
    assert (Hstep :
      (latestCwd (castVote st (cwd, time)) = latestCwd st
       /\ latestTimestamp (castVote st (cwd, time)) = latestTimestamp st
       /\ forall t, time = Some t -> t <= latestTimestamp st)
      \/ (exists t, time = Some t
            /\ latestCwd (castVote st (cwd, time)) = Some cwd
            /\ latestTimestamp (castVote st (cwd, time)) = t
            /\ latestTimestamp st < t)).
    { unfold castVote. simpl. destruct time as [t|]; [|by left].
      destruct (Z.ltb_spec (latestTimestamp st) t).
      - right. by exists t.
      - left. split_and!; [done|done|]. by intros ? [= <-]. }
    destruct (IH (castVote st (cwd, time)))
      as [(Hc & Ht & Hle)|(c & t & Hc & Ht & Hin & Hlt & Hle)];
      destruct Hstep as [(Hc0 & Ht0 & Hle0)|(t0 & -> & Hc0 & Ht0 & Hlt0)].
    + left. split_and!; [congruence|congruence|].
      intros c t [Heq|Hin]%elem_of_cons; [simplify_eq; by apply Hle0|].
      rewrite <- Ht0. by eapply Hle.
    + right. exists cwd, t0. split_and!; [congruence|congruence|by left|done|].
      intros c t [Heq|Hin]%elem_of_cons; [simplify_eq; lia|].
      rewrite <- Ht0. by eapply Hle.
    + right. exists c, t. split_and!; [done|done|by right|lia|].
      intros c' t' [Heq|Hin']%elem_of_cons; [|by eapply Hle].
      simplify_eq. specialize (Hle0 t' eq_refl). lia.
    + right. exists c, t. split_and!; [done|done|by right|lia|].
      intros c' t' [Heq|Hin']%elem_of_cons; [simplify_eq; lia|by eapply Hle].
Qed.

Lemma reasonableUsage_spec (mostRecentCount maxCount : Z) :
  reasonableUsage mostRecentCount maxCount = true
  <-> (inject_Z maxCount * (25 # 100) <= inject_Z mostRecentCount)%Q.
Proof. apply Qle_bool_iff. Qed.

Lemma reasonableUsage_integers (mostRecentCount maxCount : Z) :
  reasonableUsage mostRecentCount maxCount = true
  <-> maxCount <= 4 * mostRecentCount.
Proof.
  rewrite reasonableUsage_spec. unfold Qle, Qmult, inject_Z. simpl. lia.
Qed.

(** [chooseDirectory] follows the rule on the state the scan loop left. *)
Lemma chooseDirectory_rule (projectName : string) (st : ScanState) :
  scanInv st ->
  decisionRule projectName (cwdCounts st) (latestCwd st)
    (chooseDirectory projectName st).
Proof.
  intros Hinv. unfold decisionRule, chooseDirectory.
  destruct (cwdCounts st) as [|[k1 v1] [|[k2 v2] rest]] eqn:Hcounts;
    [done|done|].
  unfold scanInv in Hinv. rewrite Hcounts in Hinv.
  destruct Hinv as (Hnd & Hpos & Hlatest).
  set (counts := (k1, v1) :: (k2, v2) :: rest) in *.
  change (JsMap.keys counts) with (k1 :: k2 :: JsMap.keys rest).
  change (JsMap.size counts =? 0)%nat with false.
  change (JsMap.size counts =? 1)%nat with false.
  cbv zeta. cbv iota.
  set (maxCount := Math_max (JsMap.values counts)).
  set (recentCount := default 0 (c ← latestCwd st; JsMap.get c counts)).
  destruct (Math_max_spec (JsMap.values counts)) as [Hmax Hle]; [done|].
  fold maxCount in Hmax, Hle.
  assert (Hbound : forall k v, (k, v) ∈ counts -> v <= maxCount).
  { intros k v Hin. rewrite Forall_forall in Hle. apply Hle.
    by apply (list_elem_of_fmap_2 snd) in Hin. }
  apply list_elem_of_fmap in Hmax as ([kmax vmax] & Hvmax & Hkmax).
  simpl in Hvmax. subst vmax.
  split; [done|]. split; [by exists kmax|].
  destruct (reasonableUsage recentCount maxCount) eqn:Hreasonable.
  - apply reasonableUsage_integers in Hreasonable.
    split; [|intros Hnot; destruct Hnot; by apply reasonableUsage_spec,
                                             reasonableUsage_integers].
    intros _. subst recentCount.
    destruct (latestCwd st) as [c|] eqn:Hc.
    + destruct (Hlatest c eq_refl) as [v Hv].
      apply JsMapFacts.get_elem_of, Hpos in Hv as [Hc' _].
      cbv beta iota. by rewrite Hc'.
    + apply Hpos in Hkmax as [_ Hone].
      assert (maxCount <= 0) by exact Hreasonable. lia.
  - split.
    { intros Hyes%reasonableUsage_spec. congruence. }
    intros _.
    destruct (find_some_elem (fun e => e.2 =? maxCount) counts (kmax, maxCount))
      as [[k v] Hfind]; [done|apply Z.eqb_refl|].
    unfold JsMap.entries. rewrite Hfind. simpl.
    apply find_first in Hfind as (before & after & Hsplit & Hv & Hbefore).
    simpl in Hv. apply Z.eqb_eq in Hv. subst v.
    assert (Hk : Js.truthy k = true).
    { apply (Hpos k maxCount). rewrite Hsplit.
      apply elem_of_app. right. by left. }
    rewrite Hk. exists before, after. split; [done|].
    apply Forall_forall. intros [k' v'] Hin. simpl.
    rewrite Forall_forall in Hbefore. pose proof (Hbefore _ Hin) as Hne.
    simpl in Hne. apply Z.eqb_neq in Hne.
    assert (v' <= maxCount); [|lia].
    apply (Hbound k'). rewrite Hsplit. apply elem_of_app. by left.
Qed.

(** C1. For a project that is not cached and whose log files all open, the
    path [extractProjectDirectory] returns follows [decisionRule] on the
    counts and the [latestCwd] that the scan of these files leaves: the
    fallback when no path was observed, the path when one was, and with
    several [latestCwd] when [0.25 * maxCount <= recentCount] and otherwise
    the first path in iteration order whose count is [maxCount].  Each count
    is the number of entries with that [cwd], the iteration order is the
    order in which the paths are first met, and [latestCwd] is the path of
    an entry whose time is the greatest observed (none when no entry has a
    time after the epoch). *)
Theorem extractProjectDirectory_decision JSON_parse Date_parse
    (w : World) (cache : gmap string string) (projectName : string)
    (files texts : list string) :
  cache !! projectName = None ->
  readdir w projectName = Ok files ->
  mapM (readFile w projectName) (List.filter (Js.endsWith ".jsonl") files)
  = Ok texts ->
  let st := fold_left (scanText JSON_parse Date_parse) texts initialScan in
  let vs := votes JSON_parse Date_parse texts in
  decisionRule projectName (cwdCounts st) (latestCwd st)
    (extractProjectDirectory JSON_parse Date_parse w cache projectName).1.1
  /\ (forall cwd,
        default 0 (JsMap.get cwd (cwdCounts st)) = occurrences cwd vs)
  /\ JsMap.keys (cwdCounts st) = firstSeenOrder vs.*1
  /\ match latestCwd st with
     | Some cwd =>
         exists t, (cwd, Some t) ∈ vs /\ 0 < t
                   /\ forall c' t', (c', Some t') ∈ vs -> t' <= t
     | None => forall c' t', (c', Some t') ∈ vs -> t' <= 0
     end.
Proof.
  intros Hcache Hdir Htexts. cbv zeta. split_and!.
  - unfold extractProjectDirectory. rewrite Hcache, Hdir.
    destruct (length _ =? 0)%nat eqn:Hnone.
    + apply Nat.eqb_eq, nil_length_inv in Hnone. rewrite Hnone in Htexts.
      injection Htexts as <-. by unfold decisionRule.
    + pose proof (scanFiles_ok JSON_parse Date_parse _ _ _ _ initialScan Htexts)
        as Hscan.
      destruct (scanFiles _ _ _ _ _ _) as [r ops]. simpl in Hscan. subst r.
      simpl. apply chooseDirectory_rule, scanTexts_inv, scanInv_initial.
  - intros cwd. rewrite scanTexts_votes, castVotes_counts. simpl. lia.
  - by rewrite scanTexts_votes, castVotes_keys.
  - rewrite scanTexts_votes.
    destruct (castVotes_latest (votes JSON_parse Date_parse texts) initialScan)
      as [(-> & _ & Hle)|(c & t & -> & _ & Hin & Hlt & Hle)]; simpl; [done|].
    by exists t.
Qed.

(** ** lastActivity (parseJsonlSessions) *)

Section LastActivity.

Variable JSON_parse : string -> option SessionEntry.t.
Variable Date_parse : string -> Date.
Variable Date_now : string -> string -> nat -> Z.

Local Abbreviation processLine' :=
  (processLine JSON_parse Date_parse Date_now).

(** What one line does to the record of [sessionId]. *)
Lemma processLine_get projectName file sessions lineCount line sessionId :
  JsMap.get sessionId
    (processLine' projectName file (sessions, lineCount) line).1
  = match lineEntry JSON_parse line with
    | Some entry =>
        if contributes sessionId entry then
          Some (applyEntry Date_parse entry
                  (default
                     (newSession (Date_now projectName file (S lineCount))
                        entry sessionId)
                     (JsMap.get sessionId sessions)))
        else JsMap.get sessionId sessions
    | None => JsMap.get sessionId sessions
    end.
Proof.
  unfold processLine, lineEntry, contributes.
  destruct (Js.truthy (Js.trim line)); [|done].
  destruct (JSON_parse line) as [entry|]; [|done].
  destruct (SessionEntry.sessionId entry) as [s|]; [|done].
  destruct (Js.truthy s); simpl; [|by rewrite andb_false_r].
  rewrite andb_true_r, JsMapFacts.get_set.
  destruct (String.eqb_spec s sessionId) as [->|]; [|done].
  by destruct (JsMap.get sessionId sessions).
Qed.

(** The last timestamped entry of the session decides [lastActivity]; with
    no such entry it is what the record held before. *)
Lemma processLines_lastActivity projectName file lines st sessionId session :
  JsMap.get sessionId (fold_left (processLine' projectName file) lines st).1
  = Some session ->
  match
    last (stamps (List.filter (contributes sessionId)
                    (omap (lineEntry JSON_parse) lines)))
  with
  | Some ts => SessionData.lastActivity session = Date_parse ts
  | None =>
      match JsMap.get sessionId st.1 with
      | Some before =>
          SessionData.lastActivity session = SessionData.lastActivity before
      | None => True
      end
  end.
Proof.
  revert st. induction lines as [|line lines IH]; intros [sessions lineCount].
  - simpl. by intros ->.
  - cbn [fold_left]. intros Hget. specialize (IH _ Hget).
    destruct (processLine' projectName file (sessions, lineCount) line)
      as [sessions' lineCount'] eqn:Hline.
    pose proof (processLine_get projectName file sessions lineCount line
                  sessionId) as Hstep.
    rewrite Hline in Hstep. cbn [fst] in Hstep, IH. cbn [omap list_omap].
    destruct (lineEntry JSON_parse line) as [entry|]; simpl;
      [|by rewrite Hstep in IH].
    destruct (contributes sessionId entry); simpl; [|by rewrite Hstep in IH].
    rewrite Hstep in IH. unfold stamps in *. simpl.
    destruct (SessionEntry.timestamp entry) as [ts|] eqn:Hts; simpl.
    + destruct (Js.truthy ts) eqn:Htruthy; simpl.
      * rewrite last_cons.
        destruct (last _) as [ts'|]; [done|].
        rewrite IH. simpl. by rewrite Hts, Htruthy.
      * destruct (last _) as [ts'|]; [done|].
        rewrite IH. simpl. rewrite Hts, Htruthy.
        by destruct (JsMap.get sessionId sessions).
    + destruct (last _) as [ts'|]; [done|].
      rewrite IH. simpl. rewrite Hts.
      by destruct (JsMap.get sessionId sessions).
Qed.

End LastActivity.

Lemma sorted_last_greatest (times : list Z) (m : Z) :
  StronglySorted Z.le times -> last times = Some m -> Forall (fun t => t <= m) times.
Proof.
  induction 1 as [|t times Hs IH Ht]; [done|].
  rewrite last_cons. destruct (last times) as [m'|] eqn:Hlast.
  - intros [= ->]. constructor; [|by apply IH].
    rewrite Forall_forall in Ht. apply Ht. by apply last_Some_elem_of.
  - intros [= ->]. apply last_None in Hlast. subst. by repeat constructor.
Qed.

(** C4, as the code has it. The [lastActivity] of a session aggregated from
    one file is the date of the last entry, in file order, that bears the
    session's id and a timestamp: every such entry overwrites it.  Hence it
    is the greatest of these timestamps when they are valid dates in
    non-decreasing file order. *)
Theorem lastActivity_last_timestamp JSON_parse Date_parse Date_now
    (w : World) (projectName file text sessionId : string)
    (session : SessionData.t) :
  readFile w projectName file = Ok text ->
  JsMap.get sessionId
    (fileSessions JSON_parse Date_parse Date_now w projectName file)
  = Some session ->
  let timestamps := stamps (contributing JSON_parse sessionId text) in
  (forall ts, last timestamps = Some ts ->
     SessionData.lastActivity session = Date_parse ts)
  /\ (forall times,
        Date_parse <$> timestamps = Some <$> times ->
        times <> [] ->
        StronglySorted Z.le times ->
        exists m, SessionData.lastActivity session = Some m
                  /\ m ∈ times /\ Forall (fun t => t <= m) times).
Proof.
  intros Hread Hget. unfold fileSessions in Hget. rewrite Hread in Hget.
  apply processLines_lastActivity in Hget. cbv zeta.
  unfold contributing.
  set (timestamps := stamps _) in *.
  assert (Hlast : forall ts, last timestamps = Some ts ->
            SessionData.lastActivity session = Date_parse ts).
  { intros ts Hts. by rewrite Hts in Hget. }
  split; [done|].
  intros times Htimes Hnonempty Hsorted.
  destruct (last times) as [m|] eqn:Hm;
    [|by apply last_None in Hm].
  assert (Hparsed : last (Date_parse <$> timestamps) = Some (Some m)).
  { by rewrite Htimes, fmap_last, Hm. }
  rewrite fmap_last in Hparsed.
  destruct (last timestamps) as [ts|] eqn:Hts; [|done].
  injection Hparsed as Hparsed.
  exists m. split_and!.
  - by rewrite (Hlast ts eq_refl).
  - by apply last_Some_elem_of.
  - by apply sorted_last_greatest.
Qed.

(** ** deleteSession *)

Module SplitFacts.

Lemma append_cons (x : ascii) (a b : string) :
  String x a ++ b = String x (a ++ b).
Proof. reflexivity. Qed.

Lemma append_assoc (a b c : string) : (a ++ b) ++ c = a ++ (b ++ c).
Proof.
  induction a as [|x a IH]; [done|]. rewrite !append_cons. by f_equal.
Qed.

Lemma append_nil_r (a : string) : a ++ "" = a.
Proof.
  induction a as [|x a IH]; [done|]. rewrite append_cons. by f_equal.
Qed.

(** No piece of [split sep s] holds [sep]. *)
Lemma split_pieces (sep : ascii) (s : string) :
  Forall (fun piece => Js.includes sep piece = false) (Js.split sep s).
Proof.
  induction s as [|c s IH]; simpl; [by repeat constructor|].
  destruct (Ascii.eqb c sep) eqn:E; [by constructor|].
  destruct (Js.split sep s) as [|h t]; [by repeat constructor; simpl; rewrite E|].
  inversion IH as [|?? Hh Ht]; subst.
  constructor; [|done]. simpl. by rewrite E, Hh.
Qed.

Lemma split_line (sep : ascii) (l t : string) :
  Js.includes sep l = false ->
  Js.split sep (l ++ String sep t) = l :: Js.split sep t.
Proof.
  induction l as [|c l IH]; simpl.
  - intros _. by rewrite Ascii.eqb_refl.
  - intros [Hc Hl]%orb_false_iff. by rewrite Hc, (IH Hl).
Qed.

Lemma written_cons (l : string) (lines : list string) :
  writtenText (l :: lines) = l ++ String Js.LF (writtenText lines).
Proof.
  unfold writtenText, Js.join, Js.newline. destruct lines as [|l' lines]; simpl.
  - by rewrite append_nil_r.
  - rewrite !append_assoc. by rewrite append_cons.
Qed.

Lemma split_written (lines : list string) :
  Forall (fun l => Js.includes Js.LF l = false) lines ->
  Js.split Js.LF (writtenText lines) = (lines ++ [""])%list.
Proof.
  induction 1 as [|l lines Hl _ IH]; [done|].
  by rewrite written_cons, (split_line _ _ _ Hl), IH.
Qed.

End SplitFacts.

Lemma filter_all {A} (f : A -> bool) (l : list A) :
  Forall (fun x => f x = true) l -> List.filter f l = l.
Proof.
  induction 1 as [|x l Hx _ IH]; simpl; [done|]. by rewrite Hx, IH.
Qed.

Lemma Forall_filter {A} (P : A -> Prop) (f : A -> bool) (l : list A) :
  Forall P l -> Forall P (List.filter f l).
Proof.
  induction 1 as [|x l Hx _ IH]; simpl; [done|].
  destruct (f x); [by constructor|done].
Qed.

Lemma Forall_filter_true {A} (f : A -> bool) (l : list A) :
  Forall (fun x => f x = true) (List.filter f l).
Proof.
  induction l as [|x l IH]; simpl; [done|].
  destruct (f x) eqn:Hx; [by constructor|done].
Qed.

Lemma filter_partition_length {A} (f g : A -> bool) (l : list A) :
  (forall x, g x = negb (f x)) ->
  (length (List.filter g l) + length (List.filter f l))%nat = length l.
Proof.
  intros Hfg. induction l as [|x l IH]; simpl; [done|].
  rewrite Hfg. destruct (f x); simpl; lia.
Qed.

(** The lines [deleteSession] reads back from the text it wrote are the
    lines it kept. *)
Lemma fileLines_written (content : string) (f : string -> bool) :
  fileLines (writtenText (List.filter f (fileLines content)))
  = List.filter f (fileLines content).
Proof.
  unfold fileLines at 1. rewrite SplitFacts.split_written.
  - rewrite List.filter_app. simpl. rewrite app_nil_r.
    apply filter_all, Forall_filter. unfold fileLines.
    apply Forall_filter_true.
  - apply Forall_filter. unfold fileLines.
    apply Forall_filter, SplitFacts.split_pieces.
Qed.

Lemma readdirFiles_inv (w : World) (projectName : string)
    (files : list (string * File)) :
  readdirFiles w projectName = Ok files ->
  lookupProject w projectName = Some (Directory (Some files)).
Proof.
  unfold readdirFiles.
  destruct (lookupProject w projectName) as [[|[listing|]]|]; try done.
  by intros [= ->].
Qed.

(** A successful write changes the text and the modification time of that
    file and nothing else. *)
Lemma writeFile_ok (w : World) (projectName file text : string) (now : Z)
    (f : File) :
  lookupFile w projectName file = Some f ->
  writable f = true ->
  exists w',
    writeFile w projectName file text now = (Ok tt, w')
    /\ lookupFile w' projectName file = Some (mkFile (Some text) (Some now) true)
    /\ (forall g, g <> file ->
          lookupFile w' projectName g = lookupFile w projectName g)
    /\ (forall q, q <> projectName -> lookupProject w' q = lookupProject w q)
    /\ configFile w' = configFile w.
Proof.
  unfold lookupFile, writeFile. intros Hfile Hwritable.
  destruct (readdirFiles w projectName) as [files|] eqn:Hdir; [|done].
  rewrite Hfile, Hwritable. eexists. split; [done|].
  apply readdirFiles_inv in Hdir. unfold lookupProject in Hdir.
  unfold readdirFiles, lookupProject, setListing. simpl.
  destruct (projectsDir w) as [entries|]; [|done].
  rewrite JsMapFacts.get_set_eq. split_and!.
  - by rewrite JsMapFacts.get_set_eq.
  - intros g Hg. apply JsMapFacts.get_set_ne. congruence.
  - intros q Hq. apply JsMapFacts.get_set_ne. congruence.
  - done.
Qed.

Section DeleteSession.

Variable JSON_parse : string -> option SessionEntry.t.
Variable fs_now : string -> string -> Z.

Lemma keepLine_negb (sessionId line : string) :
  keepLine JSON_parse sessionId line
  = negb (lineHasSession JSON_parse sessionId line).
Proof.
  unfold keepLine, lineHasSession.
  destruct (JSON_parse line) as [data|]; [|done].
  by destruct (SessionEntry.sessionId data).
Qed.

(** The files in which no line matches are passed over, unchanged. *)
Lemma deleteFromFiles_skip (w : World) (projectName sessionId : string)
    (pre rest : list string) :
  Forall (fun f => exists text,
            readFile w projectName f = Ok text
            /\ existsb (lineHasSession JSON_parse sessionId) (fileLines text)
               = false) pre ->
  deleteFromFiles JSON_parse fs_now w projectName sessionId (pre ++ rest)
  = deleteFromFiles JSON_parse fs_now w projectName sessionId rest.
Proof.
  induction 1 as [|f pre (text & Hread & Hnone) _ IH]; simpl; [done|].
  by rewrite Hread, Hnone.
Qed.

(** When no readable file holds a line of the session the loop throws, with
    the error of the first file that does not open or with "not found", and
    writes nothing. *)
Lemma deleteFromFiles_missing (w : World) (projectName sessionId : string)
    (files : list string) :
  Forall (fun f => forall text,
            readFile w projectName f = Ok text ->
            existsb (lineHasSession JSON_parse sessionId) (fileLines text)
            = false) files ->
  exists e,
    deleteFromFiles JSON_parse fs_now w projectName sessionId files = (Throw e, w).
Proof.
  induction 1 as [|f files Hf _ IH]; simpl; [by eexists|].
  destruct (readFile w projectName f) as [text|e]; [|by eexists].
  by rewrite (Hf text eq_refl).
Qed.

End DeleteSession.

(** C5, as the code has it. [deleteSession] rewrites the first file, in
    directory order, that holds a line of the session: of its non-blank
    lines it keeps, unchanged and in order, exactly those that do not parse
    to the session (a line that does not parse is never a match and is
    kept), so that their number drops by the number of matching lines; blank
    lines are not written back.  The file gets the time of the write as
    its modification time; no other file, project or the configuration
    changes.  When no file holds the session the call throws and changes
    nothing. *)
Theorem deleteSession_first_file JSON_parse fs_now
    (w : World) (projectName sessionId : string) (files : list string) :
  readdir w projectName = Ok files ->
  (forall pre file post text mtime,
      List.filter (Js.endsWith ".jsonl") files = (pre ++ file :: post)%list ->
      Forall (fun f => exists text',
                readFile w projectName f = Ok text'
                /\ existsb (lineHasSession JSON_parse sessionId)
                     (fileLines text') = false) pre ->
      lookupFile w projectName file = Some (mkFile (Some text) mtime true) ->
      existsb (lineHasSession JSON_parse sessionId) (fileLines text) = true ->
      exists w' text',
        deleteSession JSON_parse fs_now w projectName sessionId = (Ok true, w')
        /\ lookupFile w' projectName file
           = Some (mkFile (Some text') (Some (fs_now projectName file)) true)
        /\ text'
           = writtenText
               (List.filter
                  (fun line => negb (lineHasSession JSON_parse sessionId line))
                  (fileLines text))
        /\ fileLines text'
           = List.filter (fun line => negb (lineHasSession JSON_parse sessionId line))
               (fileLines text)
        /\ (forall line, JSON_parse line = None ->
              lineHasSession JSON_parse sessionId line = false)
        /\ (length (fileLines text')
            + length (List.filter (lineHasSession JSON_parse sessionId)
                        (fileLines text)))%nat
           = length (fileLines text)
        /\ (forall g, g <> file ->
              lookupFile w' projectName g = lookupFile w projectName g)
        /\ (forall q, q <> projectName -> lookupProject w' q = lookupProject w q)
        /\ configFile w' = configFile w)
  /\ (Forall (fun f => forall text,
                readFile w projectName f = Ok text ->
                existsb (lineHasSession JSON_parse sessionId) (fileLines text)
                = false)
        (List.filter (Js.endsWith ".jsonl") files) ->
      exists e, deleteSession JSON_parse fs_now w projectName sessionId = (Throw e, w)).
Proof.
  intros Hdir. unfold deleteSession. rewrite Hdir. split.
  - intros pre file post text mtime Hsplit Hpre Hfile Hmatch.
    rewrite Hsplit.
    replace (length (pre ++ file :: post) =? 0)%nat with false
      by (symmetry; apply Nat.eqb_neq; rewrite length_app; simpl; lia).
    rewrite (deleteFromFiles_skip _ _ _ _ _ _ _ Hpre). simpl.
    unfold readFile. rewrite Hfile. simpl. rewrite Hmatch.
    destruct (writeFile_ok w projectName file
                (writtenText (List.filter (keepLine JSON_parse sessionId)
                                (fileLines text)))
                (fs_now projectName file) _ Hfile eq_refl)
      as (w' & -> & Hfile' & Hothers & Hprojects & Hconfig).
    exists w', (writtenText (List.filter (keepLine JSON_parse sessionId)
                              (fileLines text))).
    simpl. rewrite fileLines_written.
    rewrite (filter_ext _ _ (keepLine_negb JSON_parse sessionId)) in Hfile' |- *.
    split_and!; try done.
    + intros line Hline. unfold lineHasSession. by rewrite Hline.
    + by apply filter_partition_length.
  - intros Hnone.
    destruct (length _ =? 0)%nat; [by eexists|].
    by apply deleteFromFiles_missing.
Qed.

(** ** renameProject with an empty name *)

(** An empty (or blank) new name removes the whole configuration entry of
    the project, not only its [displayName]. *)
Lemma renameProject_empty_deletes_entry (w : World)
    (projectName newDisplayName : string) :
  configWritable w = true ->
  Js.trim newDisplayName = "" ->
  exists w',
    renameProject w projectName newDisplayName = (Ok true, w')
    /\ configFile w' = Some (JsMap.delete projectName (loadProjectConfig w)).
Proof.
  intros Hwritable Hblank. unfold renameProject, saveProjectConfig.
  rewrite Hblank, Hwritable. simpl. rewrite orb_true_r. by eexists.
Qed.

(** C6 on the concrete platform.  For a project with a folder the round
    trip holds: after [renameProject(p, "Main app")] the list shows that
    name, and after [renameProject(p, "")] it shows the derived name again.
    For a project added by hand and shown as "Demo", [renameProject(p, "")]
    leaves nothing in the configuration for the project, its [manuallyAdded]
    flag and [originalPath] included, and [getProjects] no longer lists
    it. *)
Theorem renameProject_empty_unlists_manual_project :
  let list w :=
    (getProjects Sample.JSON_parse Sample.Date_parse Sample.Date_now w ∅).1 in
  let names w := (fun p => (Project.name p, Project.displayName p)) <$> list w in
  (let w := Sample.dedupWorld in
   names w = [("my-app", "/home/u/app")]
   /\ exists w1 w2,
       renameProject w "my-app" "Main app" = (Ok true, w1)
       /\ names w1 = [("my-app", "Main app")]
       /\ renameProject w1 "my-app" "" = (Ok true, w2)
       /\ names w2 = [("my-app", "/home/u/app")])
  /\ (let w := Sample.manualWorld in
      list w
      = [Project.mk "-srv-demo" "Demo" "/srv/demo" (SessionMeta.mk 0 false) []]
      /\ exists w',
          renameProject w "-srv-demo" "" = (Ok true, w')
          /\ configFile w' = Some []
          /\ list w' = []).
Proof.
  cbv zeta. split.
  - split; [reflexivity|]. eexists _, _. split_and!; reflexivity.
  - split; [reflexivity|].
    eexists. split; [reflexivity|]. split; reflexivity.
Qed.

(** * Instances on the concrete platform *)

Lemma extractProjectDirectory_decision_witness :
  let resolve w :=
    (extractProjectDirectory Sample.JSON_parse Sample.Date_parse w ∅ "my-app").1.1 in
  let w := Sample.votesWorld 1 in
  let texts := [Sample.logText (repeat Sample.lineA 10 ++ [Sample.lineB])] in
  let st :=
    fold_left (scanText Sample.JSON_parse Sample.Date_parse) texts initialScan in
  let vs := votes Sample.JSON_parse Sample.Date_parse texts in
  (∅ : gmap string string) !! "my-app" = None
  /\ readdir w "my-app" = Ok ["a.jsonl"]
  /\ mapM (readFile w "my-app") (List.filter (Js.endsWith ".jsonl") ["a.jsonl"])
     = Ok texts
  /\ (decisionRule "my-app" (cwdCounts st) (latestCwd st) (resolve w)
      /\ (forall cwd,
            default 0 (JsMap.get cwd (cwdCounts st)) = occurrences cwd vs)
      /\ JsMap.keys (cwdCounts st) = firstSeenOrder vs.*1
      /\ match latestCwd st with
         | Some cwd =>
             exists t, (cwd, Some t) ∈ vs /\ 0 < t
                       /\ forall c' t', (c', Some t') ∈ vs -> t' <= t
         | None => forall c' t', (c', Some t') ∈ vs -> t' <= 0
         end)
  /\ cwdCounts st = [("/home/u/a", 10); ("/home/u/b", 1)]
  /\ latestCwd st = Some "/home/u/b"
  /\ resolve w = "/home/u/a"
  /\ resolve (Sample.votesWorld 4) = "/home/u/b".
Proof.
  cbv zeta.
  split; [reflexivity|]. split; [reflexivity|]. split; [reflexivity|].
  split.
  - apply (extractProjectDirectory_decision Sample.JSON_parse
             Sample.Date_parse (Sample.votesWorld 1) ∅ "my-app" ["a.jsonl"]);
      reflexivity.
  - split_and!; reflexivity.
Defined.


Lemma getSessions_pagination_witness :
  let w := Sample.dedupWorld in
  let s1 := Session.mk "s1" "New Session" 1704153600000 1704153600000 1 in
  let s2 := Session.mk "s2" "New Session" 1704067200000 1704067200000 1 in
  let all :=
    [("s1", SessionData.mk "s1" "New Session" 1 (Some 1704153600000)
              "/home/u/app");
     ("s2", SessionData.mk "s2" "New Session" 1 (Some 1704067200000)
              "/home/u/app")] in
  0 <= 1 /\ 0 <= 1
  /\ readdir w "my-app" = Ok ["old.jsonl"; "new.jsonl"]
  /\ collectedSessions Sample.JSON_parse Sample.Date_parse Sample.Date_now w
       "my-app" 1 1 ["old.jsonl"; "new.jsonl"] = Ok all
  /\ Forall (fun s => is_Some (SessionData.lastActivity s)) (JsMap.values all)
  /\ exists r converted sorted,
      getSessions Sample.JSON_parse Sample.Date_parse Sample.Date_now w
        "my-app" 1 1 = Ok r
      /\ Z.of_nat (length (SessionsResult.sessions r)) = 1
      /\ SessionsResult.hasMore r = false
      /\ Forall2 (fun s x => toSession s = Ok x) (JsMap.values all) converted
      /\ sorted ≡ₚ converted
      /\ SessionsResult.total r = 2
      /\ SessionsResult.sessions r = take 1 (drop 1 sorted)
      /\ SessionsResult.sessions r = [s2].
Proof.
  cbv zeta.
  assert (Hvalid :
    Forall (fun s => is_Some (SessionData.lastActivity s))
      (JsMap.values
         [("s1", SessionData.mk "s1" "New Session" 1 (Some 1704153600000)
                   "/home/u/app");
          ("s2", SessionData.mk "s2" "New Session" 1 (Some 1704067200000)
                   "/home/u/app")]))
    by (repeat constructor; by eexists).
  split_and!; [lia|lia|reflexivity|reflexivity|exact Hvalid|].
  destruct (getSessions_pagination Sample.JSON_parse Sample.Date_parse
              Sample.Date_now Sample.dedupWorld "my-app" 1 1)
    as (r & Hr & Hlen & Hmore & Hwindow & _); [lia|lia|].
  destruct (proj1 (Hwindow _ _ eq_refl eq_refl) Hvalid)
    as (converted & sorted & Hconv & Hperm & _ & Htotal & Hpage).
  exists r, converted, sorted. rewrite Hlen, Hmore, Htotal.
  split_and!; [done..|].
  injection Hr as <-. reflexivity.
Defined.

(** C3 as stated fails: in a project whose newest log file holds a session
    without a valid date, two sessions are collected, and yet the result is
    the empty page with [total] 0 (the conversion of the undated session
    throws, and the [catch] block answers). *)
Lemma getSessions_total_not_collected_size :
  let w := Example.undatedWorld in
  exists allSessions r,
    readdir w "chat" = Ok ["old.jsonl"; "new.jsonl"]
    /\ collectedSessions Example.JSON_parse Sample.Date_parse Sample.Date_now
         w "chat" 10 0 ["old.jsonl"; "new.jsonl"] = Ok allSessions
    /\ JsMap.keys allSessions = ["c3"; "s1"]
    /\ getSessions Example.JSON_parse Sample.Date_parse Sample.Date_now
         w "chat" 10 0 = Ok r
    /\ SessionsResult.sessions r = []
    /\ SessionsResult.total r = 0
    /\ ~ windowOfCollected allSessions 10 0 r.
Proof.
  cbv zeta. eexists _, _. split_and!; [reflexivity..|].
  intros [Htotal _]. vm_compute in Htotal. discriminate.
Qed.

Lemma lastActivity_last_timestamp_witness :
  let w := Sample.orderedWorld in
  let session :=
    SessionData.mk "s1" "New Session" 2 (Some 1704153600000) "/home/u/app" in
  readFile w "my-app" "a.jsonl" = Ok Sample.orderedText
  /\ JsMap.get "s1"
       (fileSessions Sample.JSON_parse Sample.Date_parse Sample.Date_now w
          "my-app" "a.jsonl") = Some session
  /\ stamps (contributing Sample.JSON_parse "s1" Sample.orderedText)
     = [Sample.day1; Sample.day2]
  /\ SessionData.lastActivity session = Sample.Date_parse Sample.day2
  /\ exists m, SessionData.lastActivity session = Some m
               /\ m ∈ [1704067200000; 1704153600000]
               /\ Forall (fun t => t <= m) [1704067200000; 1704153600000].
Proof.
  cbv zeta.
  destruct (lastActivity_last_timestamp Sample.JSON_parse Sample.Date_parse
              Sample.Date_now Sample.orderedWorld "my-app" "a.jsonl"
              Sample.orderedText "s1"
              (SessionData.mk "s1" "New Session" 2 (Some 1704153600000)
                 "/home/u/app") eq_refl eq_refl) as [Hlast Hgreatest].
  split_and!; [reflexivity..| |].
  - by apply Hlast.
  - apply Hgreatest; [reflexivity|done|].
    repeat constructor. lia.
Defined.

(** C4 as stated fails: a session whose two entries are not in
    chronological order gets the timestamp of the later line, which is the
    earlier date, not the maximum. *)
Lemma lastActivity_not_maximum :
  let w := Sample.unorderedWorld in
  let entries := contributing Sample.JSON_parse "s1" Sample.unorderedText in
  readFile w "my-app" "a.jsonl" = Ok Sample.unorderedText
  /\ stamps entries = [Sample.day2; Sample.day1]
  /\ maxTimestamp Sample.Date_parse entries = Some 1704153600000
  /\ exists session,
      JsMap.get "s1"
        (fileSessions Sample.JSON_parse Sample.Date_parse Sample.Date_now w
           "my-app" "a.jsonl") = Some session
      /\ SessionData.lastActivity session = Some 1704067200000
      /\ SessionData.lastActivity session
         <> maxTimestamp Sample.Date_parse entries.
Proof.
  cbv zeta. split_and!; [reflexivity..|].
  eexists. split_and!; [reflexivity|reflexivity|].
  vm_compute. discriminate.
Qed.

Lemma deleteSession_first_file_witness :
  let w := Sample.deleteWorld in
  let kept := ["not json"; Sample.line "s2" "/home/u/app" Sample.day1] in
  let unmatched f :=
    forall text,
      readFile w "my-app" f = Ok text ->
      existsb (lineHasSession Sample.JSON_parse "s9") (fileLines text) = false in
  readdir w "my-app" = Ok ["a.jsonl"; "b.jsonl"]
  /\ lookupFile w "my-app" "a.jsonl"
     = Some (mkFile (Some Sample.mixedText) (Some 100) true)
  /\ existsb (lineHasSession Sample.JSON_parse "s1")
       (fileLines Sample.mixedText) = true
  /\ (exists w' text',
        deleteSession Sample.JSON_parse Sample.fs_now w "my-app" "s1"
        = (Ok true, w')
        /\ lookupFile w' "my-app" "a.jsonl"
           = Some (mkFile (Some text') (Some 1704412800000) true)
        /\ fileLines text' = kept
        /\ lookupFile w' "my-app" "b.jsonl" = lookupFile w "my-app" "b.jsonl")
  /\ Forall unmatched ["a.jsonl"; "b.jsonl"]
  /\ exists e,
       deleteSession Sample.JSON_parse Sample.fs_now w "my-app" "s9"
       = (Throw e, w).
Proof.
  cbv zeta. split_and!; [reflexivity..| | |].
  - destruct (deleteSession_first_file Sample.JSON_parse Sample.fs_now
                Sample.deleteWorld "my-app" "s1" _ eq_refl) as [Hfound _].
    destruct (Hfound [] "a.jsonl" ["b.jsonl"] _ _ eq_refl (List.Forall_nil _)
                eq_refl eq_refl)
      as (w' & text' & Hdelete & Hfile & _ & Hlines & _ & _ & Hothers & _).
    exists w', text'. split_and!; [done|done| |by apply Hothers].
    by rewrite Hlines.
  - repeat constructor; by intros text [= <-].
  - destruct (deleteSession_first_file Sample.JSON_parse Sample.fs_now
                Sample.deleteWorld "my-app" "s9" _ eq_refl) as [_ Hmissing].
    apply Hmissing. repeat constructor; by intros text [= <-].
Defined.

(** C5 as stated fails: the blank line of [a.jsonl] matches nothing and is
    not written back, so the file loses two lines for one matching line;
    and [b.jsonl], which also holds a line of the session, is not
    rewritten. *)
Lemma deleteSession_blank_line_and_second_file :
  let w := Sample.deleteWorld in
  let matching := lineHasSession Sample.JSON_parse "s1" in
  let l1 := Sample.line "s1" "/home/u/app" Sample.day1 in
  let l2 := Sample.line "s2" "/home/u/app" Sample.day1 in
  readFile w "my-app" "a.jsonl" = Ok Sample.mixedText
  /\ textLines Sample.mixedText = [l1; ""; "not json"; l2]
  /\ List.filter matching (textLines Sample.mixedText) = [l1]
  /\ exists w' text' other,
      deleteSession Sample.JSON_parse Sample.fs_now w "my-app" "s1"
      = (Ok true, w')
      /\ readFile w' "my-app" "a.jsonl" = Ok text'
      /\ textLines text' = ["not json"; l2]
      /\ textLines text'
         <> List.filter (fun l => negb (matching l)) (textLines Sample.mixedText)
      /\ (length (textLines Sample.mixedText) - length (textLines text'))%nat
         <> length (List.filter matching (textLines Sample.mixedText))
      /\ readFile w' "my-app" "b.jsonl" = Ok other
      /\ existsb matching (textLines other) = true.
Proof.
  cbv zeta. split_and!; [reflexivity..|].
  eexists _, _, _. split_and!; [reflexivity..| | |reflexivity|reflexivity].
  - vm_compute. discriminate.
  - vm_compute. discriminate.
Qed.

Lemma addProjectManually_missing_path_witness :
  let w := Sample.takenWorld in
  existsb (String.eqb (Sample.path_resolve "/srv/demo")) (existingPaths w) = false
  /\ lookupProject w "-srv-demo" = Some (Directory (Some []))
  /\ JsMap.has "-srv-demo" (loadProjectConfig w) = true
  /\ addProjectManually Sample.path_resolve w "/srv/demo" None
     = (Throw (newError "Path does not exist: /srv/demo"), w).
Proof.
  cbv zeta. split_and!; [reflexivity..|].
  by apply (addProjectManually_missing_path Sample.path_resolve
              Sample.takenWorld "/srv/demo" None).
Defined.

Lemma getSessions_never_throws_witness :
  let w := Sample.dedupWorld in
  readdir w "gone" = Throw (fsError "ENOENT" "no such file or directory, scandir")
  /\ getSessions Sample.JSON_parse Sample.Date_parse Sample.Date_now w "gone" 5 0
     = Ok (SessionsResult.mk [] false 0 None None).
Proof.
  cbv zeta. split; [reflexivity|].
  by eapply (proj2 (getSessions_never_throws Sample.JSON_parse
                      Sample.Date_parse Sample.Date_now Sample.dedupWorld
                      "gone" 5 0)).
Defined.

Lemma identifier_encoding_not_invertible_witness :
  Js.includes "-" "/srv/app" = false
  /\ Js.replaceAll "-" "/" (Js.replaceAll "/" "-" "/srv/app") = "/srv/app".
Proof.
  split; [reflexivity|].
  by apply (proj1 identifier_encoding_not_invertible "/srv/app").
Defined.

Lemma extractProjectDirectory_memoized_witness :
  let w := Sample.votesWorld 1 in
  let resolve := extractProjectDirectory Sample.JSON_parse Sample.Date_parse in
  (resolve w ∅ "my-app").1.1 = "/home/u/a"
  /\ (resolve w ∅ "my-app").2
     = [OpReaddir "my-app"; OpReadStream "my-app" "a.jsonl"]
  /\ (let '(path, cache1, _) := resolve w ∅ "my-app" in
      resolve (Sample.votesWorld 4) cache1 "my-app" = (path, cache1, [])
      /\ cache1 !! "my-app" = Some path
      /\ clearProjectDirectoryCache cache1 !! "my-app" = None)
  /\ (resolve (Sample.votesWorld 4) ∅ "my-app").1.1 = "/home/u/b".
Proof.
  cbv zeta. split; [reflexivity|]. split; [reflexivity|]. split; [|reflexivity].
  apply (extractProjectDirectory_memoized Sample.JSON_parse Sample.Date_parse
           (Sample.votesWorld 1) (Sample.votesWorld 4) ∅ "my-app").
Defined.

(** * Further properties of the catalog *)

(** ** getProjects *)

Section Catalog.

Variable JSON_parse : string -> option SessionEntry.t.
Variable Date_parse : string -> Date.
Variable Date_now : string -> string -> nat -> Z.

Local Abbreviation getProjects' := (getProjects JSON_parse Date_parse Date_now).

(** A folder adds one project, under its own name; a regular file adds
    nothing. *)
Lemma discoverProject_spec (w : World) (config : ProjectConfig)
    (projects : list Project.t) (existing : gset string)
    (cache : gmap string string) (name : string) (node : Node) :
  match node with
  | RegularFile =>
      discoverProject JSON_parse Date_parse Date_now w config
        (projects, existing, cache) (name, node) = (projects, existing, cache)
  | Directory _ =>
      exists project cache',
        discoverProject JSON_parse Date_parse Date_now w config
          (projects, existing, cache) (name, node)
        = ((projects ++ [project])%list, {[ name ]} ∪ existing, cache')
        /\ Project.name project = name
        /\ shownAs w config project
  end.
Proof.
  destruct node as [|listing]; [done|]. unfold discoverProject.
  destruct (extractProjectDirectory _ _ w cache name) as [[dir cache'] ops].
  destruct (getSessions _ _ _ w name 5 0); by eexists _, _.
Qed.

Lemma discoverProjects_spec (w : World) (config : ProjectConfig)
    (entries : list (string * Node)) (projects : list Project.t)
    (existing : gset string) (cache : gmap string string) :
  exists found existing' cache',
    fold_left (discoverProject JSON_parse Date_parse Date_now w config) entries
      (projects, existing, cache)
    = ((projects ++ found)%list, existing', cache')
    /\ Project.name <$> found = directoryNames entries
    /\ (forall k, k ∈ existing' <-> k ∈ directoryNames entries \/ k ∈ existing)
    /\ Forall (shownAs w config) found.
Proof.
  revert projects existing cache.
  induction entries as [|[name node] entries IH]; intros projects existing cache.
  - exists [], existing, cache. rewrite app_nil_r.
    split_and!; [done|done| |done]. intros k. rewrite elem_of_nil. tauto.
  - cbn [fold_left].
    pose proof (discoverProject_spec w config projects existing cache name node)
      as Hstep.
    destruct node as [|listing].
    + rewrite Hstep. apply IH.
    + destruct Hstep as (project & cache1 & -> & Hname & Hshown).
      destruct (IH (projects ++ [project])%list ({[ name ]} ∪ existing) cache1)
        as (found & existing' & cache' & -> & Hnames & Hexisting & Hall).
      exists (project :: found), existing', cache'.
      rewrite <- app_assoc. split_and!; [done| | |by constructor].
      * unfold directoryNames in *. cbn. by rewrite Hname, Hnames.
      * intros k. rewrite Hexisting. unfold directoryNames. cbn.
        rewrite elem_of_cons, elem_of_union, elem_of_singleton. tauto.
Qed.

(** A configuration entry adds one project, under its key, when it is
    flagged [manuallyAdded] and no folder has its name. *)
Lemma addConfigured_spec (w : World) (folders : list string)
    (existing : gset string) (projects : list Project.t)
    (cache : gmap string string) (key : string) (entry : ConfigEntry.t) :
  (forall k, k ∈ existing <-> k ∈ folders) ->
  if negb (bool_decide (key ∈ folders))
     && default false (ConfigEntry.manuallyAdded entry)
  then
    exists project cache',
      addConfigured JSON_parse Date_parse w existing (projects, cache)
        (key, entry)
      = ((projects ++ [project])%list, cache')
      /\ madeOf w project (key, entry)
  else
    addConfigured JSON_parse Date_parse w existing (projects, cache) (key, entry)
    = (projects, cache).
Proof.
  intros Hexisting. unfold addConfigured.
  rewrite (bool_decide_ext (key ∈ existing) (key ∈ folders)) by apply Hexisting.
  destruct (negb _ && _); [|done].
  destruct (Js.truthyOpt (ConfigEntry.originalPath entry)) eqn:Hpath.
  - eexists _, _. split; [done|]. unfold madeOf. simpl.
    split_and!; [done|done| |done|done]. intros _.
    destruct (ConfigEntry.originalPath entry) as [path|]; [|done].
    simpl in *. by rewrite Hpath.
  - destruct (extractProjectDirectory _ _ w cache key) as [[dir cache'] ops].
    eexists _, _. split; [done|]. unfold madeOf. simpl.
    split_and!; [done|done| |done|done]. intros Htrue. congruence.
Qed.

Lemma addConfigureds_spec (w : World) (folders : list string)
    (existing : gset string) (entries : ProjectConfig)
    (projects : list Project.t) (cache : gmap string string) :
  (forall k, k ∈ existing <-> k ∈ folders) ->
  exists added cache',
    fold_left (addConfigured JSON_parse Date_parse w existing) entries
      (projects, cache)
    = ((projects ++ added)%list, cache')
    /\ Forall2 (madeOf w) added (manualEntries folders entries).
Proof.
  intros Hexisting. revert projects cache.
  induction entries as [|[key entry] entries IH]; intros projects cache.
  - exists [], cache. rewrite app_nil_r. by split.
  - cbn [fold_left]. unfold manualEntries. cbn [List.filter fst snd].
    pose proof (addConfigured_spec w folders existing projects cache key entry
                  Hexisting) as Hstep.
    destruct (negb _ && _).
    + destruct Hstep as (project & cache1 & -> & Hmade).
      destruct (IH (projects ++ [project])%list cache1)
        as (added & cache' & -> & Hall).
      exists (project :: added), cache'. rewrite <- app_assoc.
      split; [done|by constructor].
    + rewrite Hstep. apply IH.
Qed.

(** The two groups of the list: a project per folder, then a project per
    manually added entry without a folder. *)
Lemma getProjects_spec (w : World) (cache : gmap string string) :
  exists found added,
    (getProjects' w cache).1 = (found ++ added)%list
    /\ Project.name <$> found = projectFolders w
    /\ Forall (shownAs w (loadProjectConfig w)) found
    /\ Forall2 (madeOf w) added
         (manualEntries (projectFolders w) (loadProjectConfig w)).
Proof.
  unfold getProjects.
  assert (Hfirst : exists found existing cache1,
    match projectsDir w with
    | Some entries =>
        fold_left
          (discoverProject JSON_parse Date_parse Date_now w (loadProjectConfig w))
          entries ([], ∅, cache)
    | None => ([], ∅, cache)
    end = (found, existing, cache1)
    /\ Project.name <$> found = projectFolders w
    /\ (forall k, k ∈ existing <-> k ∈ projectFolders w)
    /\ Forall (shownAs w (loadProjectConfig w)) found).
  { unfold projectFolders. destruct (projectsDir w) as [entries|].
    - destruct (discoverProjects_spec w (loadProjectConfig w) entries [] ∅ cache)
        as (found & existing & cache1 & -> & Hnames & Hexisting & Hshown).
      exists found, existing, cache1. split_and!; [done|done| |done].
      intros k. rewrite Hexisting, elem_of_empty. tauto.
    - exists [], ∅, cache. split_and!; [done|done| |done].
      intros k. rewrite elem_of_empty, elem_of_nil. tauto. }
  destruct Hfirst as (found & existing & cache1 & -> & Hnames & Hexisting & Hshown).
  destruct (addConfigureds_spec w (projectFolders w) existing
              (loadProjectConfig w) found cache1 Hexisting)
    as (added & cache' & Hfold & Hadded).
  unfold JsMap.entries. rewrite Hfold. by exists found, added.
Qed.

Lemma manualEntries_elem (folders : list string) (config : ProjectConfig)
    (e : string * ConfigEntry.t) :
  e ∈ manualEntries folders config
  <-> (e ∈ config) /\ (e.1 ∉ folders)
      /\ ConfigEntry.manuallyAdded e.2 = Some true.
Proof.
  unfold manualEntries. rewrite list_elem_of_In, filter_In, <- list_elem_of_In.
  rewrite andb_true_iff, negb_true_iff, bool_decide_eq_false.
  split.
  - intros (Hin & Hnot & Hflag). split_and!; [done|done|].
    by destruct (ConfigEntry.manuallyAdded e.2) as [[|]|].
  - intros (Hin & Hnot & Hflag). rewrite Hflag. by split_and!.
Qed.

Lemma Forall2_fmap_eq {A B C} (f : A -> C) (g : B -> C) (R : A -> B -> Prop)
    (l : list A) (k : list B) :
  (forall a b, R a b -> f a = g b) -> Forall2 R l k -> f <$> l = g <$> k.
Proof.
  intros HR. induction 1 as [|a b l k Hab _ IH]; [done|].
  cbn. by rewrite (HR a b Hab), IH.
Qed.

Lemma manualEntries_NoDup (folders : list string) (config : ProjectConfig) :
  NoDup (JsMap.keys config) -> NoDup (manualEntries folders config).*1.
Proof.
  unfold JsMap.keys, manualEntries.
  induction config as [|[k e] config IH]; [done|].
  cbn. rewrite NoDup_cons. intros [Hk Hnd].
  destruct (negb _ && _); [|by apply IH].
  cbn. apply NoDup_cons. split; [|by apply IH].
  intros Hin. apply Hk. apply list_elem_of_fmap in Hin as (e' & -> & Hin).
  apply list_elem_of_fmap. exists e'. split; [done|].
  apply list_elem_of_In, filter_In in Hin as [Hin _]. by apply list_elem_of_In.
Qed.

(** X1. [getProjects] lists one project per folder of
    [~/.claude/projects], in directory order, followed by one project per
    configuration entry that is flagged [manuallyAdded] and is not the name
    of a folder, in configuration order; when folder names and configuration
    keys are distinct, no name is listed twice. *)
Theorem getProjects_names (w : World) (cache : gmap string string) :
  Project.name <$> (getProjects' w cache).1
  = (projectFolders w
     ++ (manualEntries (projectFolders w) (loadProjectConfig w)).*1)%list
  /\ (NoDup (projectFolders w) ->
      NoDup (JsMap.keys (loadProjectConfig w)) ->
      NoDup (Project.name <$> (getProjects' w cache).1)).
Proof.
  destruct (getProjects_spec w cache)
    as (found & added & Hlist & Hfound & _ & Hadded).
  assert (Hnames : Project.name <$> (getProjects' w cache).1
    = (projectFolders w
       ++ (manualEntries (projectFolders w) (loadProjectConfig w)).*1)%list).
  { rewrite Hlist, fmap_app, Hfound. f_equal.
    eapply Forall2_fmap_eq; [|exact Hadded]. by intros a b [? _]. }
  split; [done|]. intros Hfolders Hkeys. rewrite Hnames.
  apply NoDup_app. split_and!; [done| |by apply manualEntries_NoDup].
  intros k Hk Hin. apply list_elem_of_fmap in Hin as (e & -> & Hin).
  by apply manualEntries_elem in Hin as (_ & Hnot & _).
Qed.

Lemma getProjects_shown_names_aux (w : World) (cache : gmap string string) :
  NoDup (JsMap.keys (loadProjectConfig w)) ->
  Forall (shownAs w (loadProjectConfig w)) (getProjects' w cache).1.
Proof.
  intros Hnd.
  destruct (getProjects_spec w cache)
    as (found & added & -> & _ & Hfound & Hadded).
  apply Forall_app. split; [done|].
  apply Forall_forall. intros project Hin.
  apply list_elem_of_lookup in Hin as [i Hi].
  destruct (Forall2_lookup_l _ _ _ _ _ Hadded Hi)
    as ([key entry] & Hentry & Hname & Hdisplay & _).
  apply list_elem_of_lookup_2, manualEntries_elem in Hentry as [Hentry _].
  apply (JsMapFacts.elem_of_get _ _ _ Hnd) in Hentry.
  unfold shownAs. simpl in *. by rewrite Hname, Hentry, Hdisplay.
Qed.

(** Every project of the list is shown as the configuration says. *)
Lemma getProjects_elem_shown (w : World) (cache : gmap string string)
    (project : Project.t) :
  NoDup (JsMap.keys (loadProjectConfig w)) ->
  project ∈ (getProjects' w cache).1 ->
  shownAs w (loadProjectConfig w) project.
Proof.
  intros Hnd Hin.
  pose proof (getProjects_shown_names_aux w cache Hnd) as Hall.
  rewrite Forall_forall in Hall. by apply Hall.
Qed.

End Catalog.

(** X2. With distinct configuration keys, a listed project whose name has a
    non-empty [displayName] in the configuration is shown under it, and
    every other listed project is shown under the name that
    [generateDisplayName] derives from its [fullPath]. *)
Theorem getProjects_shown_names JSON_parse Date_parse Date_now
    (w : World) (cache : gmap string string) (project : Project.t) :
  NoDup (JsMap.keys (loadProjectConfig w)) ->
  project ∈ (getProjects JSON_parse Date_parse Date_now w cache).1 ->
  let custom :=
    entry ← JsMap.get (Project.name project) (loadProjectConfig w);
    ConfigEntry.displayName entry in
  (forall name, custom = Some name -> name <> "" ->
     Project.displayName project = name)
  /\ (custom = None \/ custom = Some "" ->
      Project.displayName project
      = generateDisplayName w (Project.name project)
          (Some (Project.fullPath project))).
Proof.
  intros Hnd Hin. cbv zeta.
  pose proof (getProjects_elem_shown _ _ _ w cache project Hnd Hin) as Hshown.
  unfold shownAs in Hshown. rewrite Hshown. split.
  - intros name -> Hname. by destruct name.
  - by intros [-> | ->].
Qed.

(** ** Deleting keys of an object *)

Module JsMapDelete.

Lemma get_delete_eq {V} (k : string) (m : JsMap.t V) :
  JsMap.get k (JsMap.delete k m) = None.
Proof.
  induction m as [|[k' v'] m IH]; simpl; [done|].
  destruct (String.eqb k' k) eqn:E; [done|]. simpl. by rewrite E.
Qed.




Lemma keys_delete_subseteq {V} (k : string) (m : JsMap.t V) :
  JsMap.keys (JsMap.delete k m) ⊆ JsMap.keys m.
Proof.
  unfold JsMap.keys. induction m as [|[k' v'] m IH]; simpl; [done|].
  destruct (String.eqb k' k); cbn.
  - by apply list_subseteq_cons.
  - by apply list_subseteq_skip.
Qed.

Lemma NoDup_keys_delete {V} (k : string) (m : JsMap.t V) :
  NoDup (JsMap.keys m) -> NoDup (JsMap.keys (JsMap.delete k m)).
Proof.
  unfold JsMap.keys. induction m as [|[k' v'] m IH]; simpl; [done|].
  rewrite NoDup_cons. intros [Hk Hnd].
  destruct (String.eqb k' k); [by apply IH|].
  cbn. apply NoDup_cons. split; [|by apply IH].
  intros Hin. apply Hk. by apply (keys_delete_subseteq k m).
Qed.

End JsMapDelete.




(** ** renameProject and addProjectManually, then getProjects *)


Section AddManually.

Variable JSON_parse : string -> option SessionEntry.t.
Variable Date_parse : string -> Date.
Variable Date_now : string -> string -> nat -> Z.
Variable path_resolve : string -> string.




(** X6. When [~/.claude/projects] already has an entry under the derived
    identifier, [addProjectManually] throws "Project already exists for
    path", whatever the configuration holds, and changes nothing. *)
Theorem addProjectManually_existing_folder (w : World) (projectPath : string)
    (displayName : option string) (node : Node) :
  let absolutePath := path_resolve projectPath in
  existsb (String.eqb absolutePath) (existingPaths w) = true ->
  lookupProject w (Js.replaceAll "/" "-" absolutePath) = Some node ->
  addProjectManually path_resolve w projectPath displayName
  = (Throw (newError ("Project already exists for path: " ++ absolutePath)), w).
Proof.
  cbv zeta. intros Hexists Hfolder.
  unfold addProjectManually, access, accessProjectDir.
  by rewrite Hexists, Hfolder.
Qed.

End AddManually.

(** ** deleteProject *)

Section DeleteProject.

Variable JSON_parse : string -> option SessionEntry.t.
Variable Date_parse : string -> Date.
Variable Date_now : string -> string -> nat -> Z.

Local Abbreviation isProjectEmpty' :=
  (isProjectEmpty JSON_parse Date_parse Date_now).
Local Abbreviation deleteProject' :=
  (deleteProject JSON_parse Date_parse Date_now).


Lemma lookupProject_rm_eq (w : World) (projectName : string) :
  lookupProject (rmProjectDir w projectName) projectName = None.
Proof.
  unfold lookupProject, rmProjectDir. simpl.
  destruct (projectsDir w); [apply JsMapDelete.get_delete_eq|done].
Qed.



End DeleteProject.


(** ** The sessions of a log file *)

Section Aggregation.

Variable JSON_parse : string -> option SessionEntry.t.
Variable Date_parse : string -> Date.
Variable Date_now : string -> string -> nat -> Z.

Local Abbreviation parseJsonlSessions'' :=
  (parseJsonlSessions JSON_parse Date_parse Date_now).

(** The loop over the lines of a file folds the contributing entries of a
    session into its record; the record is created at the first of them. *)
Lemma processLines_get projectName file lines st sessionId :
  let entries :=
    List.filter (contributes sessionId) (omap (lineEntry JSON_parse) lines) in
  let after :=
    JsMap.get sessionId
      (fold_left (processLine JSON_parse Date_parse Date_now projectName file)
         lines st).1 in
  match JsMap.get sessionId st.1, entries with
  | Some before, _ => after = Some (aggregate Date_parse before entries)
  | None, [] => after = None
  | None, entry :: _ =>
      exists now,
        after = Some (aggregate Date_parse (newSession now entry sessionId)
                        entries)
  end.
Proof.
  cbv zeta. revert st.
  induction lines as [|line lines IH]; intros [sessions lineCount].
  - simpl. by destruct (JsMap.get sessionId sessions).
  - cbn [fold_left].
    destruct (processLine JSON_parse Date_parse Date_now projectName file
                (sessions, lineCount) line) as [sessions' lineCount'] eqn:Hline.
    pose proof (processLine_get JSON_parse Date_parse Date_now projectName
                  file sessions lineCount line sessionId) as Hstep.
    rewrite Hline in Hstep. cbn [fst] in Hstep |- *.
    specialize (IH (sessions', lineCount')). cbn [fst] in IH.
    cbn [omap list_omap].
    destruct (lineEntry JSON_parse line) as [entry|]; simpl;
      [|by rewrite Hstep in IH].
    destruct (contributes sessionId entry); simpl; [|by rewrite Hstep in IH].
    rewrite Hstep in IH.
    destruct (JsMap.get sessionId sessions) as [before|]; simpl in IH; [done|].
    by eexists.
Qed.

Lemma aggregate_id (session : SessionData.t) (entries : list SessionEntry.t) :
  SessionData.id (aggregate Date_parse session entries) = SessionData.id session.
Proof.
  revert session. induction entries as [|e entries IH]; intros session;
    simpl; [done|]. by rewrite IH.
Qed.

Lemma aggregate_cwd (session : SessionData.t) (entries : list SessionEntry.t) :
  SessionData.cwd (aggregate Date_parse session entries)
  = SessionData.cwd session.
Proof.
  revert session. induction entries as [|e entries IH]; intros session;
    simpl; [done|]. by rewrite IH.
Qed.

Lemma aggregate_messageCount (session : SessionData.t)
    (entries : list SessionEntry.t) :
  SessionData.messageCount (aggregate Date_parse session entries)
  = SessionData.messageCount session + Z.of_nat (length entries).
Proof.
  revert session. induction entries as [|e entries IH]; intros session.
  - simpl. lia.
  - cbn [aggregate fold_left]. fold (aggregate Date_parse).
    change (fold_left _ entries ?s) with (aggregate Date_parse s entries).
    rewrite IH. simpl. lia.
Qed.

(** The record of a session of a readable file. *)
Lemma fileSessions_get w projectName file text sessionId :
  readFile w projectName file = Ok text ->
  match contributing JSON_parse sessionId text with
  | [] =>
      JsMap.get sessionId
        (fileSessions JSON_parse Date_parse Date_now w projectName file) = None
  | entry :: rest =>
      exists now,
        JsMap.get sessionId
          (fileSessions JSON_parse Date_parse Date_now w projectName file)
        = Some (aggregate Date_parse (newSession now entry sessionId)
                  (entry :: rest))
  end.
Proof.
  intros Hread. unfold fileSessions, contributing. rewrite Hread.
  pose proof (processLines_get projectName file (Js.readline text)
                (JsMap.empty, 0%nat) sessionId) as Hget.
  cbv zeta in Hget. cbn [fst JsMap.get JsMap.empty] in Hget.
  destruct (List.filter _ _) as [|entry rest]; [done|].
  destruct Hget as [now Hget]. by exists now.
Qed.

(** X9. For a readable log file, [parseJsonlSessions] returns a session for
    an id exactly when some entry of the file bears it (with a truthy
    [sessionId]); its [messageCount] is the number of these entries and its
    [cwd] is the [cwd] of the first of them (the empty string when that
    entry has none). *)
Theorem parseJsonlSessions_counts_entries
    (w : World) (projectName file text sessionId : string) :
  readFile w projectName file = Ok text ->
  let entries := contributing JSON_parse sessionId text in
  (entries = [] ->
   forall session, session ∈ parseJsonlSessions'' w projectName file ->
                   SessionData.id session <> sessionId)
  /\ (forall first rest, entries = first :: rest ->
        exists session,
          session ∈ parseJsonlSessions'' w projectName file
          /\ SessionData.id session = sessionId
          /\ SessionData.messageCount session = Z.of_nat (length entries)
          /\ SessionData.cwd session = Js.orElse (SessionEntry.cwd first) "").
Proof.
  intros Hread. cbv zeta.
  pose proof (fileSessions_get w projectName file text sessionId Hread) as Hget.
  split.
  - intros Hnone session Hin Hid. rewrite Hnone in Hget.
    apply parseJsonlSessions_elem in Hin. rewrite Hid in Hin. congruence.
  - intros first rest Hentries. rewrite Hentries in Hget.
    destruct Hget as [now Hget].
    exists (aggregate Date_parse (newSession now first sessionId)
              (first :: rest)).
    split_and!.
    + apply parseJsonlSessions_elem. rewrite aggregate_id.
      cbn [newSession SessionData.id]. exact Hget.
    + by rewrite aggregate_id.
    + rewrite aggregate_messageCount, Hentries.
      cbn [newSession SessionData.messageCount]. lia.
    + by rewrite aggregate_cwd.
Qed.

End Aggregation.

(** ** The summary of a session *)

Lemma length_append (a b : string) :
  String.length (a ++ b) = (String.length a + String.length b)%nat.
Proof.
  induction a as [|c a IH]; [done|].
  rewrite SplitFacts.append_cons. simpl. by rewrite IH.
Qed.

Lemma length_substring_le (m : nat) (s : string) :
  (String.length (String.substring 0 m s) <= m)%nat.
Proof.
  revert s. induction m as [|m IH]; intros [|c s]; simpl; try lia.
  specialize (IH s). lia.
Qed.

Lemma titleOf_length (c : string) : (String.length (titleOf c) <= 53)%nat.
Proof.
  unfold titleOf. destruct (Nat.ltb_spec 50 (String.length c)); [|lia].
  rewrite length_append. pose proof (length_substring_le 50 c). simpl. lia.
Qed.

Lemma nextSummary_marker (entry : SessionEntry.t) (session : SessionData.t) :
  summaryMarker entry = true ->
  nextSummary entry session = Js.orElse (SessionEntry.summary entry) "".
Proof. unfold nextSummary, summaryMarker. by intros ->. Qed.

Lemma nextSummary_other (entry : SessionEntry.t) (session : SessionData.t) :
  summaryMarker entry = false ->
  nextSummary entry session
  = if String.eqb (SessionData.summary session) "New Session"
    then default (SessionData.summary session) (titleOf <$> titleSource entry)
    else SessionData.summary session.
Proof.
  unfold nextSummary, summaryMarker, titleSource, titleOf. intros ->.
  destruct (SessionEntry.message entry) as [[role content]|]; simpl;
    [|by destruct (String.eqb _ _)].
  destruct (String.eqb role "user"); simpl; [|by destruct (String.eqb _ _)].
  destruct content as [c|]; simpl.
  - destruct (String.eqb (SessionData.summary session) "New Session");
      [|by rewrite andb_false_r].
    rewrite andb_true_r.
    destruct c as [|a c]; [done|]. cbn [Js.truthy String.length Nat.ltb Nat.leb].
    simpl. by destruct (negb _).
  - by destruct (String.eqb _ _).
Qed.

Section Summaries.

Variable Date_parse : string -> Date.

Lemma aggregate_app (session : SessionData.t) (a b : list SessionEntry.t) :
  aggregate Date_parse session (a ++ b)
  = aggregate Date_parse (aggregate Date_parse session a) b.
Proof. apply fold_left_app. Qed.

(** A summary that is not the placeholder is only replaced by a marker. *)
Lemma aggregate_summary_kept (session : SessionData.t)
    (entries : list SessionEntry.t) :
  SessionData.summary session <> "New Session" ->
  Forall (fun e => summaryMarker e = false) entries ->
  SessionData.summary (aggregate Date_parse session entries)
  = SessionData.summary session.
Proof.
  intros Hne Hall. revert session Hne.
  induction Hall as [|e entries He _ IH]; intros session Hne; [done|].
  cbn [aggregate fold_left].
  change (fold_left _ entries ?s) with (aggregate Date_parse s entries).
  assert (Hstep : SessionData.summary (applyEntry Date_parse e session)
                  = SessionData.summary session).
  { cbn [applyEntry SessionData.summary]. rewrite (nextSummary_other _ _ He).
    by destruct (String.eqb_spec (SessionData.summary session) "New Session"). }
  rewrite IH; [done|]. by rewrite Hstep.
Qed.

(** Without markers the placeholder gives way to the first offered title. *)
Lemma aggregate_summary_derived (session : SessionData.t)
    (entries : list SessionEntry.t) :
  SessionData.summary session = "New Session" ->
  Forall (fun e => summaryMarker e = false) entries ->
  SessionData.summary (aggregate Date_parse session entries)
  = default "New Session" (head (offeredTitles entries)).
Proof.
  intros Hnew Hall. revert session Hnew.
  induction Hall as [|e entries He Hall IH]; intros session Hnew; [done|].
  cbn [aggregate fold_left].
  change (fold_left _ entries ?s) with (aggregate Date_parse s entries).
  assert (Hstep : SessionData.summary (applyEntry Date_parse e session)
                  = default "New Session" (titleOf <$> titleSource e)).
  { cbn [applyEntry SessionData.summary]. rewrite (nextSummary_other _ _ He).
    by rewrite Hnew. }
  unfold offeredTitles. cbn [omap list_omap].
  destruct (titleSource e) as [c|]; simpl.
  - destruct (String.eqb_spec (titleOf c) "New Session") as [Heq|Hne]; simpl.
    + apply IH. by rewrite Hstep.
    + rewrite aggregate_summary_kept; [by rewrite Hstep| |done].
      by rewrite Hstep.
  - apply IH. by rewrite Hstep.
Qed.

End Summaries.

Section SessionSummary.

Variable JSON_parse : string -> option SessionEntry.t.
Variable Date_parse : string -> Date.
Variable Date_now : string -> string -> nat -> Z.

(** A session of a readable file is the aggregate of its entries. *)
Lemma parseJsonlSessions_aggregate w projectName file text session :
  readFile w projectName file = Ok text ->
  session ∈ parseJsonlSessions JSON_parse Date_parse Date_now w projectName file ->
  exists now first rest,
    contributing JSON_parse (SessionData.id session) text = first :: rest
    /\ session
       = aggregate Date_parse
           (newSession now first (SessionData.id session)) (first :: rest).
Proof.
  intros Hread Hin. apply parseJsonlSessions_elem in Hin.
  pose proof (fileSessions_get JSON_parse Date_parse Date_now w projectName
                file text (SessionData.id session) Hread) as Hget.
  destruct (contributing _ _ _) as [|first rest]; [congruence|].
  destruct Hget as [now Hget]. exists now, first, rest.
  split; [done|]. congruence.
Qed.

(** X10. In a session of a readable log file, the last entry of type
    [summary] with a non-empty text decides the summary: when that text is
    not the placeholder "New Session", the user messages that follow do not
    replace it. *)
Theorem summary_marker_decides
    (w : World) (projectName file text : string) (session : SessionData.t)
    (pre post : list SessionEntry.t) (marker : SessionEntry.t)
    (title : string) :
  readFile w projectName file = Ok text ->
  session ∈ parseJsonlSessions JSON_parse Date_parse Date_now w projectName file ->
  contributing JSON_parse (SessionData.id session) text
  = (pre ++ marker :: post)%list ->
  summaryMarker marker = true ->
  SessionEntry.summary marker = Some title ->
  title <> "New Session" ->
  Forall (fun e => summaryMarker e = false) post ->
  SessionData.summary session = title.
Proof.
  intros Hread Hin Hsplit Hmarker Htitle Hne Hpost.
  destruct (parseJsonlSessions_aggregate _ _ _ _ _ Hread Hin)
    as (now & first & rest & Hentries & Hsession).
  rewrite Hsession, <- Hentries, Hsplit, aggregate_app.
  cbn [aggregate fold_left].
  change (fold_left _ post ?s) with (aggregate Date_parse s post).
  assert (Hstep : forall s,
            SessionData.summary (applyEntry Date_parse marker s) = title).
  { intros s. cbn [applyEntry SessionData.summary].
    rewrite (nextSummary_marker _ _ Hmarker), Htitle.
    unfold summaryMarker in Hmarker. rewrite Htitle in Hmarker.
    apply andb_true_iff in Hmarker as [_ Htruthy]. simpl in *.
    by rewrite Htruthy. }
  rewrite aggregate_summary_kept; [apply Hstep| |done]. by rewrite Hstep.
Qed.

(** X11. In a session of a readable log file without such entries of type
    [summary], the summary is the title of the first user message whose
    content is a non-empty string not starting with [<command-name>] (the
    content itself, or its first 50 characters followed by "..."), a title
    equal to the placeholder not counting; without such a message it is
    "New Session".  It has at most 53 characters. *)
Theorem summary_from_first_user_message
    (w : World) (projectName file text : string) (session : SessionData.t) :
  readFile w projectName file = Ok text ->
  session ∈ parseJsonlSessions JSON_parse Date_parse Date_now w projectName file ->
  let entries := contributing JSON_parse (SessionData.id session) text in
  Forall (fun e => summaryMarker e = false) entries ->
  SessionData.summary session
  = default "New Session" (head (offeredTitles entries))
  /\ (String.length (SessionData.summary session) <= 53)%nat.
Proof.
  intros Hread Hin. cbv zeta. intros Hall.
  destruct (parseJsonlSessions_aggregate _ _ _ _ _ Hread Hin)
    as (now & first & rest & Hentries & Hsession).
  assert (Hsummary : SessionData.summary session
            = default "New Session"
                (head (offeredTitles
                         (contributing JSON_parse (SessionData.id session) text)))).
  { rewrite Hsession at 1. rewrite <- Hentries.
    by apply aggregate_summary_derived. }
  split; [done|]. rewrite Hsummary.
  destruct (head _) as [t|] eqn:Hhead; simpl; [|lia].
  apply head_Some_elem_of in Hhead. unfold offeredTitles in Hhead.
  apply list_elem_of_In, filter_In in Hhead as [Hhead _].
  apply list_elem_of_In, list_elem_of_fmap in Hhead as (c & -> & _).
  apply titleOf_length.
Qed.

End SessionSummary.

(** ** The page of getSessions *)

Lemma StronglySorted_sublist {A} (R : A -> A -> Prop) (l1 l2 : list A) :
  l1 `sublist_of` l2 -> StronglySorted R l2 -> StronglySorted R l1.
Proof.
  induction 1 as [|x l1 l2 Hsub IH|x l1 l2 Hsub IH]; intros Hsorted.
  - constructor.
  - apply StronglySorted_inv in Hsorted as [Hsorted Hx].
    constructor; [by apply IH|].
    rewrite Forall_forall in Hx. apply Forall_forall. intros y Hy.
    apply Hx. by eapply elem_of_sublist.
  - apply StronglySorted_inv in Hsorted as [Hsorted _]. by apply IH.
Qed.

Lemma slice_sublist {A} (start end_ : Z) (l : list A) :
  Js.slice start end_ l `sublist_of` l.
Proof.
  unfold Js.slice. etrans; [apply sublist_take|apply sublist_drop].
Qed.

Lemma wellKeyed_ids (m : JsMap.t SessionData.t) :
  wellKeyed m -> SessionData.id <$> JsMap.values m = JsMap.keys m.
Proof.
  intros [_ Hid]. unfold JsMap.values, JsMap.keys.
  induction m as [|[k s] m IH]; [done|]. simpl. f_equal.
  - apply Hid. by left.
  - apply IH. intros k' s' Hin. apply Hid. by right.
Qed.

Lemma mapM_toSession_ids (sessions : list SessionData.t)
    (converted : list Session.t) :
  mapM toSession sessions = Ok converted ->
  Session.id <$> converted = SessionData.id <$> sessions.
Proof.
  intros Hconv%mapM_Forall2.
  induction Hconv as [|s x sessions converted Hsx _ IH]; [done|].
  simpl. f_equal; [by apply toSession_id|done].
Qed.

Section Page.

Variable JSON_parse : string -> option SessionEntry.t.
Variable Date_parse : string -> Date.
Variable Date_now : string -> string -> nat -> Z.

Local Abbreviation getSessions' :=
  (getSessions JSON_parse Date_parse Date_now).
Local Abbreviation collectSessions'' :=
  (collectSessions JSON_parse Date_parse Date_now).

(** X12. The page [getSessions] returns never lists a session id twice, and
    its sessions are in descending order of [updated_at]. *)
Theorem getSessions_page_distinct_sorted
    (w : World) (projectName : string) (limit offset : Z)
    (r : SessionsResult.t) :
  getSessions' w projectName limit offset = Ok r ->
  NoDup (Session.id <$> SessionsResult.sessions r)
  /\ StronglySorted (fun a b => Session.updated_at b <= Session.updated_at a)
       (SessionsResult.sessions r).
Proof.
  intros [->|(files & filesWithStats & converted & _ & _ & Hconv & -> & _)]
    %getSessions_cases.
  { split; constructor. }
  split.
  - set (sorted := Js.sort _ converted).
    assert (Hsub : Session.id <$> Js.slice offset (offset + limit) sorted
                   `sublist_of` Session.id <$> sorted).
    { unfold Js.slice. cbv zeta. rewrite fmap_take, fmap_drop.
      etrans; [apply sublist_take|apply sublist_drop]. }
    apply (sublist_NoDup _ (Session.id <$> sorted)); [|done]. unfold sorted.
    rewrite JsFacts.sort_Permutation, (mapM_toSession_ids _ _ Hconv).
    assert (Hwk : wellKeyed
              (collectSessions'' w projectName limit offset
                 (Z.of_nat (length filesWithStats)) filesWithStats
                 JsMap.empty 0))
      by apply collectSessions_wellKeyed, wellKeyed_empty.
    rewrite (wellKeyed_ids _ Hwk). apply Hwk.
  - eapply StronglySorted_sublist; [apply slice_sublist|].
    apply (JsFacts.sort_descending Session.updated_at).
Qed.

End Page.

(** ** The total of getSessions and the early end of its loop *)

Lemma get_is_Some_keys {V} (k : string) (m : JsMap.t V) :
  is_Some (JsMap.get k m) <-> k ∈ JsMap.keys m.
Proof.
  pose proof (JsMapFacts.get_None_keys k m) as Hnone.
  destruct (JsMap.get k m) as [v|] eqn:Hget.
  - split; [|by eexists]. intros _.
    destruct (decide (k ∈ JsMap.keys m)) as [|Hnot]; [done|].
    apply Hnone in Hnot. congruence.
  - split; [by intros [? ?]|]. intros Hin. exfalso. by apply Hnone.
Qed.

Lemma size_set_le {V} (k : string) (v : V) (m : JsMap.t V) :
  (JsMap.size m <= JsMap.size (JsMap.set k v m))%nat.
Proof.
  unfold JsMap.size. induction m as [|[k' v'] m IH]; simpl; [lia|].
  destruct (String.eqb k' k); simpl; lia.
Qed.

Lemma mergeSessions_size_le (sessions : list SessionData.t)
    (all : JsMap.t SessionData.t) :
  (JsMap.size all <= JsMap.size (mergeSessions sessions all))%nat.
Proof.
  revert all. induction sessions as [|s sessions IH]; intros all; simpl;
    [done|].
  etrans; [|apply IH]. destruct (JsMap.has _ all); [done|apply size_set_le].
Qed.

Lemma sortedFilesWithStats_all (w : World) (projectName : string)
    (jsonlFiles : list string) (filesWithStats : list (string * Z))
    (file : string) :
  sortedFilesWithStats w projectName jsonlFiles = Ok filesWithStats ->
  file ∈ jsonlFiles -> exists mtime, (file, mtime) ∈ filesWithStats.
Proof.
  unfold sortedFilesWithStats.
  destruct (mapM _ jsonlFiles) as [stats|] eqn:Hstats; simpl; [|done].
  intros [= <-] Hin. apply mapM_Forall2 in Hstats.
  apply list_elem_of_lookup in Hin as [i Hi].
  destruct (Forall2_lookup_l _ _ _ _ _ Hstats Hi) as ([f t] & Hft & Hstat).
  destruct (stat w projectName file) as [mtime|]; simpl in Hstat; [|done].
  injection Hstat as <- <-. exists mtime.
  rewrite JsFacts.sort_Permutation. by eapply list_elem_of_lookup_2.
Qed.

Section Complete.

Variable JSON_parse : string -> option SessionEntry.t.
Variable Date_parse : string -> Date.
Variable Date_now : string -> string -> nat -> Z.

Local Abbreviation collectSessions3 :=
  (collectSessions JSON_parse Date_parse Date_now).
Local Abbreviation fileSessions3 :=
  (fileSessions JSON_parse Date_parse Date_now).

(** When the loop ends with fewer than [(limit + offset) * 2] sessions, it
    did not end early: the sessions of every file were merged. *)
Lemma collectSessions_complete w projectName limit offset n files all count :
  Z.of_nat
    (JsMap.size
       (collectSessions3 w projectName limit offset n files all count))
  < (limit + offset) * 2 ->
  forall file mtime i,
    (file, mtime) ∈ files ->
    is_Some (JsMap.get i (fileSessions3 w projectName file)) ->
    is_Some
      (JsMap.get i
         (collectSessions3 w projectName limit offset n files all count)).
Proof.
  revert all count. induction files as [|[file0 mtime0] files IH];
    intros all count Hsize file mtime i Hin Hfile.
  - by apply elem_of_nil in Hin.
  - simpl in Hsize |- *.
    destruct (_ && _) eqn:Hbreak.
    + apply andb_true_iff in Hbreak as [Hfull _]. apply Z.leb_le in Hfull. lia.
    + apply elem_of_cons in Hin as [[= -> ->]|Hin]; [|by eapply IH].
      destruct Hfile as [s Hs].
      pose proof (wellKeyed_get _ _ _
                    (fileSessions_wellKeyed JSON_parse Date_parse Date_now
                       w projectName file0) Hs) as Hid.
      assert (Hmem : s ∈ parseJsonlSessions JSON_parse Date_parse Date_now
                         w projectName file0).
      { apply parseJsonlSessions_elem. by rewrite Hid. }
      destruct (mergeSessions_has _ all _ Hmem) as [s' Hs'].
      rewrite Hid in Hs'. exists s'. by apply collectSessions_keeps.
Qed.

(** X13. When [getSessions] reports a total that is positive and less than
    [(limit + offset) * 2], the total is the number of distinct session ids
    of all the log files of the project: the loop over the files did not
    end early. *)
Theorem getSessions_total_counts_every_session
    (w : World) (projectName : string) (limit offset : Z)
    (r : SessionsResult.t) (files : list string) :
  getSessions JSON_parse Date_parse Date_now w projectName limit offset = Ok r ->
  readdir w projectName = Ok files ->
  0 < SessionsResult.total r < (limit + offset) * 2 ->
  SessionsResult.total r
  = Z.of_nat
      (length
         (projectSessionIds JSON_parse Date_parse Date_now w projectName
            (List.filter (Js.endsWith ".jsonl") files))).
Proof.
  intros Hget Hdir [Hpos Hbound].
  apply getSessions_cases in Hget
    as [->|(files' & filesWithStats & converted & Hdir' & Hstats & Hconv
            & _ & Htotal)]; [done|].
  rewrite Hdir in Hdir'. injection Hdir' as <-.
  set (collected := collectSessions3 w projectName limit offset
                      (Z.of_nat (length filesWithStats)) filesWithStats
                      JsMap.empty 0) in *.
  assert (Hlen : length converted = length (JsMap.keys collected)).
  { rewrite (mapM_length _ _ _ Hconv). unfold JsMap.values, JsMap.keys.
    by rewrite !length_fmap. }
  rewrite Htotal, Hlen. f_equal. apply Permutation_length.
  assert (Hwk : wellKeyed collected)
    by apply collectSessions_wellKeyed, wellKeyed_empty.
  apply NoDup_Permutation; [apply Hwk|apply NoDup_remove_dups|].
  intros i. unfold projectSessionIds.
  rewrite elem_of_remove_dups, list_elem_of_bind. split.
  - intros [s Hs]%get_is_Some_keys.
    apply collectSessions_origin in Hs
      as [Hs|(_ & pre & file & mtime & post & Hsplit & _ & Hfile)]; [done|].
    exists file. split.
    + apply get_is_Some_keys. by eexists.
    + destruct (sortedFilesWithStats_order _ _ _ _ Hstats) as [_ Hall].
      rewrite Forall_forall in Hall.
      apply (Hall (file, mtime)). rewrite Hsplit.
      apply elem_of_app. right. by left.
  - intros (file & Hi & Hfile).
    destruct (sortedFilesWithStats_all _ _ _ _ _ Hstats Hfile) as [mtime Hin].
    apply get_is_Some_keys.
    eapply collectSessions_complete; [|exact Hin|by apply get_is_Some_keys].
    fold collected. unfold JsMap.size, JsMap.keys in *.
    rewrite length_fmap in Hlen. lia.
Qed.

End Complete.

(** ** getSessionMessages *)

Lemma insertBy_ext_in {A} (compare compare' : A -> A -> Z) (x : A) (l : list A) :
  (forall y, y ∈ l -> compare x y = compare' x y) ->
  Js.insertBy compare x l = Js.insertBy compare' x l.
Proof.
  induction l as [|y l IH]; intros Hext; simpl; [done|].
  rewrite (Hext y) by (by left). rewrite IH; [done|].
  intros z Hz. apply Hext. by right.
Qed.

Lemma sort_ext_in {A} (compare compare' : A -> A -> Z) (l : list A) :
  (forall x y, x ∈ l -> y ∈ l -> compare x y = compare' x y) ->
  Js.sort compare l = Js.sort compare' l.
Proof.
  induction l as [|x l IH]; intros Hext; simpl; [done|].
  rewrite IH by (intros y z Hy Hz; apply Hext; by right).
  apply insertBy_ext_in. intros y Hy.
  rewrite JsFacts.sort_Permutation in Hy. apply Hext; [by left|by right].
Qed.

Lemma filter_length_le {A} (f g : A -> bool) (l : list A) :
  (forall x, f x = true -> g x = true) ->
  (length (List.filter f l) <= length (List.filter g l))%nat.
Proof.
  intros Hfg. induction l as [|x l IH]; simpl; [done|].
  destruct (f x) eqn:Hf.
  - rewrite (Hfg x Hf). simpl. lia.
  - destruct (g x); simpl; lia.
Qed.

Section Messages.

Variable JSON_parse : string -> option SessionEntry.t.
Variable Date_parse : string -> Date.

Local Abbreviation getSessionMessages' :=
  (getSessionMessages JSON_parse Date_parse).

Lemma collectMessage_lines (sessionId : string) (lines : list string)
    (messages : list SessionEntry.t) :
  fold_left (collectMessage JSON_parse sessionId) lines messages
  = (messages
     ++ List.filter (bears sessionId) (omap (lineEntry JSON_parse) lines))%list.
Proof.
  revert messages. induction lines as [|line lines IH]; intros messages.
  - simpl. by rewrite app_nil_r.
  - cbn [fold_left omap list_omap]. rewrite IH.
    unfold collectMessage, lineEntry, bears.
    destruct (Js.truthy (Js.trim line)); [|done].
    destruct (JSON_parse line) as [entry|]; [|done]. simpl.
    destruct (SessionEntry.sessionId entry) as [s|]; [|done].
    destruct (String.eqb s sessionId); [|done].
    by rewrite <- app_assoc.
Qed.

Lemma bearing_cons (sessionId text : string) (texts : list string) :
  bearing JSON_parse sessionId (text :: texts)
  = (List.filter (bears sessionId)
       (omap (lineEntry JSON_parse) (Js.readline text))
     ++ bearing JSON_parse sessionId texts)%list.
Proof.
  unfold bearing. simpl. by rewrite omap_app, List.filter_app.
Qed.

(** When every file opens, the loop collects the entries of the session in
    reading order. *)
Lemma collectMessages_ok (w : World) (projectName sessionId : string)
    (jsonlFiles texts : list string) (messages : list SessionEntry.t) :
  mapM (readFile w projectName) jsonlFiles = Ok texts ->
  collectMessages JSON_parse w projectName sessionId jsonlFiles messages
  = Ok (messages ++ bearing JSON_parse sessionId texts)%list.
Proof.
  intros Hread%mapM_Forall2. revert messages.
  induction Hread as [|file text jsonlFiles texts Hfile _ IH]; intros messages.
  - simpl. by rewrite app_nil_r.
  - cbn [collectMessages]. rewrite Hfile. simpl.
    rewrite IH, collectMessage_lines, bearing_cons. by rewrite <- app_assoc.
Qed.

Lemma collectMessages_bears (w : World) (projectName sessionId : string)
    (jsonlFiles : list string) (messages collected : list SessionEntry.t) :
  collectMessages JSON_parse w projectName sessionId jsonlFiles messages
  = Ok collected ->
  Forall (fun e => bears sessionId e = true) messages ->
  Forall (fun e => bears sessionId e = true) collected.
Proof.
  revert messages. induction jsonlFiles as [|file jsonlFiles IH];
    intros messages; simpl.
  - by intros [= <-].
  - destruct (readFile w projectName file) as [text|]; simpl; [|done].
    intros Hrest Hall. apply (IH _ Hrest).
    rewrite collectMessage_lines. apply Forall_app. split; [done|].
    apply Forall_filter_true.
Qed.

Lemma bears_sessionId (sessionId : string) (entry : SessionEntry.t) :
  bears sessionId entry = true -> SessionEntry.sessionId entry = Some sessionId.
Proof.
  unfold bears. destruct (SessionEntry.sessionId entry) as [s|]; [|done].
  by intros ->%String.eqb_eq.
Qed.

(** X14. [getSessionMessages] never throws, and every entry it returns
    bears the requested [sessionId]. *)
Theorem getSessionMessages_only_session
    (w : World) (projectName sessionId : string) :
  exists messages,
    getSessionMessages' w projectName sessionId = Ok messages
    /\ Forall (fun e => SessionEntry.sessionId e = Some sessionId) messages.
Proof.
  unfold getSessionMessages.
  destruct (readdir w projectName) as [files|]; simpl; [|by exists []].
  destruct (length _ =? 0)%nat; simpl; [by exists []|].
  destruct (collectMessages _ _ _ _ _ _) as [collected|] eqn:Hcoll; simpl;
    [|by exists []].
  eexists. split; [done|]. rewrite JsFacts.sort_Permutation.
  apply collectMessages_bears in Hcoll; [|constructor].
  eapply Forall_impl; [exact Hcoll|]. intros e. apply bears_sessionId.
Qed.

(** What the call returns when every file opens. *)
Lemma getSessionMessages_ok
    (w : World) (projectName sessionId : string) (files texts : list string) :
  readdir w projectName = Ok files ->
  mapM (readFile w projectName) (List.filter (Js.endsWith ".jsonl") files)
  = Ok texts ->
  getSessionMessages' w projectName sessionId
  = Ok (Js.sort
          (fun a b => timeDiff (entryTime Date_parse a) (entryTime Date_parse b))
          (bearing JSON_parse sessionId texts)).
Proof.
  intros Hdir Hread. unfold getSessionMessages. rewrite Hdir. simpl.
  destruct (length _ =? 0)%nat eqn:Hnone; simpl.
  { apply Nat.eqb_eq, nil_length_inv in Hnone. rewrite Hnone in Hread.
    by injection Hread as <-. }
  by rewrite (collectMessages_ok _ _ _ _ _ _ Hread).
Qed.

(** X15. When the folder can be listed and every log file opens,
    [getSessionMessages] returns exactly the entries of the files that bear
    the [sessionId], each as often as it occurs; when their timestamps are
    valid dates (an entry without timestamp counting as time 0) they are in
    ascending order of time. *)
Theorem getSessionMessages_complete_sorted
    (w : World) (projectName sessionId : string) (files texts : list string) :
  readdir w projectName = Ok files ->
  mapM (readFile w projectName) (List.filter (Js.endsWith ".jsonl") files)
  = Ok texts ->
  exists messages,
    getSessionMessages' w projectName sessionId = Ok messages
    /\ messages ≡ₚ bearing JSON_parse sessionId texts
    /\ (Forall (fun e => is_Some (entryTime Date_parse e)) messages ->
        StronglySorted
          (fun a b => default 0 (entryTime Date_parse a)
                      <= default 0 (entryTime Date_parse b))
          messages).
Proof.
  intros Hdir Hread.
  rewrite (getSessionMessages_ok w projectName sessionId files texts Hdir Hread).
  eexists. split; [done|]. split; [apply JsFacts.sort_Permutation|].
  intros Hvalid.
  set (key := fun e => - default 0 (entryTime Date_parse e)).
  rewrite (sort_ext_in _ (fun a b => key b - key a)).
  - eapply JsFacts.StronglySorted_weaken; [|apply (JsFacts.sort_descending key)].
    unfold key. intros a b. simpl. lia.
  - rewrite Forall_forall in Hvalid. intros a b Ha Hb.
    rewrite <- JsFacts.sort_Permutation in Ha, Hb.
    destruct (Hvalid a Ha) as [ta Hta], (Hvalid b Hb) as [tb Htb].
    unfold key, timeDiff. rewrite Hta, Htb. simpl. lia.
Qed.

End Messages.

(** ** getSessions and getSessionMessages *)

Lemma toSession_message_count (s : SessionData.t) (x : Session.t) :
  toSession s = Ok x -> Session.message_count x = SessionData.messageCount s.
Proof.
  unfold toSession. destruct (SessionData.lastActivity s); simpl; [|done].
  by intros [= <-].
Qed.

Lemma contributes_bears (sessionId : string) (entry : SessionEntry.t) :
  contributes sessionId entry = true -> bears sessionId entry = true.
Proof.
  unfold contributes, bears.
  destruct (SessionEntry.sessionId entry) as [s|]; [|done].
  by intros [? _]%andb_true_iff.
Qed.

Lemma bearing_length_ge JSON_parse (sessionId text : string)
    (texts : list string) :
  text ∈ texts ->
  (length (contributing JSON_parse sessionId text)
   <= length (bearing JSON_parse sessionId texts))%nat.
Proof.
  induction texts as [|text' texts IH]; intros Hin.
  - by apply elem_of_nil in Hin.
  - rewrite bearing_cons, length_app.
    apply elem_of_cons in Hin as [->|Hin].
    + unfold contributing.
      pose proof (filter_length_le (contributes sessionId) (bears sessionId)
                    (omap (lineEntry JSON_parse) (Js.readline text'))
                    (contributes_bears sessionId)).
      lia.
    + specialize (IH Hin). lia.
Qed.

(** X16. When every log file of the project opens, a session that
    [getSessions] lists has a positive [message_count], and
    [getSessionMessages] returns at least that many entries for its id: the
    count is taken from the one file the session was read from, the
    messages from all files. *)
Theorem message_count_le_messages JSON_parse Date_parse Date_now
    (w : World) (projectName : string) (limit offset : Z)
    (r : SessionsResult.t) (x : Session.t) (files texts : list string) :
  getSessions JSON_parse Date_parse Date_now w projectName limit offset = Ok r ->
  x ∈ SessionsResult.sessions r ->
  readdir w projectName = Ok files ->
  mapM (readFile w projectName) (List.filter (Js.endsWith ".jsonl") files)
  = Ok texts ->
  exists messages,
    getSessionMessages JSON_parse Date_parse w projectName (Session.id x)
    = Ok messages
    /\ 0 < Session.message_count x <= Z.of_nat (length messages).
Proof.
  intros Hget Hx Hdir Hread.
  rewrite (getSessionMessages_ok JSON_parse Date_parse w projectName
             (Session.id x) files texts Hdir Hread).
  eexists. split; [done|].
  rewrite (Permutation_length (JsFacts.sort_Permutation _ _)).
  apply getSessions_cases in Hget
    as [->|(files' & filesWithStats & converted & Hdir' & Hstats & Hconv
            & Hpage & _)]; [by apply elem_of_nil in Hx|].
  rewrite Hdir in Hdir'. injection Hdir' as <-.
  rewrite Hpage in Hx. apply slice_elem in Hx.
  rewrite JsFacts.sort_Permutation in Hx.
  destruct (mapM_elem _ _ _ _ Hconv Hx) as (s & Hs & Hsx).
  apply wellKeyed_value in Hs;
    [|apply collectSessions_wellKeyed, wellKeyed_empty].
  rewrite <- (toSession_id _ _ Hsx) in Hs.
  apply collectSessions_origin in Hs
    as [Hs|(_ & pre & file & mtime & post & Hsplit & _ & Hfile)]; [done|].
  assert (Hjsonl : file ∈ List.filter (Js.endsWith ".jsonl") files).
  { destruct (sortedFilesWithStats_order _ _ _ _ Hstats) as [_ Hall].
    rewrite Forall_forall in Hall. apply (Hall (file, mtime)).
    rewrite Hsplit. apply elem_of_app. right. by left. }
  apply list_elem_of_lookup in Hjsonl as [i Hi].
  destruct (Forall2_lookup_l _ _ _ _ _ (mapM_Forall2 _ _ _ Hread) Hi)
    as (text & Htext & Hfileread).
  apply list_elem_of_lookup_2 in Htext.
  pose proof (bearing_length_ge JSON_parse (Session.id x) text texts Htext)
    as Hle.
  pose proof (fileSessions_get JSON_parse Date_parse Date_now w projectName
                file text (Session.id x) Hfileread) as Hagg.
  destruct (contributing JSON_parse (Session.id x) text) as [|first rest];
    [congruence|].
  destruct Hagg as [now Hagg]. rewrite Hfile in Hagg. injection Hagg as ->.
  rewrite (toSession_message_count _ _ Hsx), aggregate_messageCount.
  cbn [newSession SessionData.messageCount]. simpl in Hle |- *. lia.
Qed.

(** ** The directory of a project is the decoded name or an observed one *)

Lemma chooseDirectory_observed (projectName : string) (st : ScanState) :
  scanInv st ->
  chooseDirectory projectName st = Js.replaceAll "-" "/" projectName
  \/ chooseDirectory projectName st ∈ JsMap.keys (cwdCounts st).
Proof.
  intros Hinv. pose proof (chooseDirectory_rule projectName st Hinv) as Hrule.
  unfold decisionRule in Hrule.
  destruct Hinv as (_ & _ & Hlatest).
  destruct (cwdCounts st) as [|[k1 v1] [|[k2 v2] rest]] eqn:Hcounts.
  - by left.
  - right. simpl in Hrule |- *. rewrite Hrule. by left.
  - right. set (counts := (k1, v1) :: (k2, v2) :: rest) in *.
    change (JsMap.keys counts) with (k1 :: k2 :: JsMap.keys rest) in Hrule.
    cbv zeta in Hrule. cbv iota in Hrule.
    destruct Hrule as (_ & _ & Hrecent & Hmost).
    destruct (reasonableUsage
                (default 0 (c ← latestCwd st; JsMap.get c counts))
                (Math_max (JsMap.values counts))) eqn:Hreasonable.
    + apply reasonableUsage_spec in Hreasonable.
      apply get_is_Some_keys, Hlatest, Hrecent, Hreasonable.
    + destruct Hmost as (before & after & Hsplit & _).
      { intros Hyes%reasonableUsage_spec. congruence. }
      rewrite Hsplit. unfold JsMap.keys. rewrite fmap_app.
      apply elem_of_app. right. by left.
Qed.

Lemma firstSeen_elem (paths seen : list string) (x : string) :
  x ∈ fold_left
        (fun seen cwd =>
           if bool_decide (cwd ∈ seen) then seen else (seen ++ [cwd])%list)
        paths seen ->
  x ∈ seen \/ x ∈ paths.
Proof.
  revert seen. induction paths as [|p paths IH]; intros seen Hin;
    simpl in *; [by left|].
  apply IH in Hin as [Hin|Hin]; [|right; by right].
  case_bool_decide; [by left|].
  apply elem_of_app in Hin as [?|Hin]; [by left|].
  apply list_elem_of_singleton in Hin. subst. right. by left.
Qed.

Lemma castVotes_observed (vs : list (string * option Z)) (cwd : string) :
  cwd ∈ JsMap.keys (cwdCounts (fold_left castVote vs initialScan)) ->
  cwd ∈ vs.*1.
Proof.
  rewrite castVotes_keys. intros [Hin|Hin]%firstSeen_elem; [|done].
  by apply elem_of_nil in Hin.
Qed.

Lemma scanFiles_throw JSON_parse Date_parse w projectName files st e :
  mapM (readFile w projectName) files = Throw e ->
  exists e', (scanFiles JSON_parse Date_parse w projectName files st).1 = Throw e'.
Proof.
  revert e st. induction files as [|file files IH]; simpl; intros e st;
    [done|].
  destruct (readFile w projectName file) as [text|]; simpl; [|by eexists].
  destruct (mapM _ files) as [texts'|e''] eqn:Hrest; simpl; [done|].
  intros _.
  destruct (IH e'' (scanText JSON_parse Date_parse st text) eq_refl)
    as [e' He'].
  destruct (scanFiles _ _ _ _ _ _) as [r ops]. simpl in *. by exists e'.
Qed.

(** X17. For a project that is not cached, the directory
    [extractProjectDirectory] returns is the project name with every hyphen
    replaced by a slash, or a [cwd] recorded in an entry of one of the
    project's log files. *)
Theorem extractProjectDirectory_decoded_or_observed JSON_parse Date_parse
    (w : World) (cache : gmap string string) (projectName : string) :
  cache !! projectName = None ->
  let path :=
    (extractProjectDirectory JSON_parse Date_parse w cache projectName).1.1 in
  path = Js.replaceAll "-" "/" projectName
  \/ exists files texts,
       readdir w projectName = Ok files
       /\ mapM (readFile w projectName)
            (List.filter (Js.endsWith ".jsonl") files) = Ok texts
       /\ path ∈ (votes JSON_parse Date_parse texts).*1.
Proof.
  intros Hcache. cbv zeta. unfold extractProjectDirectory. rewrite Hcache.
  destruct (readdir w projectName) as [files|] eqn:Hdir; [|by left].
  destruct (length _ =? 0)%nat; [by left|].
  destruct (mapM (readFile w projectName)
              (List.filter (Js.endsWith ".jsonl") files))
    as [texts|e] eqn:Hread.
  - pose proof (scanFiles_ok JSON_parse Date_parse _ _ _ _ initialScan Hread)
      as Hscan.
    destruct (scanFiles _ _ _ _ _ _) as [r ops]. simpl in Hscan. subst r.
    simpl.
    destruct (chooseDirectory_observed projectName
                (fold_left (scanText JSON_parse Date_parse) texts initialScan))
      as [Hfallback|Hobserved];
      [apply scanTexts_inv, scanInv_initial|by left|].
    right. exists files, texts. split_and!; [done..|].
    rewrite scanTexts_votes in Hobserved at 2.
    by apply castVotes_observed.
  - destruct (scanFiles_throw JSON_parse Date_parse _ _ _ initialScan _ Hread)
      as [e' He'].
    destruct (scanFiles _ _ _ _ _ _) as [r ops]. simpl in He'. subst r.
    by left.
Qed.

(** ** deleteSession, called again *)

Lemma writeFile_readdir (w w' : World) (projectName file text : string)
    (now : Z) :
  writeFile w projectName file text now = (Ok tt, w') ->
  readdir w' projectName = readdir w projectName.
Proof.
  unfold writeFile, readdir.
  destruct (readdirFiles w projectName) as [files|] eqn:Hdir; [|done].
  destruct (JsMap.get file files) as [f|] eqn:Hfile; [|done].
  destruct (writable f); [|done]. intros [= <-].
  apply readdirFiles_inv in Hdir. unfold lookupProject in Hdir.
  unfold readdirFiles, lookupProject, setListing. simpl.
  destruct (projectsDir w) as [entries|]; [|done].
  rewrite JsMapFacts.get_set_eq. simpl.
  rewrite JsMapFacts.keys_set_present; [done|].
  apply get_is_Some_keys. by eexists.
Qed.

Lemma existsb_filter_negb {A} (f : A -> bool) (l : list A) :
  existsb f (List.filter (fun x => negb (f x)) l) = false.
Proof.
  induction l as [|x l IH]; simpl; [done|].
  destruct (f x) eqn:Hx; simpl; [done|]. by rewrite Hx.
Qed.

(** X18. After [deleteSession] has removed a session from the first log
    file that held it, and when no other log file of the project holds it,
    a second [deleteSession] for the same id throws and changes nothing. *)
Theorem deleteSession_again_throws JSON_parse fs_now
    (w : World) (projectName sessionId : string) (files : list string)
    (pre post : list string) (file text : string) (mtime : option Z) :
  readdir w projectName = Ok files ->
  List.filter (Js.endsWith ".jsonl") files = (pre ++ file :: post)%list ->
  Forall (fun f => exists text',
            readFile w projectName f = Ok text'
            /\ existsb (lineHasSession JSON_parse sessionId) (fileLines text')
               = false) pre ->
  lookupFile w projectName file = Some (mkFile (Some text) mtime true) ->
  existsb (lineHasSession JSON_parse sessionId) (fileLines text) = true ->
  Forall (fun f => forall text',
            readFile w projectName f = Ok text' ->
            existsb (lineHasSession JSON_parse sessionId) (fileLines text')
            = false) post ->
  exists w' e,
    deleteSession JSON_parse fs_now w projectName sessionId = (Ok true, w')
    /\ deleteSession JSON_parse fs_now w' projectName sessionId = (Throw e, w').
Proof.
  intros Hdir Hsplit Hpre Hfile Hmatch Hpost.
  set (text' := writtenText (List.filter (keepLine JSON_parse sessionId)
                               (fileLines text))).
  destruct (writeFile_ok w projectName file text' (fs_now projectName file)
              _ Hfile eq_refl)
    as (w' & Hwrite & Hfile' & Hothers & _).
  assert (Hfirst : deleteSession JSON_parse fs_now w projectName sessionId
                   = (Ok true, w')).
  { unfold deleteSession. rewrite Hdir, Hsplit.
    replace (length (pre ++ file :: post) =? 0)%nat with false
      by (symmetry; apply Nat.eqb_neq; rewrite length_app; simpl; lia).
    rewrite (deleteFromFiles_skip _ _ _ _ _ _ _ Hpre). simpl.
    unfold readFile. rewrite Hfile. simpl. rewrite Hmatch.
    fold text'. by rewrite Hwrite. }
  assert (Hnone : Forall (fun f => forall t,
                    readFile w' projectName f = Ok t ->
                    existsb (lineHasSession JSON_parse sessionId) (fileLines t)
                    = false) (pre ++ file :: post)).
  { assert (Hhere : forall t, readFile w' projectName file = Ok t ->
              existsb (lineHasSession JSON_parse sessionId) (fileLines t)
              = false).
    { intros t. unfold readFile. rewrite Hfile'. simpl. intros [= <-].
      unfold text'. rewrite fileLines_written.
      rewrite (filter_ext _ _ (keepLine_negb JSON_parse sessionId)).
      apply existsb_filter_negb. }
    assert (Hthere : forall f, f <> file ->
              readFile w' projectName f = readFile w projectName f).
    { intros f Hf. unfold readFile. by rewrite (Hothers f Hf). }
    apply Forall_forall. intros f Hin.
    destruct (decide (f = file)) as [->|Hf]; [done|].
    rewrite (Hthere f Hf).
    apply elem_of_app in Hin as [Hin|Hin].
    - rewrite Forall_forall in Hpre.
      destruct (Hpre f Hin) as (t' & Ht' & Hno). intros t. rewrite Ht'.
      by intros [= <-].
    - apply elem_of_cons in Hin as [?|Hin]; [done|].
      rewrite Forall_forall in Hpost. by apply Hpost. }
  destruct (deleteFromFiles_missing JSON_parse fs_now w' projectName sessionId
              _ Hnone) as [e He].
  exists w', e. split; [done|].
  unfold deleteSession.
  rewrite (writeFile_readdir _ _ _ _ _ _ Hwrite), Hdir, Hsplit.
  replace (length (pre ++ file :: post) =? 0)%nat with false
    by (symmetry; apply Nat.eqb_neq; rewrite length_app; simpl; lia).
  done.
Qed.

(** ** A session without a valid date hides the sessions of its project *)

Lemma mapM_throw {A B} (f : A -> Res B) (xs : list A) (x : A) (e : Error) :
  x ∈ xs -> f x = Throw e -> exists e', mapM f xs = Throw e'.
Proof.
  induction xs as [|y xs IH]; intros Hin Hx.
  - by apply elem_of_nil in Hin.
  - simpl. destruct (f y) as [b|e0] eqn:Hy; simpl; [|by eexists].
    apply elem_of_cons in Hin as [->|Hin]; [congruence|].
    destruct (IH Hin Hx) as [e' ->]. by eexists.
Qed.

Lemma sortedFilesWithStats_length (w : World) (projectName : string)
    (jsonlFiles : list string) (filesWithStats : list (string * Z)) :
  sortedFilesWithStats w projectName jsonlFiles = Ok filesWithStats ->
  length filesWithStats = length jsonlFiles.
Proof.
  unfold sortedFilesWithStats.
  destruct (mapM _ jsonlFiles) as [stats|] eqn:Hstats; simpl; [|done].
  intros [= <-].
  by rewrite (Permutation_length (JsFacts.sort_Permutation _ _)),
    (mapM_length _ _ _ Hstats).
Qed.

Section InvalidDate.

Variable JSON_parse : string -> option SessionEntry.t.
Variable Date_parse : string -> Date.
Variable Date_now : string -> string -> nat -> Z.

(** The sessions of the file processed first are always collected. *)
Lemma collectSessions_first w projectName limit offset n file mtime rest i s :
  JsMap.get i (fileSessions JSON_parse Date_parse Date_now w projectName file)
  = Some s ->
  JsMap.get i
    (collectSessions JSON_parse Date_parse Date_now w projectName limit offset
       n ((file, mtime) :: rest) JsMap.empty 0)
  = Some s.
Proof.
  intros Hfile.
  pose proof (wellKeyed_get _ _ _
                (fileSessions_wellKeyed JSON_parse Date_parse Date_now
                   w projectName file) Hfile) as Hid.
  assert (Hmem : s ∈ parseJsonlSessions JSON_parse Date_parse Date_now
                     w projectName file).
  { apply parseJsonlSessions_elem. by rewrite Hid. }
  assert (Hmerged :
    JsMap.get i
      (mergeSessions
         (parseJsonlSessions JSON_parse Date_parse Date_now w projectName file)
         JsMap.empty) = Some s).
  { destruct (mergeSessions_has _ JsMap.empty _ Hmem) as [s' Hs'].
    rewrite Hid in Hs'. rewrite Hs'. f_equal.
    apply mergeSessions_origin in Hs' as [Hs'|(_ & Hin & Hid')]; [done|].
    apply parseJsonlSessions_elem in Hin. rewrite Hid' in Hin. congruence. }
  simpl. destruct (_ && _); [done|]. by apply collectSessions_keeps.
Qed.

(** X19. When a session of the newest log file of a project has no valid
    date (the last of its entries that has a timestamp has one that is not a
    date), [getSessions] answers the empty result for the project, whatever
    its log files hold; [isProjectEmpty] is then true, and [deleteProject]
    removes the folder with its log files. *)
Theorem deleteProject_removes_sessions_without_date
    (w : World) (projectName : string) (files : list string)
    (file : string) (mtime : Z) (rest : list (string * Z))
    (text sessionId ts : string) :
  readdir w projectName = Ok files ->
  sortedFilesWithStats w projectName (List.filter (Js.endsWith ".jsonl") files)
  = Ok ((file, mtime) :: rest) ->
  readFile w projectName file = Ok text ->
  last (stamps (contributing JSON_parse sessionId text)) = Some ts ->
  Date_parse ts = None ->
  configWritable w = true ->
  (forall limit offset,
     getSessions JSON_parse Date_parse Date_now w projectName limit offset
     = Ok emptyResult)
  /\ isProjectEmpty JSON_parse Date_parse Date_now w projectName = true
  /\ exists w',
       deleteProject JSON_parse Date_parse Date_now w projectName = (Ok true, w')
       /\ lookupProject w' projectName = None.
Proof.
  intros Hdir Hstats Hread Hlast Hdate Hwritable.
  assert (Hsession : exists s,
    JsMap.get sessionId
      (fileSessions JSON_parse Date_parse Date_now w projectName file) = Some s
    /\ SessionData.lastActivity s = None).
  { pose proof (fileSessions_get JSON_parse Date_parse Date_now w projectName
                  file text sessionId Hread) as Hget.
    destruct (contributing JSON_parse sessionId text) as [|first others] eqn:Hc;
      [done|].
    destruct Hget as [now Hget]. eexists. split; [exact Hget|].
    unfold fileSessions in Hget. rewrite Hread in Hget.
    apply processLines_lastActivity in Hget.
    unfold contributing in Hc. rewrite Hc, Hlast in Hget. congruence. }
  destruct Hsession as (s & Hs & Hnone).
  assert (Hempty : forall limit offset,
    getSessions JSON_parse Date_parse Date_now w projectName limit offset
    = Ok emptyResult).
  { intros limit offset. unfold getSessions. rewrite Hdir. simpl.
    pose proof (sortedFilesWithStats_length _ _ _ _ Hstats) as Hlen.
    destruct (List.filter (Js.endsWith ".jsonl") files) as [|f fs] eqn:Hjsonl;
      [done|].
    simpl. unfold sortedSessions, collectedSessions. rewrite Hstats. simpl.
    pose proof (collectSessions_first w projectName limit offset
                  (Z.of_nat (length ((file, mtime) :: rest))) file mtime rest
                  sessionId s Hs) as Hcollected.
    apply JsMapFacts.get_elem_of, (list_elem_of_fmap_2 snd) in Hcollected.
    destruct (mapM_throw toSession _ s (newError "Invalid time value")
                Hcollected) as [e' He'].
    { unfold toSession. by rewrite Hnone. }
    simpl in He'. unfold JsMap.values. by rewrite He'. }
  split; [done|].
  assert (Hisempty : isProjectEmpty JSON_parse Date_parse Date_now w projectName
                     = true).
  { unfold isProjectEmpty. by rewrite Hempty. }
  split; [done|].
  unfold deleteProject. rewrite Hisempty. simpl. unfold saveProjectConfig.
  change (configWritable (rmProjectDir w projectName)) with (configWritable w).
  rewrite Hwritable. eexists. split; [done|].
  apply lookupProject_rm_eq.
Qed.

End InvalidDate.

(** ** The sessions shown in the list of projects *)

Section Previews.

Variable JSON_parse : string -> option SessionEntry.t.
Variable Date_parse : string -> Date.
Variable Date_now : string -> string -> nat -> Z.

Lemma getSessions_Ok (w : World) (projectName : string) (limit offset : Z) :
  exists r,
    getSessions JSON_parse Date_parse Date_now w projectName limit offset = Ok r.
Proof.
  unfold getSessions.
  destruct (readdir w projectName) as [files|]; simpl; [|by eexists].
  destruct (length _ =? 0)%nat; simpl; [by eexists|].
  destruct (sortedSessions _ _ _ _ _ _ _ _); simpl; by eexists.
Qed.

Lemma discoverProjects_previews (w : World) (config : ProjectConfig)
    (entries : list (string * Node)) (projects : list Project.t)
    (existing : gset string) (cache : gmap string string) :
  exists found existing' cache',
    fold_left (discoverProject JSON_parse Date_parse Date_now w config) entries
      (projects, existing, cache)
    = ((projects ++ found)%list, existing', cache')
    /\ Forall (previews JSON_parse Date_parse Date_now w) found.
Proof.
  revert projects existing cache.
  induction entries as [|[name node] entries IH]; intros projects existing cache.
  - exists [], existing, cache. by rewrite app_nil_r.
  - cbn [fold_left]. destruct node as [|listing].
    + apply IH.
    + unfold discoverProject at 2.
      destruct (extractProjectDirectory _ _ w cache name) as [[dir cache1] ops].
      destruct (getSessions_Ok w name 5 0) as [r Hr]. rewrite Hr.
      match goal with
      | |- context [(projects ++ [?p])%list] => set (project := p)
      end.
      destruct (IH (projects ++ [project])%list ({[ name ]} ∪ existing) cache1)
        as (found & existing' & cache' & -> & Hall).
      exists (project :: found), existing', cache'.
      rewrite <- app_assoc. split; [done|]. constructor; [|done].
      exists r. by split_and!.
Qed.

Lemma getProjects_spec_previews (w : World) (cache : gmap string string) :
  exists found added,
    (getProjects JSON_parse Date_parse Date_now w cache).1
    = (found ++ added)%list
    /\ Project.name <$> found = projectFolders w
    /\ Forall (previews JSON_parse Date_parse Date_now w) found
    /\ Forall2 (madeOf w) added
         (manualEntries (projectFolders w) (loadProjectConfig w)).
Proof.
  unfold getProjects.
  assert (Hfirst : exists found existing cache1,
    match projectsDir w with
    | Some entries =>
        fold_left
          (discoverProject JSON_parse Date_parse Date_now w (loadProjectConfig w))
          entries ([], ∅, cache)
    | None => ([], ∅, cache)
    end = (found, existing, cache1)
    /\ Project.name <$> found = projectFolders w
    /\ (forall k, k ∈ existing <-> k ∈ projectFolders w)
    /\ Forall (previews JSON_parse Date_parse Date_now w) found).
  { unfold projectFolders. destruct (projectsDir w) as [entries|].
    - destruct (discoverProjects_spec JSON_parse Date_parse Date_now w
                  (loadProjectConfig w) entries [] ∅ cache)
        as (found & existing & cache1 & Hfold & Hnames & Hexisting & _).
      destruct (discoverProjects_previews w (loadProjectConfig w) entries
                  [] ∅ cache)
        as (found' & existing' & cache1' & Hfold' & Hall).
      rewrite Hfold in Hfold'. injection Hfold' as <- <- <-.
      rewrite Hfold. exists found, existing, cache1.
      split_and!; [done|done| |done].
      intros k. rewrite Hexisting, elem_of_empty. tauto.
    - exists [], ∅, cache. split_and!; [done|done| |done].
      intros k. rewrite elem_of_empty, elem_of_nil. tauto. }
  destruct Hfirst as (found & existing & cache1 & -> & Hnames & Hexisting & Hall).
  destruct (addConfigureds_spec JSON_parse Date_parse w (projectFolders w)
              existing (loadProjectConfig w) found cache1 Hexisting)
    as (added & cache' & Hfold & Hadded).
  unfold JsMap.entries. rewrite Hfold. by exists found, added.
Qed.

Lemma getSessions_page_length (w : World) (projectName : string)
    (limit offset : Z) (r : SessionsResult.t) :
  0 <= limit -> 0 <= offset ->
  getSessions JSON_parse Date_parse Date_now w projectName limit offset = Ok r ->
  Z.of_nat (length (SessionsResult.sessions r)) <= limit.
Proof.
  intros Hlimit Hoffset
    [->|(files & filesWithStats & converted & _ & _ & _ & -> & _)]
    %getSessions_cases; [simpl; lia|].
  rewrite JsFacts.slice_window by done. rewrite length_take. lia.
Qed.

(** X20. Every project [getProjects] lists for a folder carries the first
    page of five of [getSessions] for its name (at most five sessions) with
    that call's [total] and [hasMore]; a project listed for a configuration
    entry alone carries no sessions, a total of 0 and no [hasMore]. *)
Theorem getProjects_previews_sessions
    (w : World) (cache : gmap string string) (project : Project.t) :
  project ∈ (getProjects JSON_parse Date_parse Date_now w cache).1 ->
  (length (Project.sessions project) <= 5)%nat
  /\ if bool_decide (Project.name project ∈ projectFolders w)
     then previews JSON_parse Date_parse Date_now w project
     else Project.sessions project = []
          /\ Project.sessionMeta project = SessionMeta.mk 0 false.
Proof.
  intros Hin.
  destruct (getProjects_spec_previews w cache)
    as (found & added & Hlist & Hnames & Hfound & Hadded).
  rewrite Hlist in Hin. apply elem_of_app in Hin as [Hin|Hin].
  - rewrite Forall_forall in Hfound. pose proof (Hfound _ Hin) as Hpreviews.
    split.
    + destruct Hpreviews as (r & Hr & -> & _).
      pose proof (getSessions_page_length w (Project.name project) 5 0 r
                    ltac:(lia) ltac:(lia) Hr) as Hlen.
      lia.
    + rewrite bool_decide_eq_true_2; [done|].
      rewrite <- Hnames. by apply list_elem_of_fmap_2.
  - apply list_elem_of_lookup in Hin as [i Hi].
    destruct (Forall2_lookup_l _ _ _ _ _ Hadded Hi)
      as (e & He & Hname & _ & _ & Hsessions & Hmeta).
    apply list_elem_of_lookup_2, manualEntries_elem in He as (_ & Hnot & _).
    rewrite Hsessions. split; [simpl; lia|].
    rewrite bool_decide_eq_false_2; [done|]. by rewrite Hname.
Qed.

End Previews.

(** * Further instances on the concrete platform *)

Lemma getProjects_names_witness :
  let w := Example.listWorld in
  let names :=
    Project.name
    <$> (getProjects Sample.JSON_parse Sample.Date_parse Sample.Date_now w ∅).1 in
  NoDup (projectFolders w)
  /\ NoDup (JsMap.keys (loadProjectConfig w))
  /\ names = ["my-app"; "-srv-taken"; "-srv-demo"]
  /\ NoDup names.
Proof.
  cbv zeta.
  assert (Hfolders : NoDup (projectFolders Example.listWorld))
    by (apply (bool_decide_unpack _); vm_compute; exact I).
  assert (Hkeys : NoDup (JsMap.keys (loadProjectConfig Example.listWorld)))
    by (apply (bool_decide_unpack _); vm_compute; exact I).
  split; [exact Hfolders|]. split; [exact Hkeys|]. split; [reflexivity|].
  exact (proj2 (getProjects_names Sample.JSON_parse Sample.Date_parse
                  Sample.Date_now Example.listWorld ∅) Hfolders Hkeys).
Defined.

Lemma getProjects_shown_names_witness :
  let w := Example.listWorld in
  let list :=
    (getProjects Sample.JSON_parse Sample.Date_parse Sample.Date_now w ∅).1 in
  let named :=
    Project.mk "my-app" "My App" "/home/u/a" (SessionMeta.mk 1 false)
      [Session.mk "s1" "New Session" 1704067200000 1704067200000 1] in
  let unnamed :=
    Project.mk "-srv-demo" "/srv/demo" "/srv/demo" (SessionMeta.mk 0 false) [] in
  NoDup (JsMap.keys (loadProjectConfig w))
  /\ named ∈ list /\ unnamed ∈ list
  /\ Project.displayName named = "My App"
  /\ Project.displayName unnamed
     = generateDisplayName w "-srv-demo" (Some "/srv/demo").
Proof.
  cbv zeta.
  assert (Hkeys : NoDup (JsMap.keys (loadProjectConfig Example.listWorld)))
    by (apply (bool_decide_unpack _); vm_compute; exact I).
  split; [exact Hkeys|].
  split; [vm_compute; by left|]. split; [vm_compute; right; right; by left|].
  split.
  - refine (proj1 (getProjects_shown_names Sample.JSON_parse Sample.Date_parse
                     Sample.Date_now Example.listWorld ∅ _ Hkeys _)
              "My App" _ _);
      [vm_compute; by left|reflexivity|discriminate].
  - refine (proj2 (getProjects_shown_names Sample.JSON_parse Sample.Date_parse
                     Sample.Date_now Example.listWorld ∅
                     (Project.mk "-srv-demo" "/srv/demo" "/srv/demo"
                        (SessionMeta.mk 0 false) []) Hkeys _) _);
      [vm_compute; right; right; by left|left; reflexivity].
Defined.




Lemma addProjectManually_existing_folder_witness :
  let w := Example.listWorld in
  existsb (String.eqb (Sample.path_resolve "/srv/taken")) (existingPaths w)
  = true
  /\ lookupProject w "-srv-taken" = Some (Directory (Some []))
  /\ addProjectManually Sample.path_resolve w "/srv/taken" None
     = (Throw (newError "Project already exists for path: /srv/taken"), w).
Proof.
  cbv zeta. split; [reflexivity|]. split; [reflexivity|].
  exact (addProjectManually_existing_folder Sample.path_resolve
           Example.listWorld "/srv/taken" None (Directory (Some []))
           eq_refl eq_refl).
Defined.



Lemma parseJsonlSessions_counts_entries_witness :
  let w := Sample.dedupWorld in
  let text :=
    Sample.logText [Sample.line "s1" "/home/u/app-old" Sample.day1;
                    Sample.line "s2" "/home/u/app" Sample.day1] in
  let sessions :=
    parseJsonlSessions Sample.JSON_parse Sample.Date_parse Sample.Date_now
      w "my-app" "old.jsonl" in
  readFile w "my-app" "old.jsonl" = Ok text
  /\ contributing Sample.JSON_parse "s1" text
     = [Sample.entry "s1" "/home/u/app-old" Sample.day1]
  /\ contributing Sample.JSON_parse "s3" text = []
  /\ (exists session,
        session ∈ sessions
        /\ SessionData.id session = "s1"
        /\ SessionData.messageCount session = 1
        /\ SessionData.cwd session = "/home/u/app-old")
  /\ (forall session, session ∈ sessions -> SessionData.id session <> "s3").
Proof.
  cbv zeta. split; [reflexivity|]. split; [reflexivity|]. split; [reflexivity|].
  split.
  - exact (proj2 (parseJsonlSessions_counts_entries Sample.JSON_parse
                    Sample.Date_parse Sample.Date_now Sample.dedupWorld
                    "my-app" "old.jsonl" _ "s1" eq_refl)
             (Sample.entry "s1" "/home/u/app-old" Sample.day1) [] eq_refl).
  - exact (proj1 (parseJsonlSessions_counts_entries Sample.JSON_parse
                    Sample.Date_parse Sample.Date_now Sample.dedupWorld
                    "my-app" "old.jsonl" _ "s3" eq_refl) eq_refl).
Defined.

Lemma summary_marker_decides_witness :
  let w := Example.titledWorld in
  let session :=
    SessionData.mk "c1" "Fix the login bug" 3 (Some 1704153600000) "" in
  let pre := [Example.userEntry "c1" Sample.day1 Example.question] in
  let marker := Example.summaryEntry "c1" "Fix the login bug" in
  let post := [Example.userEntry "c1" Sample.day2 Example.thanks] in
  readFile w "chat" "a.jsonl" = Ok Example.titledText
  /\ session ∈ parseJsonlSessions Example.JSON_parse Sample.Date_parse
                 Sample.Date_now w "chat" "a.jsonl"
  /\ contributing Example.JSON_parse "c1" Example.titledText
     = (pre ++ marker :: post)%list
  /\ summaryMarker marker = true
  /\ SessionEntry.summary marker = Some "Fix the login bug"
  /\ "Fix the login bug" <> "New Session"
  /\ Forall (fun e => summaryMarker e = false) post
  /\ SessionData.summary session = "Fix the login bug".
Proof.
  cbv zeta.
  assert (Hin : SessionData.mk "c1" "Fix the login bug" 3 (Some 1704153600000) ""
                ∈ parseJsonlSessions Example.JSON_parse Sample.Date_parse
                    Sample.Date_now Example.titledWorld "chat" "a.jsonl")
    by (vm_compute; by left).
  assert (Hpost : Forall (fun e => summaryMarker e = false)
                    [Example.userEntry "c1" Sample.day2 Example.thanks])
    by (by repeat constructor).
  assert (Hne : "Fix the login bug" <> "New Session") by discriminate.
  split; [reflexivity|]. split; [exact Hin|]. split; [reflexivity|].
  split; [reflexivity|]. split; [reflexivity|]. split; [exact Hne|].
  split; [exact Hpost|].
  exact (summary_marker_decides Example.JSON_parse Sample.Date_parse
           Sample.Date_now Example.titledWorld "chat" "a.jsonl"
           Example.titledText _
           [Example.userEntry "c1" Sample.day1 Example.question]
           [Example.userEntry "c1" Sample.day2 Example.thanks]
           (Example.summaryEntry "c1" "Fix the login bug")
           "Fix the login bug" eq_refl Hin eq_refl eq_refl eq_refl Hne Hpost).
Defined.

Lemma summary_from_first_user_message_witness :
  let w := Example.untitledWorld in
  let session :=
    SessionData.mk "c2"
      "could you explain why the session list is empty af..." 2
      (Some 1704153600000) "" in
  let entries := contributing Example.JSON_parse "c2" Example.untitledText in
  readFile w "chat" "a.jsonl" = Ok Example.untitledText
  /\ session ∈ parseJsonlSessions Example.JSON_parse Sample.Date_parse
                 Sample.Date_now w "chat" "a.jsonl"
  /\ Forall (fun e => summaryMarker e = false) entries
  /\ omap titleSource entries = [Example.longQuestion]
  /\ SessionData.summary session
     = default "New Session" (head (offeredTitles entries))
  /\ (String.length (SessionData.summary session) <= 53)%nat.
Proof.
  cbv zeta.
  assert (Hin : SessionData.mk "c2"
                  "could you explain why the session list is empty af..." 2
                  (Some 1704153600000) ""
                ∈ parseJsonlSessions Example.JSON_parse Sample.Date_parse
                    Sample.Date_now Example.untitledWorld "chat" "a.jsonl")
    by (vm_compute; by left).
  assert (Hall : Forall (fun e => summaryMarker e = false)
                   (contributing Example.JSON_parse "c2" Example.untitledText))
    by (vm_compute; by repeat constructor).
  split; [reflexivity|]. split; [exact Hin|]. split; [exact Hall|].
  split; [reflexivity|].
  exact (summary_from_first_user_message Example.JSON_parse Sample.Date_parse
           Sample.Date_now Example.untitledWorld "chat" "a.jsonl"
           Example.untitledText _ eq_refl Hin Hall).
Defined.

Lemma getSessions_page_distinct_sorted_witness :
  let s1 := Session.mk "s1" "New Session" 1704153600000 1704153600000 1 in
  let s2 := Session.mk "s2" "New Session" 1704067200000 1704067200000 1 in
  let r := SessionsResult.mk [s1; s2] false 2 (Some 0) (Some 10) in
  getSessions Sample.JSON_parse Sample.Date_parse Sample.Date_now
    Sample.dedupWorld "my-app" 10 0 = Ok r
  /\ NoDup (Session.id <$> SessionsResult.sessions r)
  /\ StronglySorted (fun a b => Session.updated_at b <= Session.updated_at a)
       (SessionsResult.sessions r).
Proof.
  cbv zeta. split; [reflexivity|].
  exact (getSessions_page_distinct_sorted Sample.JSON_parse Sample.Date_parse
           Sample.Date_now Sample.dedupWorld "my-app" 10 0 _ eq_refl).
Defined.

Lemma getSessions_total_counts_every_session_witness :
  let s1 := Session.mk "s1" "New Session" 1704153600000 1704153600000 1 in
  let s2 := Session.mk "s2" "New Session" 1704067200000 1704067200000 1 in
  let r := SessionsResult.mk [s1; s2] false 2 (Some 0) (Some 10) in
  let files := ["old.jsonl"; "new.jsonl"] in
  getSessions Sample.JSON_parse Sample.Date_parse Sample.Date_now
    Sample.dedupWorld "my-app" 10 0 = Ok r
  /\ readdir Sample.dedupWorld "my-app" = Ok files
  /\ 0 < SessionsResult.total r < (10 + 0) * 2
  /\ projectSessionIds Sample.JSON_parse Sample.Date_parse Sample.Date_now
       Sample.dedupWorld "my-app" (List.filter (Js.endsWith ".jsonl") files)
     = ["s2"; "s1"]
  /\ SessionsResult.total r
     = Z.of_nat
         (length
            (projectSessionIds Sample.JSON_parse Sample.Date_parse
               Sample.Date_now Sample.dedupWorld "my-app"
               (List.filter (Js.endsWith ".jsonl") files))).
Proof.
  cbv zeta. split; [reflexivity|]. split; [reflexivity|].
  split; [simpl; lia|]. split; [reflexivity|].
  apply (getSessions_total_counts_every_session Sample.JSON_parse
           Sample.Date_parse Sample.Date_now Sample.dedupWorld "my-app" 10 0
           _ ["old.jsonl"; "new.jsonl"] eq_refl eq_refl).
  simpl. lia.
Defined.

Lemma getSessionMessages_complete_sorted_witness :
  let w := Sample.dedupWorld in
  let files := ["old.jsonl"; "new.jsonl"] in
  let texts :=
    [Sample.logText [Sample.line "s1" "/home/u/app-old" Sample.day1;
                     Sample.line "s2" "/home/u/app" Sample.day1];
     Sample.logText [Sample.line "s1" "/home/u/app" Sample.day2]] in
  readdir w "my-app" = Ok files
  /\ mapM (readFile w "my-app") (List.filter (Js.endsWith ".jsonl") files)
     = Ok texts
  /\ bearing Sample.JSON_parse "s1" texts
     = [Sample.entry "s1" "/home/u/app-old" Sample.day1;
        Sample.entry "s1" "/home/u/app" Sample.day2]
  /\ exists messages,
       getSessionMessages Sample.JSON_parse Sample.Date_parse w "my-app" "s1"
       = Ok messages
       /\ messages ≡ₚ bearing Sample.JSON_parse "s1" texts
       /\ (Forall (fun e => is_Some (entryTime Sample.Date_parse e)) messages ->
           StronglySorted
             (fun a b => default 0 (entryTime Sample.Date_parse a)
                         <= default 0 (entryTime Sample.Date_parse b))
             messages).
Proof.
  cbv zeta. split; [reflexivity|]. split; [reflexivity|]. split; [reflexivity|].
  exact (getSessionMessages_complete_sorted Sample.JSON_parse Sample.Date_parse
           Sample.dedupWorld "my-app" "s1" ["old.jsonl"; "new.jsonl"] _
           eq_refl eq_refl).
Defined.

Lemma message_count_le_messages_witness :
  let w := Sample.dedupWorld in
  let s1 := Session.mk "s1" "New Session" 1704153600000 1704153600000 1 in
  let s2 := Session.mk "s2" "New Session" 1704067200000 1704067200000 1 in
  let r := SessionsResult.mk [s1; s2] false 2 (Some 0) (Some 10) in
  let files := ["old.jsonl"; "new.jsonl"] in
  let texts :=
    [Sample.logText [Sample.line "s1" "/home/u/app-old" Sample.day1;
                     Sample.line "s2" "/home/u/app" Sample.day1];
     Sample.logText [Sample.line "s1" "/home/u/app" Sample.day2]] in
  getSessions Sample.JSON_parse Sample.Date_parse Sample.Date_now w "my-app" 10 0
  = Ok r
  /\ s1 ∈ SessionsResult.sessions r
  /\ readdir w "my-app" = Ok files
  /\ mapM (readFile w "my-app") (List.filter (Js.endsWith ".jsonl") files)
     = Ok texts
  /\ exists messages,
       getSessionMessages Sample.JSON_parse Sample.Date_parse w "my-app"
         (Session.id s1) = Ok messages
       /\ 0 < Session.message_count s1 <= Z.of_nat (length messages).
Proof.
  cbv zeta.
  assert (Hin : Session.mk "s1" "New Session" 1704153600000 1704153600000 1
                ∈ [Session.mk "s1" "New Session" 1704153600000 1704153600000 1;
                   Session.mk "s2" "New Session" 1704067200000 1704067200000 1])
    by (by left).
  split; [reflexivity|]. split; [exact Hin|]. split; [reflexivity|].
  split; [reflexivity|].
  exact (message_count_le_messages Sample.JSON_parse Sample.Date_parse
           Sample.Date_now Sample.dedupWorld "my-app" 10 0
           (SessionsResult.mk
              [Session.mk "s1" "New Session" 1704153600000 1704153600000 1;
               Session.mk "s2" "New Session" 1704067200000 1704067200000 1]
              false 2 (Some 0) (Some 10))
           _ ["old.jsonl"; "new.jsonl"] _ eq_refl Hin eq_refl eq_refl).
Defined.

Lemma extractProjectDirectory_decoded_or_observed_witness :
  let w := Sample.votesWorld 1 in
  let path :=
    (extractProjectDirectory Sample.JSON_parse Sample.Date_parse w ∅
       "my-app").1.1 in
  (∅ : gmap string string) !! "my-app" = None
  /\ path = "/home/u/a"
  /\ (path = Js.replaceAll "-" "/" "my-app"
      \/ exists files texts,
           readdir w "my-app" = Ok files
           /\ mapM (readFile w "my-app")
                (List.filter (Js.endsWith ".jsonl") files) = Ok texts
           /\ path ∈ (votes Sample.JSON_parse Sample.Date_parse texts).*1).
Proof.
  cbv zeta. split; [reflexivity|]. split; [reflexivity|].
  exact (extractProjectDirectory_decoded_or_observed Sample.JSON_parse
           Sample.Date_parse (Sample.votesWorld 1) ∅ "my-app" eq_refl).
Defined.

Lemma deleteSession_again_throws_witness :
  let w := Sample.dedupWorld in
  let text :=
    Sample.logText [Sample.line "s1" "/home/u/app-old" Sample.day1;
                    Sample.line "s2" "/home/u/app" Sample.day1] in
  let has := lineHasSession Sample.JSON_parse "s2" in
  readdir w "my-app" = Ok ["old.jsonl"; "new.jsonl"]
  /\ lookupFile w "my-app" "old.jsonl" = Some (mkFile (Some text) (Some 100) true)
  /\ existsb has (fileLines text) = true
  /\ Forall (fun f => forall text',
               readFile w "my-app" f = Ok text' ->
               existsb has (fileLines text') = false) ["new.jsonl"]
  /\ exists w' e,
       deleteSession Sample.JSON_parse Sample.fs_now w "my-app" "s2"
       = (Ok true, w')
       /\ deleteSession Sample.JSON_parse Sample.fs_now w' "my-app" "s2"
          = (Throw e, w').
Proof.
  cbv zeta.
  assert (Hpost : Forall (fun f => forall text',
                    readFile Sample.dedupWorld "my-app" f = Ok text' ->
                    existsb (lineHasSession Sample.JSON_parse "s2")
                      (fileLines text') = false) ["new.jsonl"]).
  { constructor; [|constructor]. intros text' Hread.
    injection Hread as <-. reflexivity. }
  split; [reflexivity|]. split; [reflexivity|]. split; [reflexivity|].
  split; [exact Hpost|].
  exact (deleteSession_again_throws Sample.JSON_parse Sample.fs_now
           Sample.dedupWorld
           "my-app" "s2" ["old.jsonl"; "new.jsonl"] [] ["new.jsonl"]
           "old.jsonl" _ (Some 100) eq_refl eq_refl (List.Forall_nil _)
           eq_refl eq_refl Hpost).
Defined.

Lemma deleteProject_removes_sessions_without_date_witness :
  let w := Example.undatedWorld in
  readdir w "chat" = Ok ["old.jsonl"; "new.jsonl"]
  /\ sortedFilesWithStats w "chat"
       (List.filter (Js.endsWith ".jsonl") ["old.jsonl"; "new.jsonl"])
     = Ok [("new.jsonl", 200); ("old.jsonl", 100)]
  /\ readFile w "chat" "new.jsonl" = Ok Example.undatedText
  /\ last (stamps (contributing Example.JSON_parse "c3" Example.undatedText))
     = Some "yesterday"
  /\ Sample.Date_parse "yesterday" = None
  /\ configWritable w = true
  /\ JsMap.keys
       (fileSessions Example.JSON_parse Sample.Date_parse Sample.Date_now
          w "chat" "old.jsonl") = ["s1"]
  /\ (forall limit offset,
        getSessions Example.JSON_parse Sample.Date_parse Sample.Date_now
          w "chat" limit offset = Ok emptyResult)
  /\ isProjectEmpty Example.JSON_parse Sample.Date_parse Sample.Date_now
       w "chat" = true
  /\ exists w',
       deleteProject Example.JSON_parse Sample.Date_parse Sample.Date_now
         w "chat" = (Ok true, w')
       /\ lookupProject w' "chat" = None.
Proof.
  cbv zeta. split; [reflexivity|]. split; [reflexivity|]. split; [reflexivity|].
  split; [reflexivity|]. split; [reflexivity|]. split; [reflexivity|].
  split; [reflexivity|].
  exact (deleteProject_removes_sessions_without_date Example.JSON_parse
           Sample.Date_parse Sample.Date_now Example.undatedWorld "chat"
           ["old.jsonl"; "new.jsonl"] "new.jsonl" 200 [("old.jsonl", 100)]
           Example.undatedText "c3" "yesterday"
           eq_refl eq_refl eq_refl eq_refl eq_refl eq_refl).
Defined.

Lemma getProjects_previews_sessions_witness :
  let w := Example.listWorld in
  let s1 := Session.mk "s1" "New Session" 1704067200000 1704067200000 1 in
  let project :=
    Project.mk "my-app" "My App" "/home/u/a" (SessionMeta.mk 1 false) [s1] in
  project ∈ (getProjects Sample.JSON_parse Sample.Date_parse Sample.Date_now
               w ∅).1
  /\ getSessions Sample.JSON_parse Sample.Date_parse Sample.Date_now
       w "my-app" 5 0
     = Ok (SessionsResult.mk [s1] false 1 (Some 0) (Some 5))
  /\ (length (Project.sessions project) <= 5)%nat
  /\ if bool_decide (Project.name project ∈ projectFolders w)
     then previews Sample.JSON_parse Sample.Date_parse Sample.Date_now w project
     else Project.sessions project = []
          /\ Project.sessionMeta project = SessionMeta.mk 0 false.
Proof.
  cbv zeta.
  assert (Hin : Project.mk "my-app" "My App" "/home/u/a" (SessionMeta.mk 1 false)
                  [Session.mk "s1" "New Session" 1704067200000 1704067200000 1]
                ∈ (getProjects Sample.JSON_parse Sample.Date_parse
                     Sample.Date_now Example.listWorld ∅).1)
    by (vm_compute; by left).
  split; [exact Hin|]. split; [reflexivity|].
  exact (getProjects_previews_sessions Sample.JSON_parse Sample.Date_parse
           Sample.Date_now Example.listWorld ∅ _ Hin).
Defined.
